(** * Bunker Finder: normalizer, facet index, map filter and enrichment

    A shallow embedding of the data pipeline of the application:
    - [GeoJSON]      src/hooks/useGeoJSON.ts   (generateFilters, convertOSMToGeoJSON)
    - [MapView]      src/components/FortificationMap.tsx (normalizeText,
                     filteredFortifications)
    - [ExternalData] src/hooks/useExternalData.ts and its revision with the
                     image search (enrichFortification and its fetch helpers)

    Strings are sequences of UTF-16 code units, numbers are IEEE-754 binary64
    values, objects used as dictionaries are finite maps, and the objects
    that the code mutates through several references live in a heap. *)

From Stdlib Require Import ZArith NArith List String Ascii Lia Bool.
From Stdlib Require Import Floats.SpecFloat.
From Stdlib Require Import Sorting.Sorted Sorting.Permutation.
From stdpp Require Import gmap list.

(* ===================================================================== *)
(** * The JavaScript values the code handles *)
(* ===================================================================== *)

(** A JS string: its UTF-16 code units. *)
Abbreviation jsstring := (list N).

(** A JS number: a binary64 value ([S754_zero], [S754_nan], ...). *)
Abbreviation number := spec_float.

(** An ASCII literal of the source as a JS string. *)
Definition js (s : string) : jsstring :=
  List.map N_of_ascii (list_ascii_of_string s).

Module JS.

(** ** Strings *)

Definition eqb (s t : jsstring) : bool := bool_decide (s = t).

(** [s.startsWith(p)] *)
Fixpoint startsWith (s p : jsstring) : bool :=
  match p, s with
  | [], _ => true
  | _ :: _, [] => false
  | a :: p', b :: s' => (a =? b)%N && startsWith s' p'
  end.

(** [s.includes(t)]: [t] occurs in [s] as a contiguous run of code units. *)
Fixpoint includes (s t : jsstring) : bool :=
  startsWith s t ||
  match s with
  | [] => false
  | _ :: s' => includes s' t
  end.

(** WhiteSpace and LineTerminator code units, the ones [trim] removes. *)
Definition isWhiteSpace (c : N) : bool :=
  ((9 <=? c) && (c <=? 13) || (c =? 32) || (c =? 160) || (c =? 5760)
   || (8192 <=? c) && (c <=? 8202) || (c =? 8232) || (c =? 8233)
   || (c =? 8239) || (c =? 8287) || (c =? 12288) || (c =? 65279))%N.

Fixpoint trimStart (s : jsstring) : jsstring :=
  match s with
  | c :: s' => if isWhiteSpace c then trimStart s' else s
  | [] => []
  end.

Definition trimEnd (s : jsstring) : jsstring := rev (trimStart (rev s)).

(** [s.trim()] *)
Definition trim (s : jsstring) : jsstring := trimEnd (trimStart s).

(** [s.split(sep)[0]] for a one-unit separator: the part before its first
    occurrence (all of [s] when there is none). *)
Fixpoint beforeFirst (sep : N) (s : jsstring) : jsstring :=
  match s with
  | [] => []
  | c :: s' => if (c =? sep)%N then [] else c :: beforeFirst sep s'
  end.

(** [s.split(sep).slice(1).join(sep)] for a one-unit separator: the part
    after its first occurrence (empty when there is none). *)
Fixpoint afterFirst (sep : N) (s : jsstring) : jsstring :=
  match s with
  | [] => []
  | c :: s' => if (c =? sep)%N then s' else afterFirst sep s'
  end.

(** [s.replace(pat, by)] with a string pattern: the first occurrence only. *)
Fixpoint replaceFirst (s pat by_ : jsstring) : jsstring :=
  if startsWith s pat then by_ ++ drop (length pat) s
  else match s with
       | [] => []
       | c :: s' => c :: replaceFirst s' pat by_
       end.

(** ** Truthiness of the optional strings read from a property bag
    ([undefined] and the empty string are falsy). *)

Definition truthy (v : option jsstring) : bool :=
  match v with
  | Some (_ :: _) => true
  | _ => false
  end.

(** [a || b] on optional strings. *)
Definition or (a b : option jsstring) : option jsstring :=
  if truthy a then a else b.

(** [a || 'literal'] *)
Definition orElse (a : option jsstring) (d : jsstring) : jsstring :=
  match a with
  | Some (c :: s) => c :: s
  | _ => d
  end.

(** ** Numbers *)

Definition zero : number := S754_zero false.

(** ToBoolean of a number: [+0], [-0] and [NaN] are falsy. *)
Definition truthyNum (x : option number) : bool :=
  match x with
  | Some (S754_zero _) | Some S754_nan | None => false
  | Some _ => true
  end.

(** [x === 0] *)
Definition isZero (x : number) : bool :=
  match x with
  | S754_zero _ => true
  | _ => false
  end.

(** The binary64 value nearest to the decimal literal [n / 10^d]
    (what the parser yields for it). *)
Definition decimal (n : Z) (d : Z) : number :=
  let lift z := match z with
                | Z0 => S754_zero false
                | Zpos p => S754_finite false p 0
                | Zneg p => S754_finite true p 0
                end in
  SFdiv 53 1024 (lift n) (lift (10 ^ d)%Z).

(** ** [Number.prototype.toString()] (ECMA-262, Number::toString, radix 10) *)

(** The decimal digits of a natural number. *)
Fixpoint uintDigits (u : Decimal.uint) : jsstring :=
  match u with
  | Decimal.Nil => []
  | Decimal.D0 u => 48%N :: uintDigits u
  | Decimal.D1 u => 49%N :: uintDigits u
  | Decimal.D2 u => 50%N :: uintDigits u
  | Decimal.D3 u => 51%N :: uintDigits u
  | Decimal.D4 u => 52%N :: uintDigits u
  | Decimal.D5 u => 53%N :: uintDigits u
  | Decimal.D6 u => 54%N :: uintDigits u
  | Decimal.D7 u => 55%N :: uintDigits u
  | Decimal.D8 u => 56%N :: uintDigits u
  | Decimal.D9 u => 57%N :: uintDigits u
  end.

Definition natDigits (n : Z) : jsstring :=
  match Z.to_int n with
  | Decimal.Pos u | Decimal.Neg u => uintDigits u
  end.

(** A positive binary64 value [m * 2^e] brought to its canonical mantissa
    and exponent (53 bits, or exponent -1074 for a subnormal). *)
Definition canonical (m : positive) (e : Z) : Z * Z :=
  let bits := Z.pos (digits2_pos m) in
  let E := Z.max (e - (53 - bits)) (-1074) in
  (Z.pos m * 2 ^ (e - E), E)%Z.

(** The interval of the reals that round to [M * 2^E], as numerators over
    the common denominator [D]: (value, low end, high end, D, ends included). *)
Definition roundingInterval (M E : Z) : Z * Z * Z * Z * bool :=
  let sh := Z.max 0 (2 - E) in
  let V := (M * 2 ^ (E + sh))%Z in
  let up := (2 ^ (E - 1 + sh))%Z in
  let down :=
    if (M =? 2 ^ 52)%Z && (-1074 <? E)%Z then (2 ^ (E - 2 + sh))%Z else up in
  (V, (V - down)%Z, (V + up)%Z, (2 ^ sh)%Z, Z.even M).

Section Shortest.
Variables (V L H D : Z) (closed : bool).

(** [s * 10^t] and [a / D] over a common denominator. *)
Definition scaled (s t a : Z) : Z * Z :=
  if (0 <=? t)%Z then (s * 10 ^ t * D, a)%Z else (s * D, a * 10 ^ (- t))%Z.

Definition inInterval (s t : Z) : bool :=
  let '(x, lo) := scaled s t L in
  let '(_, hi) := scaled s t H in
  if closed then (lo <=? x)%Z && (x <=? hi)%Z else (lo <? x)%Z && (x <? hi)%Z.

(** The least [n] with [V / D < 10^n], looked for from an estimate that
    the binary logarithms put at most three below it. *)
Definition magnitude : Z :=
  let below n := let '(x, v) := scaled 1 n V in (v <? x)%Z in
  let start := ((Z.log2 V - Z.log2 D) * 30103 / 100000 - 3)%Z in
  default start (find below (List.map (λ i, start + Z.of_nat i)%Z (seq 0 12))).

(** The [k]-digit candidates around the value: the digit string [s] and the
    exponent [n] of the first one that rounds back, the closer of the two
    when both do, the even one on a tie. *)
Definition candidate (n : Z) (k : Z) : option (Z * Z) :=
  let t := (n - k)%Z in
  let '(unit, v) := scaled 1 t V in
  let lo := (v / unit)%Z in
  let hi := (lo + 1)%Z in
  let okLo := (10 ^ (k - 1) <=? lo)%Z && inInterval lo t in
  let okHi := inInterval hi t in
  let pick s := if (s =? 10 ^ k)%Z then Some (1, n + 1)%Z else Some (s, n) in
  match okLo, okHi with
  | true, false => pick lo
  | false, true => pick hi
  | true, true =>
      let dLo := (v - lo * unit)%Z in
      let dHi := (hi * unit - v)%Z in
      match (dLo ?= dHi)%Z with
      | Lt => pick lo
      | Gt => pick hi
      | Eq => if Z.even lo then pick lo else pick hi
      end
  | false, false => None
  end.

(** The candidate with the fewest digits; seventeen always suffice. *)
Fixpoint shortestFrom (n k : Z) (fuel : nat) : Z * Z :=
  match fuel with
  | O => (0, 0)%Z
  | S fuel' =>
      match candidate n k with
      | Some r => r
      | None => shortestFrom n (k + 1)%Z fuel'
      end
  end.

Definition shortest : Z * Z := shortestFrom magnitude 1 17.

End Shortest.

(** The text for the digits [s] (there are [k] of them) and the exponent [n]:
    the value is [0.s * 10^n]. *)
Definition formatDecimal (s n : Z) : jsstring :=
  let digits := natDigits s in
  let k := Z.of_nat (length digits) in
  if (k <=? n)%Z && (n <=? 21)%Z then
    digits ++ repeat 48%N (Z.to_nat (n - k))
  else if (0 <? n)%Z && (n <=? 21)%Z then
    take (Z.to_nat n) digits ++ [46%N] ++ drop (Z.to_nat n) digits
  else if (-6 <? n)%Z && (n <=? 0)%Z then
    [48%N; 46%N] ++ repeat 48%N (Z.to_nat (- n)) ++ digits
  else
    let e := (n - 1)%Z in
    let exponent := [101%N] ++ [if (0 <=? e)%Z then 43%N else 45%N] ++ natDigits (Z.abs e) in
    match digits with
    | [d] => [d] ++ exponent
    | d :: rest => [d; 46%N] ++ rest ++ exponent
    | [] => exponent
    end.

Definition numberToString (x : number) : jsstring :=
  match x with
  | S754_nan => js "NaN"
  | S754_zero _ => js "0"
  | S754_infinity s => (if s then [45%N] else []) ++ js "Infinity"
  | S754_finite s m e =>
      let '(M, E) := canonical m e in
      let '(V, L, H, D, closed) := roundingInterval M E in
      let '(digits, n) := shortest V L H D closed in
      (if s then [45%N] else []) ++ formatDecimal digits n
  end.

(** ** [Date.prototype.toISOString()] (ECMA-262, 21.4.4.36) *)

Definition msPerDay : Z := 86400000.

(** Year, month (1-12) and day of the month of a day number counted from
    1970-01-01, in the proleptic Gregorian calendar. *)
Definition civilFromDays (day : Z) : Z * Z * Z :=
  let z := (day + 719468)%Z in
  let era := (z / 146097)%Z in
  let doe := (z - era * 146097)%Z in
  let yoe := ((doe - doe / 1460 + doe / 36524 - doe / 146096) / 365)%Z in
  let doy := (doe - (365 * yoe + yoe / 4 - yoe / 100))%Z in
  let mp := ((5 * doy + 2) / 153)%Z in
  let d := (doy - (153 * mp + 2) / 5 + 1)%Z in
  let m := (if mp <? 10 then mp + 3 else mp - 9)%Z in
  let y := (yoe + era * 400 + (if m <=? 2 then 1 else 0))%Z in
  (y, m, d).

(** The day number of a calendar date. *)
Definition daysFromCivil (y m d : Z) : Z :=
  let y' := (if m <=? 2 then y - 1 else y)%Z in
  let era := (y' / 400)%Z in
  let yoe := (y' - era * 400)%Z in
  let doy := ((153 * (if 2 <? m then m - 3 else m + 9) + 2) / 5 + d - 1)%Z in
  let doe := (yoe * 365 + yoe / 4 - yoe / 100 + doy)%Z in
  (era * 146097 + doe - 719468)%Z.

Definition padStart (width : nat) (n : Z) : jsstring :=
  let digits := natDigits n in
  repeat 48%N (width - length digits) ++ digits.

Definition toISOString (t : Z) : jsstring :=
  let '(y, m, d) := civilFromDays (t / msPerDay) in
  let ms := (t mod msPerDay)%Z in
  let year :=
    if (0 <=? y)%Z && (y <=? 9999)%Z then padStart 4 y
    else (if (y <? 0)%Z then [45%N] else [43%N]) ++ padStart 6 (Z.abs y) in
  year ++ js "-" ++ padStart 2 m ++ js "-" ++ padStart 2 d ++ js "T"
  ++ padStart 2 (ms / 3600000) ++ js ":" ++ padStart 2 (ms / 60000 mod 60)
  ++ js ":" ++ padStart 2 (ms / 1000 mod 60) ++ js "." ++ padStart 3 (ms mod 1000)
  ++ js "Z".

(** ** [encodeURIComponent(s)] (ECMA-262, 19.2.6): [None] is the URIError
    raised for a surrogate code unit without its partner. *)

Definition isUnreserved (c : N) : bool :=
  ((65 <=? c) && (c <=? 90) || (97 <=? c) && (c <=? 122)
   || (48 <=? c) && (c <=? 57)
   || existsb (N.eqb c) [45; 95; 46; 33; 126; 42; 39; 40; 41])%N.

Definition hexDigit (n : N) : N := (if n <? 10 then 48 + n else 55 + n)%N.

Definition percentByte (b : N) : jsstring :=
  [37%N; hexDigit (b / 16); hexDigit (b mod 16)].

(** The UTF-8 bytes of a code point, percent-encoded. *)
Definition percentEncode (cp : N) : jsstring :=
  (if cp <? 128 then percentByte cp
   else if cp <? 2048 then
     percentByte (192 + cp / 64) ++ percentByte (128 + cp mod 64)
   else if cp <? 65536 then
     percentByte (224 + cp / 4096) ++ percentByte (128 + cp / 64 mod 64)
     ++ percentByte (128 + cp mod 64)
   else
     percentByte (240 + cp / 262144) ++ percentByte (128 + cp / 4096 mod 64)
     ++ percentByte (128 + cp / 64 mod 64) ++ percentByte (128 + cp mod 64))%N.

Definition isHighSurrogate (c : N) : bool := ((55296 <=? c) && (c <=? 56319))%N.
Definition isLowSurrogate (c : N) : bool := ((56320 <=? c) && (c <=? 57343))%N.

Fixpoint encodeURIComponent (s : jsstring) : option jsstring :=
  match s with
  | [] => Some []
  | c :: rest =>
      if isUnreserved c then (c ::.) <$> encodeURIComponent rest
      else if isLowSurrogate c then None
      else if isHighSurrogate c then
        match rest with
        | d :: rest' =>
            if isLowSurrogate d then
              (percentEncode ((c - 55296) * 1024 + (d - 56320) + 65536)%N ++.)
                <$> encodeURIComponent rest'
            else None
        | [] => None
        end
      else (percentEncode c ++.) <$> encodeURIComponent rest
  end.

(** ** The runtime library

    [String.prototype.normalize], [toLowerCase], [Date.parse] and the local
    time zone adjustment are not code of the repository: they are the
    runtime's, driven by the Unicode tables, the date formats an engine
    accepts and the time zone database. The development takes them as an
    interface, together with the few facts about them it relies on, and
    every general statement holds for every runtime. *)

Class Runtime := {
  (** [s.normalize('NFD')] *)
  normalizeNFD : jsstring → jsstring;
  (** [s.toLowerCase()] *)
  toLowerCase : jsstring → jsstring;
  (** the time value of [new Date(s)]; [None] is the invalid date *)
  dateParse : jsstring → option Z;
  (** LocalTZA(t, isUTC) of ECMA-262: the offset of local time, in ms *)
  localTZA : Z → bool → Z;
  normalizeNFD_empty : normalizeNFD [] = [];
  toLowerCase_empty : toLowerCase [] = [];
  toLowerCase_nonempty : ∀ s, toLowerCase s = [] → s = [];
}.

(** ** Local time (ECMA-262, 21.4.1) *)

Definition LocalTime `{!Runtime} (t : Z) : Z := (t + localTZA t true)%Z.
Definition UTC `{!Runtime} (t : Z) : Z := (t - localTZA t false)%Z.

(** [d.setDate(d.getDate() - 1)] on the time value [t]: setDate rebuilds
    the date from MakeDay(year, month, date - 1) and the time within the
    day of the local time; MakeDay of the day before is Day(t) - 1, so the
    result is the same local wall-clock time one calendar day earlier. *)
Definition setDate_previousDay `{!Runtime} (t : Z) : Z :=
  UTC (LocalTime t - msPerDay)%Z.

(** [a > b] on two dates: a comparison of time values, false when one
    of them is invalid. *)
Definition dateGt (a : option Z) (b : Z) : bool :=
  match a with
  | Some ta => (b <? ta)%Z
  | None => false
  end.

End JS.

(* ===================================================================== *)
(** * src/types/fortification.ts *)
(* ===================================================================== *)

(** [PointGeometry | PolygonGeometry]; a point is [[longitude, latitude]]. *)
Inductive Geometry :=
| Point (coordinates : number * number)
| Polygon (coordinates : list (list (list number))).

Module ExternalLink.
Record t := { title : jsstring; url : jsstring }.
End ExternalLink.

(** [FortificationProperties]: an open bag of string-valued entries (the OSM
    tags, the Merimee columns, ['@id'], [display_type], [description],
    [period], [constructionStyle], [imageSource], [lastFetched], ...) and
    the two entries the interface declares with an array type. *)
Module FortificationProperties.
Record t := {
  fields : gmap jsstring jsstring;
  imageUrls : option (list jsstring);
  externalLinks : option (list ExternalLink.t);
}.
(** [properties.key] and [properties['key']] for a string-valued key *)
Definition get (p : t) (key : string) : option jsstring := fields p !! js key.
(** [properties.key = value] *)
Definition set (p : t) (key : string) (value : jsstring) : t :=
  {| fields := <[js key := value]> (fields p);
     imageUrls := imageUrls p;
     externalLinks := externalLinks p |}.
(** [properties.imageUrls = array]: the key holds the array from now on,
    whatever string a tag of that name had put there. *)
Definition set_imageUrls (p : t) (v : list jsstring) : t :=
  {| fields := delete (js "imageUrls") (fields p);
     imageUrls := Some v;
     externalLinks := externalLinks p |}.
(** [properties.externalLinks = array] *)
Definition set_externalLinks (p : t) (v : list ExternalLink.t) : t :=
  {| fields := delete (js "externalLinks") (fields p);
     imageUrls := imageUrls p;
     externalLinks := Some v |}.
(** the bag [{...tags}] *)
Definition ofTags (tags : gmap jsstring jsstring) : t :=
  {| fields := tags; imageUrls := None; externalLinks := None |}.
End FortificationProperties.

(** [FortificationType]. The type of the [properties] member is a parameter:
    the bag itself where a function only reads it, a heap reference where
    the code writes through it. *)
Module Fortification.
Record t (P : Type) := {
  type : jsstring;
  geometry : Geometry;
  properties : P;
  id : option jsstring;
}.
Arguments type {P}.
Arguments geometry {P}.
Arguments properties {P}.
Arguments id {P}.
End Fortification.

Abbreviation FortificationType := (Fortification.t FortificationProperties.t).

Module FilterOption.
Record t := { id : jsstring; label : jsstring; value : jsstring; count : nat }.
End FilterOption.

Module FilterGroup.
Record t := { id : jsstring; name : jsstring; options : list FilterOption.t }.
End FilterGroup.

(* ===================================================================== *)
(** * src/hooks/useGeoJSON.ts *)
(* ===================================================================== *)

Module GeoJSON.

Import FortificationProperties.

(** An element of the Overpass response. *)
Module OSMElement.
Record t := {
  type : jsstring;
  id : number;
  lat : option number;
  lon : option number;
  tags : option (gmap jsstring jsstring);
}.
End OSMElement.

(** [OSMResponse]; the members [version], [generator] and [osm3s] are never
    read. *)
Module OSMResponse.
Record t := { elements : list OSMElement.t }.
End OSMResponse.

(** ** [Map<string, number>], in insertion order *)

Fixpoint Map_get (m : list (jsstring * nat)) (key : jsstring) : option nat :=
  match m with
  | [] => None
  | (k, v) :: m' => if JS.eqb k key then Some v else Map_get m' key
  end.

(** [m.set(key, value)]: an existing key keeps its position. *)
Fixpoint Map_set (m : list (jsstring * nat)) (key : jsstring) (value : nat)
  : list (jsstring * nat) :=
  match m with
  | [] => [(key, value)]
  | (k, v) :: m' =>
      if JS.eqb k key then (k, value) :: m' else (k, v) :: Map_set m' key value
  end.

(** [m.set(key, (m.get(key) || 0) + 1)] *)
Definition Map_increment (m : list (jsstring * nat)) (key : jsstring)
  : list (jsstring * nat) :=
  Map_set m key (default 0 (Map_get m key) + 1).

(** ** [Array.prototype.sort(compare)]: the stable sort; [compare a b > 0]
    moves [a] behind [b]. *)

Fixpoint Array_sort_insert {A} (compare : A → A → Z) (a : A) (sorted : list A)
  : list A :=
  match sorted with
  | [] => [a]
  | b :: rest =>
      if (0 <? compare a b)%Z then b :: Array_sort_insert compare a rest
      else a :: b :: rest
  end.

Definition Array_sort {A} (compare : A → A → Z) (l : list A) : list A :=
  foldr (Array_sort_insert compare) [] l.

(** ** generateFilters *)

Record FilterMaps := {
  typeMap : list (jsstring * nat);
  periodMap : list (jsstring * nat);
  regionMap : list (jsstring * nat);
}.

(** The body of [forts.forEach(fort => ...)]. *)
Definition collect (maps : FilterMaps) (fort : FortificationType) : FilterMaps :=
  let p := Fortification.properties fort in
  let type := JS.orElse (JS.or (get p "chptico") (get p "historic")) (js "Unknown") in
  let typeMap' :=
    if JS.truthy (Some type) then Map_increment (typeMap maps) type
    else typeMap maps in
  let periodMap' :=
    match get p "period" with
    | Some (c :: s) => Map_increment (periodMap maps) (c :: s)
    | _ => periodMap maps
    end in
  let regionMap' :=
    match get p "chpreg" with
    | Some (c :: s) => Map_increment (regionMap maps) (c :: s)
    | _ => regionMap maps
    end in
  {| typeMap := typeMap'; periodMap := periodMap'; regionMap := regionMap' |}.

(** [Array.from(map.entries()).map(([value, count]) => ({...}))] *)
Definition toOptions (prefix : string) (m : list (jsstring * nat))
  : list FilterOption.t :=
  List.map (λ '(value, count),
    {| FilterOption.id := js prefix ++ value;
       FilterOption.label := value;
       FilterOption.value := value;
       FilterOption.count := count |}) m.

(** [(a, b) => b.count - a.count] *)
Definition byCountDescending (a b : FilterOption.t) : Z :=
  (Z.of_nat (FilterOption.count b) - Z.of_nat (FilterOption.count a))%Z.

Definition generateFilters (forts : list FortificationType) : list FilterGroup.t :=
  let maps :=
    fold_left collect forts {| typeMap := []; periodMap := []; regionMap := [] |} in
  let typeFilter :=
    {| FilterGroup.id := js "type"; FilterGroup.name := js "Type";
       FilterGroup.options :=
         Array_sort byCountDescending (toOptions "type-" (typeMap maps)) |} in
  let periodFilter :=
    {| FilterGroup.id := js "period"; FilterGroup.name := js "Period";
       FilterGroup.options :=
         Array_sort byCountDescending (toOptions "period-" (periodMap maps)) |} in
  let regionFilter :=
    {| FilterGroup.id := js "region"; FilterGroup.name := js "Region";
       FilterGroup.options :=
         Array_sort byCountDescending (toOptions "region-" (regionMap maps)) |} in
  [typeFilter]
  ++ (if (0 <? length (FilterGroup.options periodFilter))%nat then [periodFilter] else [])
  ++ (if (0 <? length (FilterGroup.options regionFilter))%nat then [regionFilter] else []).

(** ** convertOSMToGeoJSON *)

Definition fortificationTags : list jsstring :=
  List.map js ["castle"; "fort"; "bunker"; "fortification"; "fortress"; "citadel";
               "bastion"; "battery"; "palace"; "chateau"; "tower"; "mansion"]%string.

(** [Object.entries(typeMapping)], in the order the literal lists its keys;
    the display name of [chateau] is "Ch", U+00E2, "teau". *)
Definition typeMapping : list (jsstring * jsstring) :=
  [ (js "castle", js "Castle"); (js "fort", js "Fort");
    (js "fortress", js "Fortress"); (js "bunker", js "Bunker");
    (js "fortification", js "Fortification"); (js "citadel", js "Citadel");
    (js "bastion", js "Bastion"); (js "battery", js "Battery");
    (js "palace", js "Palace");
    (js "chateau", js "Ch" ++ [226%N] ++ js "teau");
    (js "tower", js "Tower"); (js "mansion", js "Mansion") ].

Section Convert.
Context `{!JS.Runtime}.

(** The callback of the first [.filter]: the tag criteria. *)
Definition isFortification (element : OSMElement.t) : bool :=
  match OSMElement.tags element with
  | None => false
  | Some tags =>
      let isHistoric :=
        match tags !! js "historic" with
        | Some (c :: s) =>
            existsb (λ tag,
              JS.includes (JS.toLowerCase (c :: s)) (JS.toLowerCase tag))
              fortificationTags
        | _ => false
        end in
      let isMilitary :=
        match tags !! js "military" with
        | Some (c :: s) =>
            existsb (JS.eqb (JS.toLowerCase (c :: s))) [js "bunker"; js "fortress"]
        | _ => false
        end in
      let hasDefenceTag :=
        JS.truthy (JS.or (tags !! js "defence") (tags !! js "defense")) in
      isHistoric || isMilitary || hasDefenceTag
  end.

(** The callback of [.map]: the feature built for an element. *)
Definition toFeature (element : OSMElement.t) : FortificationType :=
  let geometry :=
    if JS.eqb (OSMElement.type element) (js "node")
       && JS.truthyNum (OSMElement.lat element)
       && JS.truthyNum (OSMElement.lon element)
    then
      match OSMElement.lon element, OSMElement.lat element with
      | Some lon, Some lat => Point (lon, lat)
      | _, _ => Point (JS.zero, JS.zero)
      end
    else Point (JS.zero, JS.zero) in
  let tags := default ∅ (OSMElement.tags element) in
  let properties :=
    set (ofTags tags) "@id"
      (OSMElement.type element ++ js "/" ++ JS.numberToString (OSMElement.id element)) in
  let historic := tags !! js "historic" in
  let military := tags !! js "military" in
  (* the loop over the entries of typeMapping, left at the first match *)
  let properties :=
    match historic with
    | Some (c :: s) =>
        let historicLower := JS.toLowerCase (c :: s) in
        match find (λ '(key, _), JS.includes historicLower key) typeMapping with
        | Some (_, displayName) => set properties "display_type" displayName
        | None => properties
        end
    | _ => properties
    end in
  let properties :=
    match historic with
    | Some (c :: s) =>
        if negb (JS.truthy (get properties "display_type"))
        then set properties "display_type" (c :: s)
        else properties
    | _ => properties
    end in
  let properties :=
    match military with
    | Some (c :: s) =>
        if negb (JS.truthy (get properties "display_type")) then
          if JS.eqb (JS.toLowerCase (c :: s)) (js "bunker")
          then set properties "display_type" (js "Bunker")
          else if JS.eqb (JS.toLowerCase (c :: s)) (js "fortress")
          then set properties "display_type" (js "Fortress")
          else properties
        else properties
    | _ => properties
    end in
  {| Fortification.type := js "Feature";
     Fortification.id := Some (JS.numberToString (OSMElement.id element));
     Fortification.geometry := geometry;
     Fortification.properties := properties |}.

(** The callback of the last [.filter]: not the point [[0, 0]]. *)
Definition hasValidGeometry (feature : FortificationType) : bool :=
  negb match Fortification.geometry feature with
       | Point (x, y) => JS.isZero x && JS.isZero y
       | Polygon _ => false
       end.

Definition convertOSMToGeoJSON (osmData : OSMResponse.t) : list FortificationType :=
  List.filter hasValidGeometry
    (List.map toFeature
       (List.filter isFortification (OSMResponse.elements osmData))).

End Convert.

End GeoJSON.

(* ===================================================================== *)
(** * src/components/FortificationMap.tsx *)
(* ===================================================================== *)

Module MapView.

Import FortificationProperties.

(** [activeFilters.key] of a [Record<string, string | null>]: [undefined]
    and [null] both read as [None]. *)
Definition activeFilter (activeFilters : gmap jsstring (option jsstring))
  (key : string) : option jsstring :=
  match activeFilters !! js key with
  | Some (Some v) => Some v
  | _ => None
  end.

(** [text.replace(/[\u0300-\u036f]/g, '')] *)
Definition removeDiacritics (text : jsstring) : jsstring :=
  List.filter (λ c, negb ((768 <=? c) && (c <=? 879))%N) text.

Section Filter.
Context `{!JS.Runtime}.

Definition normalizeText (text : jsstring) : jsstring :=
  JS.trim (JS.toLowerCase (removeDiacritics (JS.normalizeNFD text))).

(** [fort.properties.name || fort.properties.chpdeno || ''] *)
Definition nameOf (fort : FortificationType) : jsstring :=
  let p := Fortification.properties fort in
  JS.orElse (JS.or (get p "name") (get p "chpdeno")) [].

(** [fort.properties.chpadrs || fort.properties.chplieu || ''] *)
Definition addressOf (fort : FortificationType) : jsstring :=
  let p := Fortification.properties fort in
  JS.orElse (JS.or (get p "chpadrs") (get p "chplieu")) [].

(** [name.trim() !== ''] *)
Definition isNamed (fort : FortificationType) : bool :=
  negb (JS.eqb (JS.trim (nameOf fort)) []).

(** The search block of the filter callback: false when it returns false. *)
Definition passesSearch (searchTerm : jsstring) (fort : FortificationType) : bool :=
  match searchTerm with
  | [] => true
  | _ :: _ =>
      let normalizedName := normalizeText (nameOf fort) in
      let normalizedAddress := normalizeText (addressOf fort) in
      let normalizedSearch := normalizeText searchTerm in
      negb (negb (JS.includes normalizedName normalizedSearch)
            && negb (JS.includes normalizedAddress normalizedSearch))
  end.

(** [fort.properties.chptico || fort.properties.historic] *)
Definition fortType (fort : FortificationType) : option jsstring :=
  let p := Fortification.properties fort in
  JS.or (get p "chptico") (get p "historic").

(** The type block. *)
Definition passesType (activeFilters : gmap jsstring (option jsstring))
  (fort : FortificationType) : bool :=
  match activeFilter activeFilters "type" with
  | Some (c :: s) => bool_decide (fortType fort = Some (c :: s))
  | _ => true
  end.

(** The period block. *)
Definition passesPeriod (activeFilters : gmap jsstring (option jsstring))
  (fort : FortificationType) : bool :=
  match activeFilter activeFilters "period" with
  | Some (c :: s) =>
      bool_decide (get (Fortification.properties fort) "period" = Some (c :: s))
  | _ => true
  end.

(** The region block. *)
Definition passesRegion (activeFilters : gmap jsstring (option jsstring))
  (fort : FortificationType) : bool :=
  match activeFilter activeFilters "region" with
  | Some (c :: s) =>
      bool_decide (get (Fortification.properties fort) "chpreg" = Some (c :: s))
  | _ => true
  end.

Definition filteredFortifications (fortifications : list FortificationType)
  (activeFilters : gmap jsstring (option jsstring)) (searchTerm : jsstring)
  : list FortificationType :=
  if negb (JS.truthy (Some searchTerm)) && (size activeFilters =? 0)%nat then
    List.filter isNamed fortifications
  else
    List.filter (λ fort,
      if negb (isNamed fort) then false
      else if negb (passesSearch searchTerm fort) then false
      else if negb (passesType activeFilters fort) then false
      else if negb (passesPeriod activeFilters fort) then false
      else if negb (passesRegion activeFilters fort) then false
      else true) fortifications.

End Filter.

End MapView.

(** The other copy of the component (the copy of FortificationMap.tsx
    without the name filter): the same search and facet blocks, no exclusion
    of unnamed features. *)
Module MapViewEarlier.

Section Filter.
Context `{!JS.Runtime}.

Definition filteredFortifications (fortifications : list FortificationType)
  (activeFilters : gmap jsstring (option jsstring)) (searchTerm : jsstring)
  : list FortificationType :=
  if negb (JS.truthy (Some searchTerm)) && (size activeFilters =? 0)%nat then
    fortifications
  else
    List.filter (λ fort,
      if negb (MapView.passesSearch searchTerm fort) then false
      else if negb (MapView.passesType activeFilters fort) then false
      else if negb (MapView.passesPeriod activeFilters fort) then false
      else if negb (MapView.passesRegion activeFilters fort) then false
      else true) fortifications.

End Filter.

End MapViewEarlier.

(* ===================================================================== *)
(** * A reference runtime

    An implementation of the runtime interface on which the scenarios are
    evaluated. It follows the Unicode tables on U+0000..U+00FF (Basic Latin
    and Latin-1 Supplement) and leaves every other code unit as it is; it
    parses the date-time format that [toISOString] writes and nothing else. *)
(* ===================================================================== *)

Module Reference.

(** Simple lowercase mapping: A-Z, and U+00C0..U+00DE without U+00D7. *)
Definition lowerUnit (c : N) : N :=
  (if (65 <=? c) && (c <=? 90)
      || (192 <=? c) && (c <=? 222) && negb (c =? 215)
   then c + 32 else c)%N.

Definition toLowerCase (s : jsstring) : jsstring := List.map lowerUnit s.

(** Canonical decompositions of the Latin-1 letters: (letter, base, mark). *)
Definition decompositions : list (N * (N * N)) :=
  [ (192, (65, 768)); (193, (65, 769)); (194, (65, 770)); (195, (65, 771));
    (196, (65, 776)); (197, (65, 778)); (199, (67, 807)); (200, (69, 768));
    (201, (69, 769)); (202, (69, 770)); (203, (69, 776)); (204, (73, 768));
    (205, (73, 769)); (206, (73, 770)); (207, (73, 776)); (209, (78, 771));
    (210, (79, 768)); (211, (79, 769)); (212, (79, 770)); (213, (79, 771));
    (214, (79, 776)); (217, (85, 768)); (218, (85, 769)); (219, (85, 770));
    (220, (85, 776)); (221, (89, 769)); (224, (97, 768)); (225, (97, 769));
    (226, (97, 770)); (227, (97, 771)); (228, (97, 776)); (229, (97, 778));
    (231, (99, 807)); (232, (101, 768)); (233, (101, 769)); (234, (101, 770));
    (235, (101, 776)); (236, (105, 768)); (237, (105, 769)); (238, (105, 770));
    (239, (105, 776)); (241, (110, 771)); (242, (111, 768)); (243, (111, 769));
    (244, (111, 770)); (245, (111, 771)); (246, (111, 776)); (249, (117, 768));
    (250, (117, 769)); (251, (117, 770)); (252, (117, 776)); (253, (121, 769));
    (255, (121, 776)) ]%N.

Definition decomposeUnit (c : N) : jsstring :=
  match find (λ entry, (fst entry =? c)%N) decompositions with
  | Some (_, (base, mark)) => [base; mark]
  | None => [c]
  end.

Definition normalizeNFD (s : jsstring) : jsstring :=
  List.concat (List.map decomposeUnit s).

(** The number written with the decimal digits [s]. *)
Definition digitsValue (s : jsstring) : Z :=
  fold_left (λ acc c, acc * 10 + (Z.of_N c - 48))%Z s 0%Z.

(** [YYYY-MM-DDTHH:mm:ss.sssZ]: the fields are read at their positions and
    the result is kept when it prints back to the very same text. *)
Definition dateParse (s : jsstring) : option Z :=
  let field from len := digitsValue (take len (drop from s)) in
  let day := JS.daysFromCivil (field 0 4)%nat (field 5 2)%nat (field 8 2)%nat in
  let t := (day * JS.msPerDay + field 11%nat 2%nat * 3600000
            + field 14%nat 2%nat * 60000 + field 17%nat 2%nat * 1000
            + field 20%nat 3%nat)%Z in
  if JS.eqb (JS.toISOString t) s then Some t else None.

(** A runtime in the UTC time zone. *)
#[global] Instance utc : JS.Runtime := {|
  JS.normalizeNFD := normalizeNFD;
  JS.toLowerCase := toLowerCase;
  JS.dateParse := dateParse;
  JS.localTZA := λ _ _, 0%Z;
  JS.normalizeNFD_empty := eq_refl;
  JS.toLowerCase_empty := eq_refl;
  JS.toLowerCase_nonempty :=
    ltac:(intros [|c s] E; [reflexivity | discriminate E]);
|}.

(** Europe/Paris around the change to summer time of 29 March 2026, at
    01:00 UTC: one hour ahead of UTC before it, two hours after. A local
    time is read with the offset in force before the change up to 03:00. *)
Definition parisChange2026 : Z := 1774746000000.

Definition parisTZA (t : Z) (isUTC : bool) : Z :=
  if isUTC then (if t <? parisChange2026 then 3600000 else 7200000)%Z
  else (if t <? parisChange2026 + 7200000 then 3600000 else 7200000)%Z.

Definition paris : JS.Runtime := {|
  JS.normalizeNFD := normalizeNFD;
  JS.toLowerCase := toLowerCase;
  JS.dateParse := dateParse;
  JS.localTZA := parisTZA;
  JS.normalizeNFD_empty := eq_refl;
  JS.toLowerCase_empty := eq_refl;
  JS.toLowerCase_nonempty :=
    ltac:(intros [|c s] E; [reflexivity | discriminate E]);
|}.

End Reference.

(* ===================================================================== *)
(** * src/hooks/useExternalData.ts *)
(* ===================================================================== *)

Module ExternalData.

Import FortificationProperties.

(** ** The responses (WikidataApiResponse and WikipediaApiResponse of
    src/types/fortification.ts, with the members the code reads) *)

(** [claim.mainsnak?.datavalue?.value]: a string or an object. *)
Inductive ClaimValue :=
| ValueString (s : jsstring)
| ValueObject.

(** [String(value)] *)
Definition ClaimValue_toString (v : ClaimValue) : jsstring :=
  match v with
  | ValueString s => s
  | ValueObject => js "[object Object]"
  end.

Module Entity.
(** [claims]: for a property id, its claims, each reduced to the value that
    [claim?.mainsnak?.datavalue?.value] reads. *)
Record t := { claims : option (gmap jsstring (list (option ClaimValue))) }.
End Entity.

Module WikidataApiResponse.
Record t := { entities : option (gmap jsstring Entity.t) }.
End WikidataApiResponse.

Module Page.
Record t := {
  extract : option jsstring;
  (** [thumbnail?.source] *)
  thumbnail : option jsstring;
  (** the [title] of each entry of [images] *)
  images : option (list jsstring);
  (** the [url] of each entry of [imageinfo] *)
  imageinfo : option (list (option jsstring));
}.
End Page.

Module Query.
Record t := {
  (** the entries of [pages], in the order of [Object.keys] *)
  pages : option (list (jsstring * Page.t));
  (** the [title] of each entry of [search] *)
  search : option (list jsstring);
}.
End Query.

Module ApiResponse.
Record t := { query : option Query.t }.
End ApiResponse.

(** ** The network and the clock *)

Module Response.
Record t (A : Type) := {
  ok : bool;
  statusText : jsstring;
  (** what [response.json()] resolves to; [None] when it rejects *)
  body : option A;
}.
Arguments ok {A}.
Arguments statusText {A}.
Arguments body {A}.
End Response.

(** What the promise that [fetch(url)] returns settles to. The code sets no
    timeout, so a request may also never settle, and the [await] on it never
    returns; such a run has no final state and is not a run of this model:
    every statement below is about the runs in which each request has
    settled, by a response or by a rejection. *)
Inductive Fetched (A : Type) :=
| Rejected
| Resolved (response : Response.t A).
Arguments Rejected {A}.
Arguments Resolved {A}.

(** What the outside world answers: the time value of the i-th [new Date()],
    and the outcome of the i-th request, which depends on its URL. *)
Record World := {
  clock : nat → Z;
  wikidata : nat → jsstring → Fetched WikidataApiResponse.t;
  mediawiki : nat → jsstring → Fetched ApiResponse.t;
}.

(** The property bags live in a heap: a feature holds a reference to its
    bag, and [{ ...fort }] copies the reference. *)
Abbreviation ref := positive.

Record State := {
  heap : gmap ref FortificationProperties.t;
  (** the URLs requested so far, oldest first *)
  requests : list jsstring;
  (** how many times the clock was read *)
  dates : nat;
}.

(** The state once the clock was read one more time. *)
Definition afterClock (s : State) : State :=
  {| heap := heap s; requests := requests s; dates := S (dates s) |}.

Inductive Error :=
| FetchError
| ApiError (message : jsstring)
| SyntaxError
| URIError
| TypeError.

Inductive Completion (A : Type) :=
| Normal (value : A)
| Throw (error : Error).
Arguments Normal {A}.
Arguments Throw {A}.

(** An asynchronous computation: it runs on a state and completes. *)
Definition Async (A : Type) : Type := State → Completion A * State.

Definition ret {A} (a : A) : Async A := λ s, (Normal a, s).

Definition bind {A B} (m : Async A) (k : A → Async B) : Async B :=
  λ s, match m s with
       | (Normal a, s') => k a s'
       | (Throw e, s') => (Throw e, s')
       end.

Notation "'let*' x ':=' m 'in' k" := (bind m (λ x, k))
  (at level 10, x pattern, m at level 200, k at level 200).

Definition throw {A} (e : Error) : Async A := λ s, (Throw e, s).

(** [try { body } catch (err) { handler }] *)
Definition tryCatch {A} (body : Async A) (handler : Error → Async A) : Async A :=
  λ s, match body s with
       | (Normal a, s') => (Normal a, s')
       | (Throw e, s') => handler e s'
       end.

(** [array.map(async item => ...)]: every callback runs and settles on its
    own; the requests leave in the order of the items. *)
Fixpoint mapAsync {A B} (f : A → Async B) (l : list A) (s : State)
  : list (Completion B) * State :=
  match l with
  | [] => ([], s)
  | a :: l' =>
      let '(c, s1) := f a s in
      let '(cs, s2) := mapAsync f l' s1 in
      (c :: cs, s2)
  end.

(** [await Promise.all(promises)]: the values, unless a promise rejected. *)
Fixpoint awaitAll {B} (cs : list (Completion B)) : Completion (list B) :=
  match cs with
  | [] => Normal []
  | Normal b :: cs' =>
      match awaitAll cs' with
      | Normal bs => Normal (b :: bs)
      | Throw e => Throw e
      end
  | Throw e :: _ => Throw e
  end.

Definition Promise_all {A B} (f : A → Async B) (l : list A) : Async (list B) :=
  λ s, let '(cs, s') := mapAsync f l s in (awaitAll cs, s').

Definition emptyBag : FortificationProperties.t := ofTags ∅.

(** Reading and writing the bag behind a reference. *)
Definition deref (s : State) (r : ref) : FortificationProperties.t :=
  default emptyBag (heap s !! r).

Definition read (r : ref) : Async FortificationProperties.t :=
  λ s, (Normal (deref s r), s).

Definition write (r : ref) (f : FortificationProperties.t → FortificationProperties.t)
  : Async unit :=
  λ s, (Normal tt, {| heap := <[r := f (deref s r)]> (heap s);
                      requests := requests s;
                      dates := dates s |}).

(** A statement on the bag that may raise TypeError ([None]) before it
    writes. *)
Definition modify (r : ref)
  (f : FortificationProperties.t → option FortificationProperties.t) : Async unit :=
  λ s, match f (deref s r) with
       | Some p => (Normal tt, {| heap := <[r := p]> (heap s);
                                  requests := requests s;
                                  dates := dates s |})
       | None => (Throw TypeError, s)
       end.

Definition encodeURIComponent (text : jsstring) : Async jsstring :=
  match JS.encodeURIComponent text with
  | Some encoded => ret encoded
  | None => throw URIError
  end.

(** [array.join(sep)] *)
Fixpoint join (sep : jsstring) (l : list jsstring) : jsstring :=
  match l with
  | [] => []
  | [a] => a
  | a :: l' => a ++ sep ++ join sep l'
  end.

Section Enrichment.
Context `{!JS.Runtime} (world : World).

(** [new Date()] *)
Definition newDate : Async Z :=
  λ s, (Normal (clock world (dates s)),
        {| heap := heap s; requests := requests s; dates := S (dates s) |}).

(** [await fetch(url)] *)
Definition fetch {A} (net : World → nat → jsstring → Fetched A) (url : jsstring)
  : Async (Response.t A) :=
  λ s, let s' := {| heap := heap s; requests := requests s ++ [url];
                    dates := dates s |} in
       match net world (length (requests s)) url with
       | Rejected => (Throw FetchError, s')
       | Resolved response => (Normal response, s')
       end.

(** [await response.json()] *)
Definition json {A} (response : Response.t A) : Async A :=
  match Response.body response with
  | Some data => ret data
  | None => throw SyntaxError
  end.

(** ** fetchWikipediaData *)
Definition fetchWikipediaData (title : jsstring) : Async ApiResponse.t :=
  tryCatch
    (let* encoded := encodeURIComponent title in
     let url := js "https://en.wikipedia.org/api/rest_v1/page/summary/" ++ encoded in
     let* response := fetch mediawiki url in
     if negb (Response.ok response) then
       throw (ApiError (js "Wikipedia API error: " ++ Response.statusText response))
     else json response)
    (λ _, ret {| ApiResponse.query := None |}).

(** ** fetchWikidataData *)
Definition fetchWikidataData (wikidataId : jsstring) : Async WikidataApiResponse.t :=
  tryCatch
    (let url := js "https://www.wikidata.org/wiki/Special:EntityData/"
                ++ wikidataId ++ js ".json" in
     let* response := fetch wikidata url in
     if negb (Response.ok response) then
       throw (ApiError (js "Wikidata API error: " ++ Response.statusText response))
     else json response)
    (λ _, ret {| WikidataApiResponse.entities := None |}).

(** The first page of a response and its key: [Object.keys(pages)[0]] and
    [pages[pageId]], with [data.query?.pages || {}] for [pages]; nothing when
    there is no page or the key is the empty string ([!pageId]). *)
Definition firstPage (data : ApiResponse.t) : option Page.t :=
  match ApiResponse.query data with
  | Some {| Query.pages := Some ((_ :: _, page) :: _) |} => Some page
  | _ => None
  end.

(** [pages[pageId]?.imageinfo?.[0]?.url] *)
Definition firstImageUrl (data : ApiResponse.t) : option jsstring :=
  match firstPage data with
  | Some {| Page.imageinfo := Some (url :: _) |} => url
  | _ => None
  end.

(** [pages[pageId]?.images] *)
Definition imagesOf (data : ApiResponse.t) : option (list jsstring) :=
  match firstPage data with
  | Some page => Page.images page
  | None => None
  end.

(** The callback that resolves one image title to its URL, or [null]. *)
Definition imageUrlOf (title : jsstring) : Async (option jsstring) :=
  let* encoded := encodeURIComponent title in
  let imgUrl := js "https://en.wikipedia.org/w/api.php?action=query&titles="
                ++ encoded ++ js "&prop=imageinfo&iiprop=url&format=json&origin=*" in
  let* imgResponse := fetch mediawiki imgUrl in
  let* imgData := json imgResponse in
  match firstImageUrl imgData with
  | Some (c :: u) => ret (Some (c :: u))
  | _ => ret None
  end.

(** The filter on the image names. *)
Definition isPhotograph (title : jsstring) : bool :=
  negb (JS.includes title (js "Icon"))
  && negb (JS.includes title (js "Logo"))
  && negb (JS.includes title (js "Pictogram"))
  && (JS.includes title (js ".jpg") || JS.includes title (js ".png")
      || JS.includes title (js ".jpeg")).

(** ** fetchWikipediaImages *)
Definition fetchWikipediaImages (title : jsstring) : Async (list jsstring) :=
  tryCatch
    (let* encoded := encodeURIComponent title in
     let url := js "https://en.wikipedia.org/w/api.php?action=query&titles="
                ++ encoded ++ js "&prop=images&format=json&origin=*" in
     let* response := fetch mediawiki url in
     if negb (Response.ok response) then
       throw (ApiError (js "Wikipedia images API error: "
                        ++ Response.statusText response))
     else
       let* data := json response in
       match imagesOf data with
       | None => ret []
       | Some images =>
           let imageNames := List.filter isPhotograph images in
           if (length imageNames =? 0)%nat then ret []
           else
             let* imageUrls := Promise_all imageUrlOf (take 5 imageNames) in
             ret (omap id imageUrls)
       end)
    (λ _, ret []).

(** [wikidataResponse.entities && wikidataResponse.entities[wikidataId]] *)
Definition entityOf (wikidataResponse : WikidataApiResponse.t) (wikidataId : jsstring)
  : option Entity.t :=
  match WikidataApiResponse.entities wikidataResponse with
  | Some entities => entities !! wikidataId
  | None => None
  end.

(** [entity.claims?.P][0]?.mainsnak?.datavalue?.value] for a property [P]
    that has claims *)
Definition firstClaim (entity : Entity.t) (property : string) : option ClaimValue :=
  match Entity.claims entity with
  | Some claims =>
      match claims !! js property with
      | Some (value :: _) => value
      | _ => None
      end
  | None => None
  end.

(** The Wikidata block of enrichFortification. *)
Definition processWikidata (properties : ref) : Async unit :=
  let* p := read properties in
  match get p "wikidata" with
  | Some (c :: i) =>
      let wikidataId := c :: i in
      let* wikidataResponse := fetchWikidataData wikidataId in
      match entityOf wikidataResponse wikidataId with
      | Some entity =>
          let* _ :=
            match firstClaim entity "P2348" with
            | Some (ValueString (c :: v)) =>
                write properties (λ p,
                  set p "period" (ClaimValue_toString (ValueString (c :: v))))
            | Some ValueObject =>
                write properties (λ p, set p "period" (ClaimValue_toString ValueObject))
            | _ => ret tt
            end in
          match firstClaim entity "P149" with
          | Some (ValueString (c :: v)) =>
              write properties (λ p,
                set p "constructionStyle" (ClaimValue_toString (ValueString (c :: v))))
          | Some ValueObject =>
              write properties (λ p,
                set p "constructionStyle" (ClaimValue_toString ValueObject))
          | _ => ret tt
          end
      | None => ret tt
      end
  | _ => ret tt
  end.

(** [fortCopy.properties.imageUrls = fortCopy.properties.imageUrls || [];
     fortCopy.properties.imageUrls.push(...urls)]: an array is appended to;
    a non-empty string under that key (a tag of the element) is kept by the
    first statement and has no [push], which raises TypeError ([None]);
    nothing, or the empty string, is replaced by a new array. *)
Definition pushImageUrls (urls : list jsstring) (p : FortificationProperties.t)
  : option FortificationProperties.t :=
  match imageUrls p with
  | Some present => Some (set_imageUrls p (present ++ urls))
  | None =>
      if JS.truthy (get p "imageUrls") then None
      else Some (set_imageUrls p urls)
  end.

(** [fortCopy.properties.externalLinks = fortCopy.properties.externalLinks || [];
     fortCopy.properties.externalLinks.push(link)], in the same way. *)
Definition pushExternalLink (link : ExternalLink.t) (p : FortificationProperties.t)
  : option FortificationProperties.t :=
  match externalLinks p with
  | Some present => Some (set_externalLinks p (present ++ [link]))
  | None =>
      if JS.truthy (get p "externalLinks") then None
      else Some (set_externalLinks p [link])
  end.

(** The link block that closes the Wikipedia block; [encodeURIComponent]
    is called outside of any inner [try]. *)
Definition addWikipediaLink (properties : ref) (wikipedia wikipediaTitle : jsstring)
  : Async unit :=
  let lang := JS.beforeFirst 58 wikipedia in
  let* encoded := encodeURIComponent wikipediaTitle in
  let wikipediaUrl := js "https://" ++ lang ++ js ".wikipedia.org/wiki/" ++ encoded in
  modify properties
    (pushExternalLink {| ExternalLink.title := js "Wikipedia";
                         ExternalLink.url := wikipediaUrl |}).

(** The page that the summary block reads: [pages[Object.keys(pages)[0]]]
    when [wikipediaResponse.query?.pages] is there and has an entry. *)
Definition summaryPage (wikipediaResponse : ApiResponse.t) : option Page.t :=
  match ApiResponse.query wikipediaResponse with
  | Some {| Query.pages := Some ((_, page) :: _) |} => Some page
  | _ => None
  end.

(** The Wikipedia block of enrichFortification. *)
Definition processWikipedia (properties : ref) : Async unit :=
  let* p := read properties in
  match get p "wikipedia" with
  | Some (c :: w) =>
      let wikipedia := c :: w in
      let wikipediaTitle := JS.afterFirst 58 wikipedia in
      let* wikipediaResponse := fetchWikipediaData wikipediaTitle in
      let* _ :=
        match summaryPage wikipediaResponse with
        | Some page =>
            let* _ :=
              match Page.extract page with
              | Some (c :: e) => write properties (λ p, set p "description" (c :: e))
              | _ => ret tt
              end in
            match Page.thumbnail page with
            | Some (c :: source) => modify properties (pushImageUrls [c :: source])
            | _ => ret tt
            end
        | None => ret tt
        end in
      let* images := fetchWikipediaImages wikipediaTitle in
      let* _ :=
        if (0 <? length images)%nat then modify properties (pushImageUrls images)
        else ret tt in
      addWikipediaLink properties wikipedia wikipediaTitle
  | _ => ret tt
  end.

(** The freshness test: [lastFetched > oneDayAgo], with the clock read for
    [oneDayAgo]; false without a [lastFetched]. *)
Definition fetchedRecently (properties : ref) : Async bool :=
  let* p := read properties in
  match get p "lastFetched" with
  | Some (c :: l) =>
      let lastFetched := JS.dateParse (c :: l) in
      let* now := newDate in
      let oneDayAgo := JS.setDate_previousDay now in
      ret (JS.dateGt lastFetched oneDayAgo)
  | _ => ret false
  end.

(** [fortCopy.properties.lastFetched = new Date().toISOString()] *)
Definition stampLastFetched (properties : ref) : Async unit :=
  let* now := newDate in
  write properties (λ p, set p "lastFetched" (JS.toISOString now)).

(** [{ ...fort }] *)
Definition spread (fort : Fortification.t ref) : Fortification.t ref :=
  {| Fortification.type := Fortification.type fort;
     Fortification.geometry := Fortification.geometry fort;
     Fortification.properties := Fortification.properties fort;
     Fortification.id := Fortification.id fort |}.

(** The [try] block of enrichFortification. *)
Definition enrichFortification_try (fort : Fortification.t ref)
  : Async (Fortification.t ref) :=
  let properties := Fortification.properties fort in
  let fortCopy := spread fort in
  let* recent := fetchedRecently properties in
  if recent then ret fortCopy
  else
    let* _ := processWikidata properties in
    let* _ := processWikipedia properties in
    let* _ := stampLastFetched properties in
    ret fortCopy.

(** ** enrichFortification: once every request has settled, the promise it
    returns resolves, with the copy, or with [fort] from the [catch] block. (The calls of [setLoading]
    and [setError] act on the state of the hook only.) *)
Definition enrichFortification (fort : Fortification.t ref) (s : State)
  : Fortification.t ref * State :=
  match enrichFortification_try fort s with
  | (Normal enriched, s') => (enriched, s')
  | (Throw _, s') => (fort, s')
  end.

End Enrichment.

End ExternalData.

(* ===================================================================== *)
(** * useExternalData.ts, the revision with the image search

    fetchWikipediaData, fetchWikidataData, fetchWikipediaImages and the
    Wikidata block are the ones of [ExternalData]; this revision adds
    fetchGoogleImages, runs it first, and marks the source of the images. *)
(* ===================================================================== *)

Module ExternalDataWithImages.

Import FortificationProperties.
Import ExternalData.

(** The preset list returned when the search finds nothing. *)
Definition fallbackImages : list jsstring :=
  [ js "https://upload.wikimedia.org/wikipedia/commons/thumb/2/2c/Chateau_de_Bonaguil_vu_du_ciel.jpg/800px-Chateau_de_Bonaguil_vu_du_ciel.jpg";
    js "https://upload.wikimedia.org/wikipedia/commons/thumb/e/e6/Maginot_Line_Fort_Hackenberg.jpg/800px-Maginot_Line_Fort_Hackenberg.jpg";
    js "https://upload.wikimedia.org/wikipedia/commons/thumb/3/3b/Fort_Boyard_Charente_Maritime.jpg/800px-Fort_Boyard_Charente_Maritime.jpg";
    js "https://upload.wikimedia.org/wikipedia/commons/thumb/9/9e/Tour_Vauban_de_Camaret.jpg/800px-Tour_Vauban_de_Camaret.jpg";
    js "https://upload.wikimedia.org/wikipedia/commons/thumb/b/b1/Fortifications_Vauban_Brian"
    ++ [231%N] ++ js "on.jpg/800px-Fortifications_Vauban_Brian" ++ [231%N] ++ js "on.jpg" ].

(** [pageId && pageId !== '-1' && pages[pageId]?.imageinfo?.[0]?.url] *)
Definition commonsImageUrl (imageData : ApiResponse.t) : option jsstring :=
  match ApiResponse.query imageData with
  | Some {| Query.pages := Some ((c :: pageId, page) :: _) |} =>
      if JS.eqb (c :: pageId) (js "-1") then None
      else match Page.imageinfo page with
           | Some (Some (d :: url) :: _) => Some (d :: url)
           | _ => None
           end
  | _ => None
  end.

Section Enrichment.
Context `{!JS.Runtime} (world : World).

(** The callback over the search results. *)
Definition commonsImageOf (title : jsstring) : Async (option jsstring) :=
  let filename := JS.replaceFirst title (js "File:") [] in
  let* encoded := encodeURIComponent filename in
  let imageInfoUrl :=
    js "https://commons.wikimedia.org/w/api.php?action=query&titles=File:"
    ++ encoded ++ js "&prop=imageinfo&iiprop=url&format=json&origin=*" in
  tryCatch
    (let* imageInfoResp := fetch world mediawiki imageInfoUrl in
     let* imageData := json imageInfoResp in
     ret (commonsImageUrl imageData))
    (λ _, ret None).

Definition searchWikimediaCommons (searchTerm : jsstring) : Async (list jsstring) :=
  tryCatch
    (let* encoded := encodeURIComponent (searchTerm ++ js " fortification") in
     let url :=
       js "https://commons.wikimedia.org/w/api.php?action=query&list=search&srsearch="
       ++ encoded ++ js "&srnamespace=6&srlimit=5&format=json&origin=*" in
     let* response := fetch world mediawiki url in
     if negb (Response.ok response) then ret []
     else
       let* data := json response in
       match ApiResponse.query data with
       | Some {| Query.search := Some search |} =>
           let* imageUrls := Promise_all commonsImageOf (take 5 search) in
           ret (omap id imageUrls)
       | _ => ret []
       end)
    (λ _, ret []).

(** ** fetchGoogleImages *)
Definition fetchGoogleImages (searchTerm : jsstring) : Async (list jsstring) :=
  tryCatch
    (let* wikimediaImages := searchWikimediaCommons searchTerm in
     if (0 <? length wikimediaImages)%nat then ret wikimediaImages
     else ret fallbackImages)
    (λ _, ret []).

(** [`${fort.geometry.coordinates?.[i]}`]: a number of a point, a ring of a
    polygon (an array prints its members joined by commas), or nothing. *)
Definition coordinateText (geometry : Geometry) (i : nat) : jsstring :=
  match geometry with
  | Point (lon, lat) =>
      match i with
      | 0%nat => JS.numberToString lon
      | 1%nat => JS.numberToString lat
      | _ => js "undefined"
      end
  | Polygon rings =>
      match rings !! i with
      | Some ring =>
          join (js ",")
            (List.map (λ position,
               join (js ",") (List.map JS.numberToString position)) ring)
      | None => js "undefined"
      end
  end.

(** The search key: name, then the title of the Wikipedia reference, then
    the denomination fields, then the coordinates. *)
Definition searchTermOf (fort : Fortification.t ref) (p : FortificationProperties.t)
  : jsstring :=
  JS.orElse
    (JS.or (JS.or (JS.or (get p "name") (JS.afterFirst 58 <$> get p "wikipedia"))
              (get p "denomination"))
       (get p "chpnom"))
    (js "Fortification at " ++ coordinateText (Fortification.geometry fort) 1
     ++ js ", " ++ coordinateText (Fortification.geometry fort) 0).

(** The image block, in its own [try]. *)
Definition processImages (fort : Fortification.t ref) : Async unit :=
  let properties := Fortification.properties fort in
  let* p := read properties in
  let searchTerm := searchTermOf fort p in
  tryCatch
    (let* googleImages := fetchGoogleImages searchTerm in
     if (0 <? length googleImages)%nat then
       write properties (λ p, set (set_imageUrls p googleImages) "imageSource" (js "google"))
     else ret tt)
    (λ _, ret tt).

(** The Wikipedia block of this revision. *)
Definition processWikipedia (properties : ref) : Async unit :=
  let* p := read properties in
  match get p "wikipedia" with
  | Some (c :: w) =>
      let wikipedia := c :: w in
      let wikipediaTitle := JS.afterFirst 58 wikipedia in
      let* wikipediaResponse := fetchWikipediaData world wikipediaTitle in
      let* _ :=
        match summaryPage wikipediaResponse with
        | Some page =>
            let* _ :=
              match Page.extract page with
              | Some (c :: e) => write properties (λ p, set p "description" (c :: e))
              | _ => ret tt
              end in
            match Page.thumbnail page with
            | Some (c :: source) =>
                modify properties (λ p,
                  (λ pushed, set pushed "imageSource" (js "wikipedia"))
                    <$> pushImageUrls [c :: source] p)
            | _ => ret tt
            end
        | None => ret tt
        end in
      let* images := fetchWikipediaImages world wikipediaTitle in
      let* _ :=
        if (0 <? length images)%nat then
          write properties (λ p,
            set (set_imageUrls p images) "imageSource" (js "wikipedia"))
        else ret tt in
      addWikipediaLink properties wikipedia wikipediaTitle
  | _ => ret tt
  end.

(** The [try] block of enrichFortification. *)
Definition enrichFortification_try (fort : Fortification.t ref)
  : Async (Fortification.t ref) :=
  let properties := Fortification.properties fort in
  let fortCopy := spread fort in
  let* recent := fetchedRecently world properties in
  if recent then ret fortCopy
  else
    let* _ := processImages fort in
    let* _ := processWikidata world properties in
    let* _ := processWikipedia properties in
    let* _ := stampLastFetched world properties in
    ret fortCopy.

(** ** enrichFortification *)
Definition enrichFortification (fort : Fortification.t ref) (s : State)
  : Fortification.t ref * State :=
  match enrichFortification_try fort s with
  | (Normal enriched, s') => (enriched, s')
  | (Throw _, s') => (fort, s')
  end.

End Enrichment.

End ExternalDataWithImages.

(* ===================================================================== *)
(** * src/hooks/useGeoJSON.ts: the state of the hook, the loader and the
    enrichment of one feature *)
(* ===================================================================== *)

Module UseGeoJSON.

Import FortificationProperties.

(** The state that the hook keeps ([useState]); the type of the property
    bags is a parameter, as for [Fortification.t]. The error is kept by its
    message. *)
Module Hook.
Record t (P : Type) := {
  fortifications : list (Fortification.t P);
  loading : bool;
  error : option jsstring;
  filters : list FilterGroup.t;
  isDataEnriched : bool;
}.
Arguments fortifications {P}.
Arguments loading {P}.
Arguments error {P}.
Arguments filters {P}.
Arguments isDataEnriched {P}.
End Hook.

(** A feature as the feed gives it: the loader stores it unchecked, so
    its [properties] may be [null] ([None]). *)
Abbreviation FeedFeature := (Fortification.t (option FortificationProperties.t)).

(** The parsed feed, with the members that the loader reads. *)
Module Feed.
Record t := {
  type : option jsstring;
  features : option (list FeedFeature);
  elements : option (list GeoJSON.OSMElement.t);
}.
End Feed.

(** What [response.json()] settles to. *)
Inductive Body :=
| Unparsable (message : jsstring)
| Parsed (data : Feed.t).

(** What [fetch(jsonPath)] settles to. *)
Inductive FeedResponse :=
| Unreachable (message : jsstring)
| Answered (ok : bool) (status : number) (statusText : jsstring) (body : Body).

(** A feature of the normalizer as a stored feature. *)
Definition stored (fort : FortificationType) : FeedFeature :=
  {| Fortification.type := Fortification.type fort;
     Fortification.geometry := Fortification.geometry fort;
     Fortification.properties := Some (Fortification.properties fort);
     Fortification.id := Fortification.id fort |}.

(** The stored features as [generateFilters] reads them: [None] when one of
    them has no [properties], on which [fort.properties.chptico] raises
    TypeError. *)
Fixpoint readable (forts : list FeedFeature) : option (list FortificationType) :=
  match forts with
  | [] => Some []
  | fort :: rest =>
      match Fortification.properties fort, readable rest with
      | Some properties, Some typed =>
          Some ({| Fortification.type := Fortification.type fort;
                   Fortification.geometry := Fortification.geometry fort;
                   Fortification.properties := properties;
                   Fortification.id := Fortification.id fort |} :: typed)
      | _, _ => None
      end
  end.

(** The setters of the hook. *)
Definition setFortifications {P} (forts : list (Fortification.t P)) (hook : Hook.t P)
  : Hook.t P :=
  {| Hook.fortifications := forts;
     Hook.loading := Hook.loading hook;
     Hook.error := Hook.error hook;
     Hook.filters := Hook.filters hook;
     Hook.isDataEnriched := Hook.isDataEnriched hook |}.

Definition setLoading {P} (loading : bool) (hook : Hook.t P) : Hook.t P :=
  {| Hook.fortifications := Hook.fortifications hook;
     Hook.loading := loading;
     Hook.error := Hook.error hook;
     Hook.filters := Hook.filters hook;
     Hook.isDataEnriched := Hook.isDataEnriched hook |}.

Definition setError {P} (error : option jsstring) (hook : Hook.t P) : Hook.t P :=
  {| Hook.fortifications := Hook.fortifications hook;
     Hook.loading := Hook.loading hook;
     Hook.error := error;
     Hook.filters := Hook.filters hook;
     Hook.isDataEnriched := Hook.isDataEnriched hook |}.

Definition setFilters {P} (filters : list FilterGroup.t) (hook : Hook.t P) : Hook.t P :=
  {| Hook.fortifications := Hook.fortifications hook;
     Hook.loading := Hook.loading hook;
     Hook.error := Hook.error hook;
     Hook.filters := filters;
     Hook.isDataEnriched := Hook.isDataEnriched hook |}.

Section Loader.
Context `{!JS.Runtime}.
(** the message of the TypeError that reading a member of [null] raises *)
Variable typeErrorMessage : jsstring.

(** [setFortifications(forts); setFilters(generateFilters(forts))]: the
    features are stored before the index is built, so they stay stored when
    building it throws. The result is the message thrown, if any, and the
    hook. *)
Definition store (forts : list FeedFeature) (hook : Hook.t (option FortificationProperties.t))
  : option jsstring * Hook.t (option FortificationProperties.t) :=
  let hook := setFortifications forts hook in
  match readable forts with
  | Some typed => (None, setFilters (GeoJSON.generateFilters typed) hook)
  | None => (Some typeErrorMessage, hook)
  end.

(** The [try] block of loadGeoJSON after its first two statements. *)
Definition readFeed (response : FeedResponse)
  (hook : Hook.t (option FortificationProperties.t))
  : option jsstring * Hook.t (option FortificationProperties.t) :=
  match response with
  | Unreachable message => (Some message, hook)
  | Answered ok status statusText body =>
      if negb ok then
        (Some (js "Failed to fetch GeoJSON: " ++ statusText ++ js " ("
               ++ JS.numberToString status ++ js ")"), hook)
      else
        match body with
        | Unparsable message => (Some message, hook)
        | Parsed data =>
            match bool_decide (Feed.type data = Some (js "FeatureCollection")),
                  Feed.features data, Feed.elements data with
            | true, Some features, _ => store features hook
            | _, _, Some elements =>
                store (List.map stored
                         (GeoJSON.convertOSMToGeoJSON
                            {| GeoJSON.OSMResponse.elements := elements |})) hook
            | _, _, None =>
                (Some (js "Unrecognized data format in GeoJSON file"), hook)
            end
        end
  end.

(** ** loadGeoJSON, from the state at its start to the state it leaves:
    [setLoading(true); setError(null)], the rest of the [try] block,
    [setError(err)] in the [catch] block and [setLoading(false)] in the
    [finally] block. *)
Definition loadGeoJSON (response : FeedResponse)
  (hook : Hook.t (option FortificationProperties.t))
  : Hook.t (option FortificationProperties.t) :=
  let hook := setError None (setLoading true hook) in
  let '(thrown, hook) := readFeed response hook in
  let hook :=
    match thrown with
    | Some message => setError (Some message) hook
    | None => hook
    end in
  setLoading false hook.

End Loader.




Section Enrich.
Context `{!JS.Runtime} (world : ExternalData.World).


End Enrich.

End UseGeoJSON.

(* ===================================================================== *)
(** * The sidebar component: the selection of facets and the list of
    features *)
(* ===================================================================== *)

Module Sidebar.

Import FortificationProperties.

(** ** handleFilterChange: the filters handed to [onFilterChange] *)
Definition handleFilterChange (activeFilters : gmap jsstring (option jsstring))
  (groupId : jsstring) (value : option jsstring)
  : gmap jsstring (option jsstring) :=
  let newFilters := <[groupId := value]> activeFilters in
  match value with
  | None => delete groupId newFilters
  | Some _ => newFilters
  end.

(** ** clearAllFilters *)
Definition clearAllFilters : gmap jsstring (option jsstring) := ∅.

Section List.
Context `{!JS.Runtime}.
(** [a.localeCompare(b)], the collation of the runtime *)
Variable localeCompare : jsstring → jsstring → Z.

(** The callback of the search filter of the list. *)
Definition matchesSearch (searchTerm : jsstring) (fort : FortificationType) : bool :=
  let normalizedName := MapView.normalizeText (MapView.nameOf fort) in
  let normalizedAddress := MapView.normalizeText (MapView.addressOf fort) in
  let normalizedSearch := MapView.normalizeText searchTerm in
  JS.includes normalizedName normalizedSearch
  || JS.includes normalizedAddress normalizedSearch.

(** The callback of the filter applied for one entry of [activeFilters]. *)
Definition matchesFacet (key value : jsstring) (fort : FortificationType) : bool :=
  if JS.eqb key (js "type") then
    bool_decide (MapView.fortType fort = Some value)
  else if JS.eqb key (js "region") then
    bool_decide (get (Fortification.properties fort) "chpreg" = Some value)
  else true.

(** The body of [Object.entries(activeFilters).forEach]. *)
Definition applyFacet (filtered : list FortificationType)
  (entry : jsstring * option jsstring) : list FortificationType :=
  match entry with
  | (key, Some (c :: v)) => List.filter (matchesFacet key (c :: v)) filtered
  | _ => filtered
  end.

(** ** filteredFortifications of the list. The entries of [activeFilters]
    are visited in the order the map enumerates them. *)
Definition filteredFortifications (fortifications : list FortificationType)
  (activeFilters : gmap jsstring (option jsstring)) (searchTerm : jsstring)
  : list FortificationType :=
  let namedFortifications := List.filter MapView.isNamed fortifications in
  let filtered :=
    match searchTerm with
    | [] => namedFortifications
    | _ :: _ => List.filter (matchesSearch searchTerm) namedFortifications
    end in
  let filtered := fold_left applyFacet (map_to_list activeFilters) filtered in
  GeoJSON.Array_sort
    (λ a b, localeCompare (MapView.nameOf a) (MapView.nameOf b)) filtered.

End List.

End Sidebar.

(* ===================================================================== *)
(** * The wording of the specification

    The conditions that the specification states in its own terms, to be
    compared with what the code computes. *)
(* ===================================================================== *)

Module Spec.

Import FortificationProperties.

Section Wording.
Context `{!JS.Runtime}.

(** "its value case-insensitively contains the word" *)
Definition containsIgnoringCase (value word : jsstring) : Prop :=
  JS.includes (JS.toLowerCase value) (JS.toLowerCase word) = true.

(** "its value is exactly the word, case-insensitively" *)
Definition equalsIgnoringCase (value word : jsstring) : Prop :=
  JS.toLowerCase value = word.

(** (i) a historic tag whose value contains a word of the vocabulary *)
Definition historicMatches (tags : gmap jsstring jsstring) : Prop :=
  ∃ historic, tags !! js "historic" = Some historic ∧
    ∃ word, In word GeoJSON.fortificationTags ∧ containsIgnoringCase historic word.

(** (ii) a military tag whose value is "bunker" or "fortress" *)
Definition militaryMatches (tags : gmap jsstring jsstring) : Prop :=
  ∃ military, tags !! js "military" = Some military ∧
    (equalsIgnoringCase military (js "bunker")
     ∨ equalsIgnoringCase military (js "fortress")).

(** (iii) a defence or defense key, whatever its value *)
Definition hasDefenceKey (tags : gmap jsstring jsstring) : Prop :=
  is_Some (tags !! js "defence") ∨ is_Some (tags !! js "defense").

(** (iii), amended: a defence or defense tag with a non-empty value *)
Definition hasDefenceValue (tags : gmap jsstring jsstring) : Prop :=
  JS.truthy (tags !! js "defence") = true ∨ JS.truthy (tags !! js "defense") = true.

(** The retention rule of the normalizer as the specification words it. *)
Definition retained (element : GeoJSON.OSMElement.t) : Prop :=
  ∃ tags, GeoJSON.OSMElement.tags element = Some tags ∧
    (historicMatches tags ∨ militaryMatches tags ∨ hasDefenceKey tags).

End Wording.

(** The resolved type as the specification words it for the type facet:
    display type, then chptico, then historic, then building, then military;
    the first non-empty one. *)
Definition resolvedType (fort : FortificationType) : option jsstring :=
  let p := Fortification.properties fort in
  JS.or (JS.or (JS.or (JS.or (get p "display_type") (get p "chptico"))
                  (get p "historic"))
           (get p "building"))
    (get p "military").

(** "absent or whitespace-only" *)
Definition blank (value : option jsstring) : Prop :=
  match value with
  | None => True
  | Some s => forallb JS.isWhiteSpace s = true
  end.

(** A feature without a name and without a legacy denomination. *)
Definition unnamed (fort : FortificationType) : Prop :=
  blank (get (Fortification.properties fort) "name")
  ∧ blank (get (Fortification.properties fort) "chpdeno").

(** "first non-empty wins" *)
Fixpoint firstNonEmpty (values : list (option jsstring)) : option jsstring :=
  match values with
  | [] => None
  | Some (c :: s) :: _ => Some (c :: s)
  | _ :: rest => firstNonEmpty rest
  end.

(** The name of a feature: "name (falling back to chpdeno)". *)
Definition displayName (fort : FortificationType) : option jsstring :=
  firstNonEmpty [get (Fortification.properties fort) "name";
                 get (Fortification.properties fort) "chpdeno"].

(** The address of a feature: "chpadrs falling back to chplieu". *)
Definition address (fort : FortificationType) : option jsstring :=
  firstNonEmpty [get (Fortification.properties fort) "chpadrs";
                 get (Fortification.properties fort) "chplieu"].

(** The type that the facet compares: the chptico value, or the historic
    value when chptico is empty. *)
Definition legacyType (fort : FortificationType) : option jsstring :=
  firstNonEmpty [get (Fortification.properties fort) "chptico";
                 get (Fortification.properties fort) "historic"].

(** "named": the feature has a name that is not whitespace only. *)
Definition named (fort : FortificationType) : Prop :=
  ∃ name, displayName fort = Some name ∧ forallb JS.isWhiteSpace name = false.

(** A combining diacritical mark, U+0300 to U+036F. *)
Definition isCombiningMark (c : N) : Prop := (768 ≤ c ≤ 879)%N.

(** "removal of combining diacritical marks": the second string is the
    first one without its marks. *)
Inductive withoutMarks : jsstring → jsstring → Prop :=
| withoutMarks_nil : withoutMarks [] []
| withoutMarks_mark c text plain :
    isCombiningMark c → withoutMarks text plain → withoutMarks (c :: text) plain
| withoutMarks_keep c text plain :
    ¬ isCombiningMark c → withoutMarks text plain →
    withoutMarks (c :: text) (c :: plain).

Definition whitespace (c : N) : Prop := JS.isWhiteSpace c = true.

(** "trimming": the second string is the first one without the white space
    at its two ends. *)
Definition trimmed (text core : jsstring) : Prop :=
  ∃ before after,
    text = before ++ core ++ after
    ∧ Forall whitespace before ∧ Forall whitespace after
    ∧ (∀ c rest, core = c :: rest → ¬ whitespace c)
    ∧ (∀ c rest, core = rest ++ [c] → ¬ whitespace c).

(** "is a substring of" *)
Definition substring (part whole : jsstring) : Prop :=
  ∃ before after, whole = before ++ part ++ after.

(** "after Unicode NFD decomposition, removal of combining diacritical
    marks, lowercasing, and trimming" *)
Definition normalized `{!JS.Runtime} (text key : jsstring) : Prop :=
  ∃ plain, withoutMarks (JS.normalizeNFD text) plain
           ∧ trimmed (JS.toLowerCase plain) key.

(** The search predicate as the specification words it: the normalized term
    is a substring of the normalized name or of the normalized address,
    each of them the empty string when the feature has none. *)
Definition searchMatches `{!JS.Runtime} (searchTerm : jsstring) (fort : FortificationType)
  : Prop :=
  ∃ key, normalized searchTerm key
    ∧ ((∃ nameKey, normalized (default [] (displayName fort)) nameKey
                   ∧ substring key nameKey)
       ∨ (∃ addressKey, normalized (default [] (address fort)) addressKey
                        ∧ substring key addressKey)).

(** The value a feature contributes to a facet, if any. *)
Definition typeValue (fort : FortificationType) : jsstring :=
  let p := Fortification.properties fort in
  match JS.or (get p "chptico") (get p "historic") with
  | Some (c :: s) => c :: s
  | _ => js "Unknown"
  end.

Definition nonEmpty (value : option jsstring) : option jsstring :=
  match value with
  | Some (c :: s) => Some (c :: s)
  | _ => None
  end.

Definition periodValue (fort : FortificationType) : option jsstring :=
  nonEmpty (get (Fortification.properties fort) "period").

Definition regionValue (fort : FortificationType) : option jsstring :=
  nonEmpty (get (Fortification.properties fort) "chpreg").

(** "sorted by count descending": an option never precedes one with a
    larger count. *)
Definition countDescending (a b : FilterOption.t) : Prop :=
  (FilterOption.count b ≤ FilterOption.count a)%nat.

(** The number of occurrences of a value among the observed ones. *)
Definition occurrences (value : jsstring) (observed : list jsstring) : nat :=
  length (List.filter (λ v, JS.eqb v value) observed).

(** The options of a group index the observed values: one option for each
    distinct value, with its number of occurrences, sorted by count
    descending. *)
Definition indexes (observed : list jsstring) (options : list FilterOption.t) : Prop :=
  NoDup (List.map FilterOption.value options)
  ∧ (∀ option, In option options →
       In (FilterOption.value option) observed
       ∧ FilterOption.count option = occurrences (FilterOption.value option) observed
       ∧ FilterOption.label option = FilterOption.value option)
  ∧ (∀ value, In value observed →
       ∃ option, In option options ∧ FilterOption.value option = value)
  ∧ StronglySorted countDescending options.

(** "never mutates other features": a computation leaves every bag other
    than the one behind [r] as it was. *)
Definition touchesOnly {A} (r : ExternalData.ref) (m : ExternalData.Async A) : Prop :=
  ∀ s c s', m s = (c, s') →
    ∀ r', r' ≠ r → ExternalData.heap s' !! r' = ExternalData.heap s !! r'.

(** "never propagated to the caller": a computation completes normally
    from every state. *)
Definition resolves {A} (m : ExternalData.Async A) : Prop :=
  ∀ s, ∃ a s', m s = (ExternalData.Normal a, s').

(** "lastFetched is within the past 24 hours of the current time" *)
Definition within24Hours (now lastFetched : Z) : Prop :=
  (lastFetched ≤ now ∧ now - lastFetched < 24 * 3600000)%Z.

(** The freshness test of the code on a property bag, for the clock reading
    [now]: a non-empty lastFetched that parses to a time later than the
    same local wall-clock time on the previous calendar day. *)
Definition fetchedWithinADay `{!JS.Runtime} (p : FortificationProperties.t) (now : Z)
  : bool :=
  match get p "lastFetched" with
  | Some (c :: l) => JS.dateGt (JS.dateParse (c :: l)) (JS.setDate_previousDay now)
  | _ => false
  end.

End Spec.

(* ===================================================================== *)
(** * Notions used to state what the code keeps and what it never does *)
(* ===================================================================== *)

Module Behaviour.

Import FortificationProperties.

(** The distinct values of a list, in the order of their first occurrence. *)
Fixpoint firstSeen (values : list jsstring) : list jsstring :=
  match values with
  | [] => []
  | v :: rest => v :: List.filter (λ w, negb (JS.eqb w v)) (firstSeen rest)
  end.

(** The sum of the counts of a list of options. *)
Definition totalCount (options : list FilterOption.t) : nat :=
  list_sum (List.map FilterOption.count options).

(** The options that share a count come in the order in which their values
    were first seen. *)
Definition tiesInFirstSeenOrder (observed : list jsstring)
  (options : list FilterOption.t) : Prop :=
  ∀ count : nat,
    List.map FilterOption.value
      (List.filter (λ o, (FilterOption.count o =? count)%nat) options)
    = List.filter (λ v, (Spec.occurrences v observed =? count)%nat)
        (firstSeen observed).

(** A node whose latitude and longitude are both present, non-zero and not
    NaN. *)
Definition isLocatedNode (element : GeoJSON.OSMElement.t) : bool :=
  JS.eqb (GeoJSON.OSMElement.type element) (js "node")
  && JS.truthyNum (GeoJSON.OSMElement.lat element)
  && JS.truthyNum (GeoJSON.OSMElement.lon element).

(** A computation sends at most [n] requests, all to URLs that [allowed]
    accepts, and never withdraws one from the log. *)
Definition emits {A} (n : nat) (allowed : jsstring → bool)
  (m : ExternalData.Async A) : Prop :=
  ∀ s c s', m s = (c, s') →
    ∃ sent, ExternalData.requests s' = ExternalData.requests s ++ sent
            ∧ (length sent ≤ n)%nat
            ∧ forallb allowed sent = true.

(** The hosts that the lookups of useExternalData.ts address. *)
Definition wikiHost (url : jsstring) : bool :=
  JS.startsWith url (js "https://www.wikidata.org/wiki/Special:EntityData/")
  || JS.startsWith url (js "https://en.wikipedia.org/").

(** The same, with the image repository of the revision with the image
    search. *)
Definition wikiOrCommonsHost (url : jsstring) : bool :=
  wikiHost url || JS.startsWith url (js "https://commons.wikimedia.org/w/api.php?").

(** The keys that enrichment writes: five strings, and the two lists, which
    replace a string that a tag of the same name had put under their key. *)
Definition enrichmentKeys : list jsstring :=
  [js "period"; js "constructionStyle"; js "description"; js "lastFetched";
   js "imageSource"; js "imageUrls"; js "externalLinks"].

(** Between two states of a bag, every string-valued entry outside of the
    enrichment keys is the same. *)
Definition keepsFields (p p' : FortificationProperties.t) : Prop :=
  ∀ key, ¬ In key enrichmentKeys → fields p' !! key = fields p !! key.

(** Between two states of a bag, the image list and the link list only
    grew at their end. *)
Definition onlyAppends (p p' : FortificationProperties.t) : Prop :=
  (∃ more, default [] (imageUrls p') = default [] (imageUrls p) ++ more)
  ∧ (∃ more, default [] (externalLinks p') = default [] (externalLinks p) ++ more).

(** A computation moves the bag behind [r] along the relation [R]. *)
Definition evolves {A} (R : FortificationProperties.t → FortificationProperties.t → Prop)
  (r : ExternalData.ref) (m : ExternalData.Async A) : Prop :=
  ∀ s c s', m s = (c, s') → R (ExternalData.deref s r) (ExternalData.deref s' r).

(** [groups.find(g => g.id === id)?.options ?? []]: the options of the group
    with the given id, none when the group is left out. *)
Definition groupOptions (id : jsstring) (groups : list FilterGroup.t)
  : list FilterOption.t :=
  match find (λ group, JS.eqb (FilterGroup.id group) id) groups with
  | Some group => FilterGroup.options group
  | None => []
  end.

(** The test that one entry of the active filters puts on a feature of the
    sidebar's list. *)
Definition entryPasses (fort : FortificationType)
  (entry : jsstring * option jsstring) : bool :=
  match entry with
  | (key, Some (c :: v)) => Sidebar.matchesFacet key (c :: v) fort
  | _ => true
  end.

(** The tags of an element, none when it has no tag object. *)
Definition tagsOf (element : GeoJSON.OSMElement.t) : gmap jsstring jsstring :=
  default ∅ (GeoJSON.OSMElement.tags element).

(** An element with a name or chpdeno tag that is not blank. *)
Definition hasNameTag (element : GeoJSON.OSMElement.t) : bool :=
  negb (JS.eqb
          (JS.trim (JS.orElse (JS.or (tagsOf element !! js "name")
                                     (tagsOf element !! js "chpdeno")) []))
          []).

(** The chptico tag of an element, its historic tag when that one is empty,
    "Unknown" when both are. *)
Definition typeTag (element : GeoJSON.OSMElement.t) : jsstring :=
  JS.orElse (JS.or (tagsOf element !! js "chptico") (tagsOf element !! js "historic"))
    (js "Unknown").

(** Both at once: what an enrichment may do to a bag. *)
Definition extends (p p' : FortificationProperties.t) : Prop :=
  keepsFields p p' ∧ onlyAppends p p'.

(** Whenever a computation completes normally, its value satisfies [P]. *)
Definition yields {A} (P : A → Prop) (m : ExternalData.Async A) : Prop :=
  ∀ s a s', m s = (ExternalData.Normal a, s') → P a.

(** At most five URLs, none of them empty. *)
Definition fewUrls (urls : list jsstring) : Prop :=
  (length urls ≤ 5)%nat ∧ Forall (λ url, url ≠ []) urls.

(** A bag with at least one image URL. *)
Definition hasImages (p : FortificationProperties.t) : Prop :=
  ∃ url urls, imageUrls p = Some (url :: urls).

(** Between two states of a bag, the image list did not become empty. *)
Definition keepsImages (p p' : FortificationProperties.t) : Prop :=
  hasImages p → hasImages p'.

(** [a] does not sort after [b] by name, for a comparison of names. *)
Definition inNameOrder (compare : jsstring → jsstring → Z) (a b : FortificationType)
  : Prop :=
  (compare (MapView.nameOf a) (MapView.nameOf b) ≤ 0)%Z.

End Behaviour.

(* ===================================================================== *)
(** * The inputs of the scenarios *)
(* ===================================================================== *)

Module Scenario.
Import GeoJSON.

(** [{type:"node", id:1, lat:48.8, lon:2.3,
      tags:{historic:"castle", name:"Test Castle"}}] *)
Definition castle : OSMElement.t :=
  {| OSMElement.type := js "node";
     OSMElement.id := JS.decimal 1 0;
     OSMElement.lat := Some (JS.decimal 488 1);
     OSMElement.lon := Some (JS.decimal 23 1);
     OSMElement.tags :=
       Some (<[js "historic" := js "castle"]> {[js "name" := js "Test Castle"]}) |}.

(** A node whose only tag is a defence key with the empty value. *)
Definition emptyDefence : OSMElement.t :=
  {| OSMElement.type := js "node";
     OSMElement.id := JS.decimal 2 0;
     OSMElement.lat := Some (JS.decimal 488 1);
     OSMElement.lon := Some (JS.decimal 23 1);
     OSMElement.tags := Some {[js "defence" := []]} |}.

(** A way with a castle tag. *)
Definition castleWay : OSMElement.t :=
  {| OSMElement.type := js "way";
     OSMElement.id := JS.decimal 3 0;
     OSMElement.lat := None;
     OSMElement.lon := None;
     OSMElement.tags := Some {[js "historic" := js "castle"]} |}.

(** The feature the normalizer builds for the castle node. *)
Definition castleFeature : FortificationType := toFeature castle.

(** A point feature that has a name and nothing else. *)
Definition named (name : jsstring) : FortificationType :=
  {| Fortification.type := js "Feature";
     Fortification.geometry := Point (JS.decimal 23 1, JS.decimal 488 1);
     Fortification.properties := FortificationProperties.ofTags {[js "name" := name]};
     Fortification.id := None |}.

(** "Ch", U+00E2, "teau" and "For", U+00EA, "t" *)
Definition chateauAccented : jsstring := js "Ch" ++ [226%N] ++ js "teau".
Definition foretAccented : jsstring := js "For" ++ [234%N] ++ js "t".

(** The feature of the enrichment scenarios: its bag is behind reference 1. *)
Definition fort : Fortification.t ExternalData.ref :=
  {| Fortification.type := js "Feature";
     Fortification.geometry := Point (JS.decimal 23 1, JS.decimal 488 1);
     Fortification.properties := 1%positive;
     Fortification.id := Some (js "1") |}.

(** A state where reference 1 holds the given bag and reference 2 the bag
    of another feature; nothing was requested, the clock was never read. *)
Definition stateWith (bag : gmap jsstring jsstring) : ExternalData.State :=
  {| ExternalData.heap :=
       <[1%positive := FortificationProperties.ofTags bag]>
         {[2%positive := FortificationProperties.ofTags {[js "name" := js "Other"]}]};
     ExternalData.requests := [];
     ExternalData.dates := 0 |}.

(** 2026-03-29T12:00:00.000Z *)
Definition noon : Z := 1774785600000.

(** The Wikidata entity Q1: a period and an architectural style. *)
Definition entityQ1 : ExternalData.WikidataApiResponse.t :=
  {| ExternalData.WikidataApiResponse.entities := Some
       {[ js "Q1" :=
            {| ExternalData.Entity.claims := Some
                 (<[js "P2348" := [Some (ExternalData.ValueString (js "Medieval"))]]>
                    {[js "P149" := [Some (ExternalData.ValueString (js "Gothic"))]]}) |} ]} |}.

(** A MediaWiki answer with one page that has an extract, a thumbnail, an
    image list and an image URL, and one search result. *)
Definition pageAnswer : ExternalData.ApiResponse.t :=
  {| ExternalData.ApiResponse.query := Some
       {| ExternalData.Query.pages := Some
            [ (js "123",
               {| ExternalData.Page.extract := Some (js "A fort.");
                  ExternalData.Page.thumbnail := Some (js "https://img.example/thumb.jpg");
                  ExternalData.Page.images := Some [js "File:Fort X.jpg"];
                  ExternalData.Page.imageinfo :=
                    Some [Some (js "https://img.example/full.jpg")] |}) ];
          ExternalData.Query.search := Some [js "File:Fort X.jpg"] |} |}.

Definition answer {A} (data : A) : ExternalData.Fetched A :=
  ExternalData.Resolved
    {| ExternalData.Response.ok := true;
       ExternalData.Response.statusText := js "OK";
       ExternalData.Response.body := Some data |}.

(** Every lookup succeeds, at noon. *)
Definition online : ExternalData.World :=
  {| ExternalData.clock := λ _, noon;
     ExternalData.wikidata := λ _ _, answer entityQ1;
     ExternalData.mediawiki := λ _ _, answer pageAnswer |}.

(** Wikidata answers, the MediaWiki sites are unreachable. *)
Definition wikidataOnly : ExternalData.World :=
  {| ExternalData.clock := λ _, noon;
     ExternalData.wikidata := λ _ _, answer entityQ1;
     ExternalData.mediawiki := λ _ _, ExternalData.Rejected |}.

(** No lookup succeeds. *)
Definition offline : ExternalData.World :=
  {| ExternalData.clock := λ _, noon;
     ExternalData.wikidata := λ _ _, ExternalData.Rejected;
     ExternalData.mediawiki := λ _ _, ExternalData.Rejected |}.

(** A feature with a Wikidata and a Wikipedia reference. *)
Definition referenced : gmap jsstring jsstring :=
  <[js "name" := js "Fort X"]>
    (<[js "wikidata" := js "Q1"]> {[js "wikipedia" := js "fr:Fort X"]}).

(** The same, with a Wikipedia title that is a lone surrogate (U+D83D without
    its low half), for which encodeURIComponent raises URIError. *)
Definition malformedTitle : gmap jsstring jsstring :=
  <[js "name" := js "Fort X"]>
    (<[js "wikidata" := js "Q1"]> {[js "wikipedia" := js "en:" ++ [55357%N]]}).

(** Enriched on 2026-03-28 at 12:30 UTC, 23 hours and a half before noon
    of the 29th. *)
Definition enrichedYesterday : gmap jsstring jsstring :=
  <[js "lastFetched" := js "2026-03-28T12:30:00.000Z"]> referenced.

(** A feature with no property at all. *)
Definition anonymous : FortificationType :=
  {| Fortification.type := js "Feature";
     Fortification.geometry := Point (JS.decimal 23 1, JS.decimal 488 1);
     Fortification.properties := FortificationProperties.ofTags ∅;
     Fortification.id := None |}.

(** A castle node on the equator. *)
Definition equatorCastle : OSMElement.t :=
  {| OSMElement.type := js "node";
     OSMElement.id := JS.decimal 4 0;
     OSMElement.lat := Some JS.zero;
     OSMElement.lon := Some (JS.decimal 23 1);
     OSMElement.tags :=
       Some (<[js "historic" := js "castle"]> {[js "name" := js "Equator Castle"]}) |}.

(** A node tagged as a fortress. *)
Definition fortress : OSMElement.t :=
  {| OSMElement.type := js "node";
     OSMElement.id := JS.decimal 5 0;
     OSMElement.lat := Some (JS.decimal 488 1);
     OSMElement.lon := Some (JS.decimal 23 1);
     OSMElement.tags :=
       Some (<[js "historic" := js "Fortress"]> {[js "name" := js "Old Fortress"]}) |}.

(** The state of the enrichment scenarios with the referenced feature. *)
Definition referencedState : ExternalData.State := stateWith referenced.

(** The state that the enrichment of the referenced feature leaves when
    every lookup succeeds. *)
Definition enrichedState : ExternalData.State :=
  (ExternalData.enrichFortification_try online fort referencedState).2.

(** A state where the feature has a name and no reference. *)
Definition unreferencedState : ExternalData.State :=
  stateWith {[js "name" := js "Fort X"]}.

(** A comparison of names that stands for a collation: by length. *)
Definition lengthCompare (a b : jsstring) : Z :=
  (Z.of_nat (length a) - Z.of_nat (length b))%Z.

(** A point feature with the given string properties. *)
Definition withProperties (bag : gmap jsstring jsstring) : FortificationType :=
  {| Fortification.type := js "Feature";
     Fortification.geometry := Point (JS.decimal 23 1, JS.decimal 488 1);
     Fortification.properties := FortificationProperties.ofTags bag;
     Fortification.id := None |}.

(** "Cha", U+0302 (combining circumflex), "teau": the decomposed spelling. *)
Definition chateauDecomposed : jsstring := js "Cha" ++ [770%N] ++ js "teau".

(** A feed whose collection has a feature without properties. *)
Definition brokenCollection : UseGeoJSON.FeedResponse :=
  UseGeoJSON.Answered true (JS.decimal 200 0) (js "OK")
    (UseGeoJSON.Parsed
       {| UseGeoJSON.Feed.type := Some (js "FeatureCollection");
          UseGeoJSON.Feed.features := Some
            [ {| Fortification.type := js "Feature";
                 Fortification.geometry := Point (JS.decimal 23 1, JS.decimal 488 1);
                 Fortification.properties := None;
                 Fortification.id := None |} ];
          UseGeoJSON.Feed.elements := None |}).

(** The hook before the first load. *)
Definition initialHook : UseGeoJSON.Hook.t (option FortificationProperties.t) :=
  {| UseGeoJSON.Hook.fortifications := [];
     UseGeoJSON.Hook.loading := true;
     UseGeoJSON.Hook.error := None;
     UseGeoJSON.Hook.filters := [];
     UseGeoJSON.Hook.isDataEnriched := false |}.

(** A state where the bag of the feature has a Wikipedia reference and a
    tag named imageUrls, a string. *)
Definition stringImageUrlsState : ExternalData.State :=
  stateWith (<[js "imageUrls" := js "photo.jpg"]> referenced).

End Scenario.

(* ===================================================================== *)
(** * Properties *)
(* ===================================================================== *)

(** ** Strings *)

Lemma eqb_spec (s t : jsstring) : JS.eqb s t = true ↔ s = t.
Proof. unfold JS.eqb. apply bool_decide_eq_true. Qed.

Lemma eqb_refl (s : jsstring) : JS.eqb s s = true.
Proof. by apply eqb_spec. Qed.

Lemma startsWith_nil (s : jsstring) : JS.startsWith s [] = true.
Proof. by destruct s. Qed.

Lemma includes_nil (s : jsstring) : JS.includes s [] = true.
Proof. destruct s; simpl; by rewrite ?startsWith_nil. Qed.

Lemma includes_in_nil (t : jsstring) : JS.includes [] t = true → t = [].
Proof. destruct t; simpl; [done | discriminate]. Qed.

Lemma trimStart_whitespace (s : jsstring) :
  forallb JS.isWhiteSpace s = true → JS.trimStart s = [].
Proof.
  induction s as [|c s IH]; simpl; [done |].
  intros [Hc Hs]%andb_prop. rewrite Hc. auto.
Qed.

Lemma trim_whitespace (s : jsstring) :
  forallb JS.isWhiteSpace s = true → JS.trim s = [].
Proof. intros H. unfold JS.trim. by rewrite (trimStart_whitespace s H). Qed.

Lemma truthy_spec (v : option jsstring) :
  JS.truthy v = true ↔ ∃ c s, v = Some (c :: s).
Proof.
  destruct v as [[|c s]|]; simpl; split; try done; eauto;
    by intros (? & ? & ?).
Qed.

(** ** The normalizer *)

Section Normalizer.
Context `{!JS.Runtime}.
Import GeoJSON.

Lemma toFeature_geometry (element : OSMElement.t) :
  ∃ lon lat, Fortification.geometry (toFeature element) = Point (lon, lat).
Proof.
  unfold toFeature; simpl.
  destruct (_ && _ && _); [destruct (OSMElement.lon element), (OSMElement.lat element) |];
    eauto.
Qed.

Lemma toFeature_placeholder (element : OSMElement.t) :
  OSMElement.type element ≠ js "node"
  ∨ OSMElement.lat element = None ∨ OSMElement.lon element = None →
  Fortification.geometry (toFeature element) = Point (JS.zero, JS.zero).
Proof.
  intros Hlack. unfold toFeature; simpl.
  destruct (JS.eqb (OSMElement.type element) (js "node")) eqn:Ht; simpl; [|done].
  apply eqb_spec in Ht.
  destruct Hlack as [Hn | [-> | ->]]; [done | done |].
  by destruct (JS.truthyNum (OSMElement.lat element)), (OSMElement.lat element).
Qed.

Lemma convertOSMToGeoJSON_In (osmData : OSMResponse.t) (feature : FortificationType) :
  In feature (convertOSMToGeoJSON osmData) ↔
  hasValidGeometry feature = true
  ∧ ∃ element, In element (OSMResponse.elements osmData)
               ∧ isFortification element = true ∧ feature = toFeature element.
Proof.
  unfold convertOSMToGeoJSON. rewrite filter_In, in_map_iff. split.
  - intros [(element & <- & [Hin Hfort]%filter_In) Hvalid]. eauto 6.
  - intros [Hvalid (element & Hin & Hfort & ->)]. split; [|done].
    exists element. by rewrite filter_In.
Qed.

(** C1. Every feature of the normalizer's output is a Point whose
    coordinates are not [0, 0], and the placeholder feature built for an
    element without latitude or longitude (or that is not a node) is not in
    the output. *)
Theorem convertOSMToGeoJSON_drops_placeholders (osmData : OSMResponse.t) :
  Forall (λ feature,
    ∃ lon lat, Fortification.geometry feature = Point (lon, lat)
               ∧ ¬ (JS.isZero lon = true ∧ JS.isZero lat = true))
    (convertOSMToGeoJSON osmData)
  ∧ ∀ element,
      OSMElement.type element ≠ js "node"
      ∨ OSMElement.lat element = None ∨ OSMElement.lon element = None →
      Fortification.geometry (toFeature element) = Point (JS.zero, JS.zero)
      ∧ ¬ In (toFeature element) (convertOSMToGeoJSON osmData).
Proof.
  split.
  - apply List.Forall_forall. intros feature [Hvalid (element & _ & _ & ->)]%convertOSMToGeoJSON_In.
    destruct (toFeature_geometry element) as (lon & lat & Hg).
    exists lon, lat. split; [done |].
    unfold hasValidGeometry in Hvalid. rewrite Hg in Hvalid.
    intros [Hx Hy]. by rewrite Hx, Hy in Hvalid.
  - intros element Hlack. pose proof (toFeature_placeholder element Hlack) as Hg.
    split; [done |].
    intros [Hvalid _]%convertOSMToGeoJSON_In.
    unfold hasValidGeometry in Hvalid. by rewrite Hg in Hvalid.
Qed.

Lemma filter_map_filter {A B} (f : A → B) (P : A → bool) (Q : B → bool) (l : list A) :
  List.filter Q (List.map f (List.filter P l))
  = List.map f (List.filter (λ a, P a && Q (f a)) l).
Proof.
  induction l as [|a l IH]; simpl; [done |].
  destruct (P a); simpl; [|done].
  destruct (Q (f a)); simpl; by rewrite IH.
Qed.

Lemma isHistoric_spec (tags : gmap jsstring jsstring) :
  match tags !! js "historic" with
  | Some (c :: s) =>
      existsb (λ tag, JS.includes (JS.toLowerCase (c :: s)) (JS.toLowerCase tag))
        fortificationTags
  | _ => false
  end = true ↔ Spec.historicMatches tags.
Proof.
  unfold Spec.historicMatches, Spec.containsIgnoringCase.
  destruct (tags !! js "historic") as [[|c s]|]; split.
  - done.
  - intros (historic & [= <-] & word & Hin & Hinc).
    rewrite JS.toLowerCase_empty in Hinc.
    apply includes_in_nil, JS.toLowerCase_nonempty in Hinc. subst word.
    simpl in Hin. intuition discriminate.
  - intros (word & Hin & Hinc)%existsb_exists. eauto.
  - intros (historic & [= <-] & word & Hin & Hinc).
    apply existsb_exists. eauto.
  - done.
  - by intros (historic & [=] & _).
Qed.

Lemma isMilitary_spec (tags : gmap jsstring jsstring) :
  match tags !! js "military" with
  | Some (c :: s) =>
      existsb (JS.eqb (JS.toLowerCase (c :: s))) [js "bunker"; js "fortress"]
  | _ => false
  end = true ↔ Spec.militaryMatches tags.
Proof.
  unfold Spec.militaryMatches, Spec.equalsIgnoringCase.
  destruct (tags !! js "military") as [[|c s]|]; split.
  - done.
  - intros (military & [= <-] & H'). rewrite JS.toLowerCase_empty in H'.
    destruct H'; discriminate.
  - cbn [existsb]. rewrite orb_false_r.
    intros [E | E]%orb_true_iff; apply eqb_spec in E; eauto.
  - intros (military & [= <-] & [E | E]); cbn [existsb]; rewrite E;
      by rewrite ?eqb_refl, ?orb_true_r.
  - done.
  - by intros (military & [=] & _).
Qed.

Lemma hasDefenceTag_spec (tags : gmap jsstring jsstring) :
  JS.truthy (JS.or (tags !! js "defence") (tags !! js "defense")) = true
  ↔ Spec.hasDefenceValue tags.
Proof.
  unfold Spec.hasDefenceValue, JS.or.
  destruct (JS.truthy (tags !! js "defence")) eqn:E; [rewrite E|]; intuition discriminate.
Qed.

(** C3, amended. The tag filter of the normalizer keeps an element exactly
    when it has a tag mapping and (i) its historic value contains a word of
    the vocabulary, case-insensitively, or (ii) its military value is
    "bunker" or "fortress", case-insensitively, or (iii) its defence or
    defense tag has a non-empty value; the output is made of the features
    of the elements so kept whose geometry is not the placeholder. *)
Theorem isFortification_criteria (osmData : OSMResponse.t) :
  (∀ element,
     isFortification element = true ↔
     ∃ tags, OSMElement.tags element = Some tags ∧
       (Spec.historicMatches tags ∨ Spec.militaryMatches tags
        ∨ Spec.hasDefenceValue tags))
  ∧ convertOSMToGeoJSON osmData
    = List.map toFeature
        (List.filter (λ element,
           isFortification element && hasValidGeometry (toFeature element))
           (OSMResponse.elements osmData)).
Proof.
  split; [|apply filter_map_filter].
  intros element. unfold isFortification.
  destruct (OSMElement.tags element) as [tags|]; [|by split; [|intros (? & [=] & _)]].
  rewrite !orb_true_iff, isHistoric_spec, isMilitary_spec, hasDefenceTag_spec.
  split.
  - intros Hcriteria. exists tags. tauto.
  - intros (? & [= <-] & ?). tauto.
Qed.

End Normalizer.

(** C3, as worded. A node that carries a defence key with the empty value
    is retained by the rule of the specification, and the normalizer drops
    it. *)
Lemma retained_wording_fails :
  Spec.retained Scenario.emptyDefence
  ∧ GeoJSON.isFortification Scenario.emptyDefence = false
  ∧ GeoJSON.convertOSMToGeoJSON
      {| GeoJSON.OSMResponse.elements := [Scenario.emptyDefence] |} = [].
Proof.
  split; [|split; vm_compute; reflexivity].
  exists {[js "defence" := []]}. split; [done |].
  right; right; left. by exists [].
Qed.

(** C2. The one-node document of the scenario is normalized to one feature
    with id "1", the Point [2.3, 48.8] and the bag made of historic, name,
    display_type "Castle" and '@id' "node/1". *)
Theorem convertOSMToGeoJSON_scenario :
  ∃ feature,
    GeoJSON.convertOSMToGeoJSON
      {| GeoJSON.OSMResponse.elements := [Scenario.castle] |} = [feature]
    ∧ Fortification.id feature = Some (js "1")
    ∧ Fortification.type feature = js "Feature"
    ∧ Fortification.geometry feature = Point (JS.decimal 23 1, JS.decimal 488 1)
    ∧ FortificationProperties.get (Fortification.properties feature) "historic"
      = Some (js "castle")
    ∧ FortificationProperties.get (Fortification.properties feature) "name"
      = Some (js "Test Castle")
    ∧ FortificationProperties.get (Fortification.properties feature) "display_type"
      = Some (js "Castle")
    ∧ FortificationProperties.get (Fortification.properties feature) "@id"
      = Some (js "node/1")
    ∧ size (FortificationProperties.fields (Fortification.properties feature)) = 4%nat.
Proof. eexists. repeat split; vm_compute; reflexivity. Qed.

(** ** The map filter *)

(** ** Strings against their wording *)

Lemma startsWith_spec (s t : jsstring) :
  JS.startsWith s t = true ↔ ∃ after, s = t ++ after.
Proof.
  revert s. induction t as [|a t IH]; intros s.
  - rewrite startsWith_nil. split; [eauto | done].
  - destruct s as [|b s]; simpl.
    + split; [done | by intros [after ?]].
    + rewrite andb_true_iff, N.eqb_eq, IH. split.
      * intros [-> [after ->]]. eauto.
      * intros [after [= -> ->]]. eauto.
Qed.

Lemma includes_spec (s t : jsstring) :
  JS.includes s t = true ↔ Spec.substring t s.
Proof.
  unfold Spec.substring. induction s as [|b s IH].
  - change (JS.includes [] t) with (JS.startsWith [] t || false).
    rewrite orb_false_r, startsWith_spec. split.
    + intros [after Hs]. by exists [], after.
    + intros (before & after & Hs). symmetry in Hs.
      apply app_eq_nil in Hs as [-> [-> ->]%app_eq_nil]. by exists [].
  - change (JS.includes (b :: s) t)
      with (JS.startsWith (b :: s) t || JS.includes s t).
    rewrite orb_true_iff, startsWith_spec, IH. split.
    + intros [[after Hs] | (before & after & ->)].
      * by exists [], after.
      * by exists (b :: before), after.
    + intros ([|c before] & after & Hs).
      * left. by exists after.
      * right. injection Hs as -> ->. by exists before, after.
Qed.

Lemma withoutMarks_spec (text plain : jsstring) :
  Spec.withoutMarks text plain ↔ plain = MapView.removeDiacritics text.
Proof.
  unfold MapView.removeDiacritics. split.
  - induction 1 as [|c text plain Hmark _ IH|c text plain Hmark _ IH]; simpl; [done | |].
    + unfold Spec.isCombiningMark in Hmark.
      assert ((768 <=? c)%N && (c <=? 879)%N = true) as ->; [|done].
      apply andb_true_iff. split; apply N.leb_le; lia.
    + unfold Spec.isCombiningMark in Hmark.
      assert ((768 <=? c)%N && (c <=? 879)%N = false) as ->; [|by rewrite IH].
      apply not_true_is_false. intros [?%N.leb_le ?%N.leb_le]%andb_true_iff. lia.
  - intros ->. induction text as [|c text IH]; simpl; [constructor |].
    destruct ((768 <=? c)%N && (c <=? 879)%N) eqn:E; simpl.
    + apply Spec.withoutMarks_mark; [|done].
      apply andb_true_iff in E as [?%N.leb_le ?%N.leb_le]. unfold Spec.isCombiningMark. lia.
    + apply Spec.withoutMarks_keep; [|done].
      intros Hmark. unfold Spec.isCombiningMark in Hmark.
      apply not_true_iff_false in E. apply E, andb_true_iff.
      split; apply N.leb_le; lia.
Qed.

Lemma trimStart_app_whitespace (before s : jsstring) :
  Forall Spec.whitespace before → JS.trimStart (before ++ s) = JS.trimStart s.
Proof.
  induction 1 as [|c before Hc _ IH]; [done |]. simpl. by rewrite Hc.
Qed.

Lemma trimStart_keeps (c : N) (s : jsstring) :
  ¬ Spec.whitespace c → JS.trimStart (c :: s) = c :: s.
Proof. intros Hc. simpl. by destruct (JS.isWhiteSpace c) eqn:E. Qed.

(** What [trimStart] removes and what it leaves. *)
Lemma trimStart_split (s : jsstring) :
  ∃ before, s = before ++ JS.trimStart s
            ∧ Forall Spec.whitespace before
            ∧ ∀ c rest, JS.trimStart s = c :: rest → ¬ Spec.whitespace c.
Proof.
  induction s as [|c s (before & Hs & Hbefore & Hhead)]; simpl.
  - by exists [].
  - destruct (JS.isWhiteSpace c) eqn:E.
    + exists (c :: before). split_and!; [simpl; by f_equal | by constructor | done].
    + exists []. split_and!; [done | constructor |].
      intros c' rest [= <- _]. unfold Spec.whitespace. congruence.
Qed.

Lemma trimStart_nil (s : jsstring) :
  JS.trimStart s = [] → Forall Spec.whitespace s.
Proof.
  destruct (trimStart_split s) as (before & Hs & Hbefore & _).
  intros Hnil. rewrite Hnil, app_nil_r in Hs. by subst.
Qed.

Lemma Forall_rev_whitespace (s : jsstring) :
  Forall Spec.whitespace s → Forall Spec.whitespace (rev s).
Proof. rewrite !Forall_forall. intros Hs c Hc%list_elem_of_In%in_rev%list_elem_of_In. auto. Qed.

Lemma trim_spec (text core : jsstring) :
  Spec.trimmed text core ↔ core = JS.trim text.
Proof.
  unfold JS.trim, JS.trimEnd. split.
  - intros (before & after & -> & Hbefore & Hafter & Hhead & Hlast).
    rewrite trimStart_app_whitespace by done.
    destruct core as [|c core].
    + simpl. pose proof (trimStart_whitespace after) as Hnil.
      rewrite Hnil; [done |]. apply forallb_forall. intros c Hc.
      rewrite Forall_forall in Hafter. by apply Hafter, list_elem_of_In.
    + rewrite <- app_comm_cons, trimStart_keeps by eauto.
      rewrite app_comm_cons, rev_app_distr.
      rewrite trimStart_app_whitespace by by apply Forall_rev_whitespace.
      destruct (rev (c :: core)) as [|d tail] eqn:Hrev.
      { apply (f_equal (@rev N)) in Hrev. rewrite rev_involutive in Hrev. done. }
      rewrite trimStart_keeps.
      * rewrite <- Hrev. by rewrite rev_involutive.
      * apply (Hlast d (rev tail)).
        apply (f_equal (@rev N)) in Hrev. rewrite rev_involutive in Hrev.
        by rewrite Hrev.
  - intros ->.
    destruct (trimStart_split text) as (before & Htext & Hbefore & Hhead).
    destruct (trimStart_split (rev (JS.trimStart text))) as (tail & Hrev & Htail & Hlast).
    set (core := rev (JS.trimStart (rev (JS.trimStart text)))) in *.
    assert (JS.trimStart text = core ++ rev tail) as Hcore.
    { apply (f_equal (@rev N)) in Hrev.
      by rewrite rev_involutive, rev_app_distr in Hrev. }
    exists before, (rev tail). split_and!.
    + by rewrite <- Hcore.
    + done.
    + by apply Forall_rev_whitespace.
    + intros c rest Hc. rewrite Hc in Hcore. eapply Hhead. exact Hcore.
    + intros c rest Hc. apply (Hlast c (rev rest)).
      unfold core in Hc. apply (f_equal (@rev N)) in Hc.
      by rewrite rev_involutive, rev_app_distr in Hc.
Qed.

Lemma trim_nil (s : jsstring) :
  JS.trim s = [] ↔ forallb JS.isWhiteSpace s = true.
Proof.
  split; [|apply trim_whitespace].
  intros Hnil. symmetry in Hnil. apply trim_spec in Hnil.
  destruct Hnil as (before & after & -> & Hbefore & Hafter & _).
  apply forallb_forall. intros c Hc%list_elem_of_In.
  rewrite app_nil_l in Hc. apply elem_of_app in Hc as [Hc | Hc];
    [rewrite Forall_forall in Hbefore; by apply Hbefore
    | rewrite Forall_forall in Hafter; by apply Hafter].
Qed.

Lemma firstNonEmpty_or (a b : option jsstring) :
  default [] (Spec.firstNonEmpty [a; b]) = JS.orElse (JS.or a b) [].
Proof. by destruct a as [[|? ?]|], b as [[|? ?]|]. Qed.

Lemma firstNonEmpty_Some (a b : option jsstring) (value : jsstring) :
  value ≠ [] →
  Spec.firstNonEmpty [a; b] = Some value ↔ JS.or a b = Some value.
Proof.
  intros Hvalue. destruct a as [[|? ?]|], b as [[|? ?]|]; simpl; split;
    try done; by intros [= <-].
Qed.

Section MapFilter.
Context `{!JS.Runtime}.
Import MapView.

Lemma normalizeText_empty : normalizeText [] = [].
Proof.
  unfold normalizeText. rewrite JS.normalizeNFD_empty. simpl.
  by rewrite JS.toLowerCase_empty.
Qed.

Lemma passesSearch_spec (fort : FortificationType) (searchTerm : jsstring) :
  passesSearch searchTerm fort = true ↔
  JS.includes (normalizeText (nameOf fort)) (normalizeText searchTerm) = true
  ∨ JS.includes (normalizeText (addressOf fort)) (normalizeText searchTerm) = true.
Proof.
  unfold passesSearch. destruct searchTerm as [|c term].
  - rewrite normalizeText_empty, includes_nil. tauto.
  - rewrite negb_true_iff, andb_false_iff, !negb_false_iff. tauto.
Qed.

Lemma isNamed_unnamed (fort : FortificationType) :
  Spec.unnamed fort → isNamed fort = false.
Proof.
  unfold Spec.unnamed, Spec.blank, isNamed, nameOf, JS.or.
  intros [Hname Hdeno]. apply negb_false_iff, eqb_spec.
  destruct (FortificationProperties.get _ "name") as [[|c s]|]; simpl;
    [| by apply trim_whitespace |];
    (destruct (FortificationProperties.get _ "chpdeno") as [[|d t]|]; simpl;
     [done | by apply trim_whitespace | done]).
Qed.

Lemma isNamed_named (fort : FortificationType) :
  isNamed fort = true ↔ Spec.named fort.
Proof.
  unfold isNamed, Spec.named, Spec.displayName, nameOf. cbv zeta.
  rewrite <- firstNonEmpty_or, negb_true_iff.
  destruct (Spec.firstNonEmpty _) as [name|]; simpl.
  - split.
    + intros Hname. exists name. split; [done |].
      apply not_true_is_false. intros Hblank%trim_nil.
      rewrite Hblank in Hname. by rewrite eqb_refl in Hname.
    + intros (? & [= <-] & Hname). apply not_true_is_false.
      intros Hblank%eqb_spec%trim_nil. congruence.
  - split; [by rewrite eqb_refl | by intros (? & ? & ?)].
Qed.

Lemma fortType_legacyType (fort : FortificationType) (value : jsstring) :
  value ≠ [] →
  fortType fort = Some value ↔ Spec.legacyType fort = Some value.
Proof.
  intros Hvalue. unfold fortType, Spec.legacyType. cbv zeta.
  by rewrite firstNonEmpty_Some.
Qed.

Lemma normalized_spec (text key : jsstring) :
  Spec.normalized text key ↔ key = normalizeText text.
Proof.
  unfold Spec.normalized, normalizeText. split.
  - intros (plain & ->%withoutMarks_spec & Htrimmed). by apply trim_spec.
  - intros ->. eexists. split; [by apply withoutMarks_spec | by apply trim_spec].
Qed.

Lemma passesSearch_matches (fort : FortificationType) (searchTerm : jsstring) :
  passesSearch searchTerm fort = true ↔ Spec.searchMatches searchTerm fort.
Proof.
  rewrite passesSearch_spec, !includes_spec.
  unfold Spec.searchMatches, Spec.displayName, Spec.address, nameOf, addressOf.
  cbv zeta. rewrite !firstNonEmpty_or. split.
  - intros Hfound. exists (normalizeText searchTerm).
    split; [by apply normalized_spec |].
    destruct Hfound as [Hname | Haddress]; [left | right];
      (eexists; split; [by apply normalized_spec | done]).
  - intros (key & ->%normalized_spec
            & [(nameKey & ->%normalized_spec & Hname)
              | (addressKey & ->%normalized_spec & Haddress)]); auto.
Qed.

Lemma filter_filter {A} (P Q : A → bool) (l : list A) :
  List.filter Q (List.filter P l) = List.filter (λ a, P a && Q a) l.
Proof.
  induction l as [|a l IH]; simpl; [done |].
  destruct (P a); simpl; [|done]. destruct (Q a); by rewrite IH.
Qed.

(** C6, amended. In the component src/components/FortificationMap.tsx a
    feature whose name and legacy denomination are both absent or
    whitespace-only is never in the visible set of the map view; without
    search term and filters the visible set is the named features, and in
    every state the result is the one obtained from the named features
    alone (the exclusion comes before the other predicates). The other copy
    of the component has no such test: without search term and filters it
    shows every feature, and in every state the component shows what that
    copy shows of the named features. *)
Theorem filteredFortifications_excludes_unnamed
  (fortifications : list FortificationType)
  (activeFilters : gmap jsstring (option jsstring)) (searchTerm : jsstring) :
  (∀ fort, Spec.unnamed fort →
           ¬ In fort (filteredFortifications fortifications activeFilters searchTerm))
  ∧ filteredFortifications fortifications ∅ [] = List.filter isNamed fortifications
  ∧ filteredFortifications fortifications activeFilters searchTerm
    = filteredFortifications (List.filter isNamed fortifications)
        activeFilters searchTerm
  ∧ (∀ fort, In fort (filteredFortifications fortifications ∅ []) ↔
             In fort fortifications ∧ Spec.named fort)
  ∧ MapViewEarlier.filteredFortifications fortifications ∅ [] = fortifications
  ∧ filteredFortifications fortifications activeFilters searchTerm
    = MapViewEarlier.filteredFortifications (List.filter isNamed fortifications)
        activeFilters searchTerm.
Proof.
  split_and!.
  - intros fort Hun%isNamed_unnamed. unfold filteredFortifications.
    destruct (_ && _); intros [_ Hkeep]%filter_In; rewrite Hun in Hkeep; done.
  - done.
  - unfold filteredFortifications. destruct (_ && _); rewrite filter_filter;
      apply filter_ext; intros fort; by destruct (isNamed fort).
  - intros fort. change (filteredFortifications fortifications ∅ [])
      with (List.filter isNamed fortifications).
    by rewrite filter_In, isNamed_named.
  - done.
  - unfold filteredFortifications, MapViewEarlier.filteredFortifications.
    destruct (_ && _); [done |]. rewrite filter_filter.
    apply filter_ext; intros fort; by destruct (isNamed fort).
Qed.

(** The copy of the component without the name filter applies the search and facet
    blocks only: the current one is the earlier one run on the named
    features. *)
Lemma filteredFortifications_earlier_revision
  (fortifications : list FortificationType)
  (activeFilters : gmap jsstring (option jsstring)) (searchTerm : jsstring) :
  filteredFortifications fortifications activeFilters searchTerm
  = MapViewEarlier.filteredFortifications (List.filter isNamed fortifications)
      activeFilters searchTerm.
Proof.
  unfold filteredFortifications, MapViewEarlier.filteredFortifications.
  destruct (_ && _); [done |]. rewrite filter_filter.
  apply filter_ext; intros fort; by destruct (isNamed fort).
Qed.

(** C4, amended. With a non-empty value selected for the type facet, no
    other facet and no search term, the visible set is the list of the
    features, in their order, that are named (their name, or else their
    chpdeno, is not empty and not whitespace only) and whose chptico value,
    or historic value when chptico is empty, is that value; the display
    type, building and military are not consulted. *)
Theorem filteredFortifications_type_facet
  (fortifications : list FortificationType)
  (activeFilters : gmap jsstring (option jsstring)) (value : jsstring) :
  activeFilters !! js "type" = Some (Some value) →
  value ≠ [] →
  JS.truthy (default None (activeFilters !! js "period")) = false →
  JS.truthy (default None (activeFilters !! js "region")) = false →
  ∃ keeps : FortificationType → bool,
    filteredFortifications fortifications activeFilters []
    = List.filter keeps fortifications
    ∧ ∀ fort, keeps fort = true ↔
        Spec.named fort ∧ Spec.legacyType fort = Some value.
Proof.
  intros Htype Hvalue Hperiod Hregion.
  exists (λ fort, isNamed fort && bool_decide (fortType fort = Some value)).
  split.
  - unfold filteredFortifications.
    assert (size activeFilters ≠ 0%nat) as Hsize.
    { intros ->%map_size_empty_iff. by rewrite lookup_empty in Htype. }
    apply Nat.eqb_neq in Hsize. rewrite Hsize, andb_false_r.
    apply filter_ext. intros fort.
    unfold passesType, passesPeriod, passesRegion, passesSearch, activeFilter.
    rewrite Htype.
    destruct value as [|c v]; [done |].
    destruct (activeFilters !! js "period") as [[[|? ?]|]|]; try done;
      (destruct (activeFilters !! js "region") as [[[|? ?]|]|]; try done);
      (destruct (isNamed fort); simpl; [|done]); by case_bool_decide.
  - intros fort.
    rewrite andb_true_iff, bool_decide_eq_true, isNamed_named.
    by rewrite fortType_legacyType.
Qed.

End MapFilter.

(** C6, as worded. The copy of the component without the name test shows a
    feature that has neither a name nor a denomination, without search term
    and filters and also when a filter is set that this feature passes. *)
Lemma unnamed_wording_fails :
  Spec.unnamed Scenario.anonymous
  ∧ In Scenario.anonymous
      (MapViewEarlier.filteredFortifications
         [Scenario.anonymous; Scenario.castleFeature] ∅ [])
  ∧ In Scenario.anonymous
      (MapViewEarlier.filteredFortifications
         [Scenario.anonymous; Scenario.castleFeature] {[js "type" := None]} []).
Proof. split; [split; exact I |]. split; vm_compute; tauto. Qed.

(** Without search term and filters, the copy without the name filter
    shows a feature that has no name. *)
Lemma earlier_revision_keeps_unnamed :
  MapViewEarlier.filteredFortifications [Scenario.anonymous] ∅ [] = [Scenario.anonymous]
  ∧ MapView.filteredFortifications [Scenario.anonymous] ∅ [] = [].
Proof. split; vm_compute; reflexivity. Qed.

(** C4, as worded. The feature normalized from the castle node resolves to
    the type "Castle" by its display type and is named, yet the type facet
    "Castle" does not keep it: the filter compares the historic value
    "castle". *)
Lemma type_facet_wording_fails :
  Spec.resolvedType Scenario.castleFeature = Some (js "Castle")
  ∧ MapView.isNamed Scenario.castleFeature = true
  ∧ MapView.filteredFortifications [Scenario.castleFeature]
      {[js "type" := Some (js "Castle")]} [] = []
  ∧ List.filter (λ fort,
      MapView.isNamed fort
      && bool_decide (Spec.resolvedType fort = Some (js "Castle")))
      [Scenario.castleFeature] = [Scenario.castleFeature].
Proof. repeat split; vm_compute; reflexivity. Qed.

(** C5. On every runtime, the search block accepts a feature exactly when
    the term, after NFD decomposition, removal of the combining marks
    U+0300 to U+036F, lowercasing and trimming, is a substring of the name
    (name, else chpdeno, else the empty string) or of the address (chpadrs,
    else chplieu, else the empty string) normalized in the same way. So
    "chateau" finds the feature named with the accented word and the
    accented term finds the plain name, and the same for "foret"; blanks
    around the term do not count; the denomination, the address and the
    place are searched; a name spelled with a combining mark is found. On
    the reference runtime every accented Latin-1 letter normalizes like its
    base letter, and every capital like its small letter. *)
Theorem passesSearch_accent_insensitive :
  (∀ (runtime : JS.Runtime) (fort : FortificationType) (searchTerm : jsstring),
     MapView.passesSearch searchTerm fort = true ↔
     Spec.searchMatches searchTerm fort)
  ∧ MapView.passesSearch (js "chateau") (Scenario.named Scenario.chateauAccented) = true
  ∧ MapView.passesSearch Scenario.chateauAccented (Scenario.named (js "chateau")) = true
  ∧ MapView.passesSearch (js "foret") (Scenario.named Scenario.foretAccented) = true
  ∧ MapView.passesSearch Scenario.foretAccented (Scenario.named (js "Foret")) = true
  ∧ MapView.filteredFortifications
      [Scenario.named Scenario.chateauAccented; Scenario.named (js "Fort")]
      ∅ (js "chateau")
    = [Scenario.named Scenario.chateauAccented]
  ∧ MapView.passesSearch (js "  chateau ") (Scenario.named Scenario.chateauAccented)
    = true
  ∧ MapView.passesSearch (js "chateau") (Scenario.named Scenario.chateauDecomposed)
    = true
  ∧ MapView.passesSearch (js "chateau")
      (Scenario.withProperties {[js "chpdeno" := Scenario.chateauAccented]}) = true
  ∧ MapView.passesSearch (js "chateau")
      (Scenario.withProperties
         (<[js "name" := js "Fort"]>
            {[js "chpadrs" := js "Rue du " ++ Scenario.chateauAccented]})) = true
  ∧ MapView.passesSearch (js "foret")
      (Scenario.withProperties
         (<[js "name" := js "Fort"]>
            (<[js "chpadrs" := []]> {[js "chplieu" := Scenario.foretAccented]})))
    = true
  ∧ MapView.passesSearch (js "foret")
      (Scenario.withProperties
         (<[js "name" := js "Fort"]>
            (<[js "chpadrs" := js "Rue"]> {[js "chplieu" := Scenario.foretAccented]})))
    = false
  ∧ Forall (λ entry,
      MapView.normalizeText [entry.1] = MapView.normalizeText [entry.2.1])
      Reference.decompositions
  ∧ Forall (λ upper,
      MapView.normalizeText [upper] = MapView.normalizeText [upper + 32]%N)
      (List.map N.of_nat (seq 65 26)).
Proof.
  split; [intros runtime fort searchTerm; apply passesSearch_matches |].
  repeat split; try (vm_compute; reflexivity);
    apply Forall_forall; intros x Hx; apply list_elem_of_In in Hx;
    vm_compute in Hx; intuition (subst; vm_compute; reflexivity).
Qed.

(** ** The facet index *)

Section FilterIndex.
Import GeoJSON.

(** *** The insertion-ordered map *)

Lemma Map_get_None (m : list (jsstring * nat)) (key : jsstring) :
  Map_get m key = None ↔ ¬ In key (List.map fst m).
Proof.
  induction m as [|[k v] m IH]; simpl; [tauto |].
  destruct (JS.eqb k key) eqn:E.
  - apply eqb_spec in E. split; [done | tauto].
  - assert (k ≠ key) by (intros ->; by rewrite eqb_refl in E). tauto.
Qed.

Lemma Map_get_In (m : list (jsstring * nat)) (key : jsstring) (value : nat) :
  NoDup (List.map fst m) →
  Map_get m key = Some value ↔ In (key, value) m.
Proof.
  induction m as [|[k v] m IH]; simpl; [intros _; split; [done | tauto] |].
  intros [Hk Hm]%NoDup_cons. destruct (JS.eqb k key) eqn:E.
  - apply eqb_spec in E. subst k. split; [intros [= ->]; tauto |].
    intros [[= ->] | Hin]; [done |].
    destruct Hk. apply list_elem_of_In, in_map_iff. by exists (key, value).
  - assert (k ≠ key) by (intros ->; by rewrite eqb_refl in E).
    rewrite (IH Hm). split; [tauto |]. intros [[= ? ?] | ?]; [done | tauto].
Qed.

Lemma Map_get_set (m : list (jsstring * nat)) (key key' : jsstring) (value : nat) :
  Map_get (Map_set m key value) key'
  = if JS.eqb key key' then Some value else Map_get m key'.
Proof.
  induction m as [|[k v] m IH]; simpl; [done |].
  destruct (JS.eqb k key) eqn:E; simpl.
  - apply eqb_spec in E. subst k. by destruct (JS.eqb key key').
  - rewrite IH. destruct (JS.eqb k key') eqn:E'; [|done].
    destruct (JS.eqb key key') eqn:E''; [|done].
    apply eqb_spec in E', E''. subst. by rewrite eqb_refl in E.
Qed.

Lemma Map_set_keys (m : list (jsstring * nat)) (key : jsstring) (value : nat) :
  List.map fst (Map_set m key value)
  = match Map_get m key with
    | Some _ => List.map fst m
    | None => List.map fst m ++ [key]
    end.
Proof.
  induction m as [|[k v] m IH]; simpl; [done |].
  destruct (JS.eqb k key) eqn:E; simpl; [done |].
  rewrite IH. by destruct (Map_get m key).
Qed.

Lemma Map_set_NoDup (m : list (jsstring * nat)) (key : jsstring) (value : nat) :
  NoDup (List.map fst m) → NoDup (List.map fst (Map_set m key value)).
Proof.
  intros Hm. rewrite Map_set_keys. destruct (Map_get m key) eqn:E; [done |].
  apply NoDup_app. split; [done |]. split; [| apply NoDup_singleton].
  intros k Hk ->%list_elem_of_singleton.
  apply Map_get_None in E. by apply E, list_elem_of_In.
Qed.

(** What counting a list of values into a map leaves under a key. *)
Lemma fold_Map_increment (values : list jsstring) (m : list (jsstring * nat))
  (key : jsstring) :
  Map_get (fold_left Map_increment values m) key
  = match Spec.occurrences key values with
    | O => Map_get m key
    | S n => Some (default 0%nat (Map_get m key) + S n)%nat
    end.
Proof.
  revert m. induction values as [|v values IH]; intros m; [done |].
  simpl. rewrite IH. unfold Spec.occurrences. simpl.
  unfold Map_increment. rewrite !Map_get_set.
  destruct (JS.eqb v key) eqn:E; simpl.
  - apply eqb_spec in E. subst v.
    destruct (length _); simpl; f_equal; lia.
  - done.
Qed.

Lemma fold_Map_increment_NoDup (values : list jsstring) (m : list (jsstring * nat)) :
  NoDup (List.map fst m) →
  NoDup (List.map fst (fold_left Map_increment values m)).
Proof.
  revert m. induction values as [|v values IH]; intros m Hm; [done |].
  simpl. apply IH. by apply Map_set_NoDup.
Qed.

Lemma occurrences_In (value : jsstring) (observed : list jsstring) :
  (0 < Spec.occurrences value observed)%nat ↔ In value observed.
Proof.
  unfold Spec.occurrences. induction observed as [|v observed IH]; simpl; [lia |].
  destruct (JS.eqb v value) eqn:E; simpl.
  - apply eqb_spec in E. split; [tauto | lia].
  - assert (v ≠ value) by (intros ->; by rewrite eqb_refl in E). tauto.
Qed.

(** *** The stable sort *)

Lemma Array_sort_insert_Permutation {A} (compare : A → A → Z) (a : A) (l : list A) :
  Permutation (Array_sort_insert compare a l) (a :: l).
Proof.
  induction l as [|b l IH]; simpl; [done |].
  destruct (0 <? compare a b)%Z; [|done].
  rewrite IH. apply perm_swap.
Qed.

Lemma Array_sort_Permutation {A} (compare : A → A → Z) (l : list A) :
  Permutation (Array_sort compare l) l.
Proof.
  induction l as [|a l IH]; simpl; [done |].
  rewrite Array_sort_insert_Permutation. by constructor.
Qed.

Lemma Array_sort_insert_sorted (a : FilterOption.t) (l : list FilterOption.t) :
  StronglySorted Spec.countDescending l →
  StronglySorted Spec.countDescending (Array_sort_insert byCountDescending a l).
Proof.
  induction 1 as [|b l Hl IH Hb]; simpl; [repeat constructor |].
  unfold byCountDescending at 1.
  destruct (Z.ltb_spec 0 (Z.of_nat (FilterOption.count b) - Z.of_nat (FilterOption.count a))).
  - constructor; [done |].
    eapply Permutation_Forall; [symmetry; apply Array_sort_insert_Permutation |].
    constructor; [unfold Spec.countDescending; lia | done].
  - constructor; [by constructor |].
    constructor; [unfold Spec.countDescending; lia |].
    eapply Forall_impl; [exact Hb |]. unfold Spec.countDescending. intros c ?. lia.
Qed.

Lemma Array_sort_sorted (l : list FilterOption.t) :
  StronglySorted Spec.countDescending (Array_sort byCountDescending l).
Proof.
  induction l as [|a l IH]; simpl; [constructor |].
  by apply Array_sort_insert_sorted.
Qed.

(** *** From the counted values to the options of a group *)

Lemma toOptions_value (prefix : string) (m : list (jsstring * nat)) :
  List.map FilterOption.value (toOptions prefix m) = List.map fst m.
Proof. unfold toOptions. rewrite List.map_map. apply map_ext. by intros [? ?]. Qed.

Lemma options_index (prefix : string) (observed : list jsstring) :
  Spec.indexes observed
    (Array_sort byCountDescending
       (toOptions prefix (fold_left Map_increment observed []))).
Proof.
  set (m := fold_left Map_increment observed []).
  assert (NoDup (List.map fst m)) as Hnodup
    by (apply fold_Map_increment_NoDup; constructor).
  assert (∀ key value, In (key, value) m ↔
            value = Spec.occurrences key observed ∧ In key observed) as Hm.
  { intros key value. rewrite <- Map_get_In by done. unfold m.
    rewrite fold_Map_increment, <- occurrences_In. simpl.
    destruct (Spec.occurrences key observed); split; try done.
    - intros [_ ?]. lia.
    - intros [= <-]. split; [done | lia].
    - intros [-> _]. done. }
  pose proof (Array_sort_Permutation byCountDescending (toOptions prefix m)) as Hperm.
  split; [|split; [|split]].
  - apply NoDup_ListNoDup.
    eapply Permutation_NoDup; [apply Permutation_map; symmetry; exact Hperm |].
    rewrite toOptions_value. by apply NoDup_ListNoDup.
  - intros option Hin. eapply Permutation_in in Hin; [|exact Hperm].
    apply in_map_iff in Hin as ([key value] & <- & Hin). simpl.
    apply Hm in Hin as [-> ?]. done.
  - intros value Hin.
    exists {| FilterOption.id := js prefix ++ value; FilterOption.label := value;
              FilterOption.value := value;
              FilterOption.count := Spec.occurrences value observed |}.
    split; [|done]. eapply Permutation_in; [symmetry; exact Hperm |].
    apply in_map_iff. exists (value, Spec.occurrences value observed).
    split; [done |]. by apply Hm.
  - apply Array_sort_sorted.
Qed.

Lemma indexes_empty (observed : list jsstring) (options : list FilterOption.t) :
  Spec.indexes observed options →
  (0 <? length options)%nat = negb (bool_decide (observed = [])).
Proof.
  intros (_ & Hsound & Hcomplete & _).
  destruct observed as [|v observed], options as [|o options]; simpl; try done.
  - destruct (Hsound o) as [[] _]; by left.
  - destruct (Hcomplete v) as (? & [] & _); by left.
Qed.

(** *** What forEach collects *)

Lemma collect_typeMap (forts : list FortificationType) (maps : FilterMaps) :
  typeMap (fold_left collect forts maps)
  = fold_left Map_increment (List.map Spec.typeValue forts) (typeMap maps).
Proof.
  revert maps. induction forts as [|fort forts IH]; intros maps; [done |].
  simpl. rewrite IH. f_equal. unfold collect, Spec.typeValue; simpl.
  by destruct (JS.or _ _) as [[|? ?]|].
Qed.

Lemma collect_periodMap (forts : list FortificationType) (maps : FilterMaps) :
  periodMap (fold_left collect forts maps)
  = fold_left Map_increment (omap Spec.periodValue forts) (periodMap maps).
Proof.
  revert maps. induction forts as [|fort forts IH]; intros maps; [done |].
  simpl. rewrite IH. unfold collect, Spec.periodValue, Spec.nonEmpty; simpl.
  by destruct (FortificationProperties.get _ "period") as [[|? ?]|].
Qed.

Lemma collect_regionMap (forts : list FortificationType) (maps : FilterMaps) :
  regionMap (fold_left collect forts maps)
  = fold_left Map_increment (omap Spec.regionValue forts) (regionMap maps).
Proof.
  revert maps. induction forts as [|fort forts IH]; intros maps; [done |].
  simpl. rewrite IH. unfold collect, Spec.regionValue, Spec.nonEmpty; simpl.
  by destruct (FortificationProperties.get _ "chpreg") as [[|? ?]|].
Qed.

Lemma omap_nonEmpty_nil (key : string) (forts : list FortificationType) :
  bool_decide
    (omap (λ fort, Spec.nonEmpty
             (FortificationProperties.get (Fortification.properties fort) key))
       forts = [])
  = negb (existsb (λ fort,
            JS.truthy (FortificationProperties.get (Fortification.properties fort) key))
            forts).
Proof.
  induction forts as [|fort forts IH]; simpl; [done |].
  destruct (FortificationProperties.get _ key) as [[|? ?]|]; simpl; try done.
Qed.

(** C7. The index builder returns a "type" group for every feature list,
    where a feature with neither chptico nor historic counts under
    "Unknown"; then a "period" group exactly when a feature has a period
    value, then a "region" group exactly when a feature has a chpreg value;
    the options of each group are the distinct observed values with their
    numbers of occurrences, sorted by count descending. *)
Theorem generateFilters_index (forts : list FortificationType) :
  ∃ typeOptions periodOptions regionOptions,
    generateFilters forts
    = [ {| FilterGroup.id := js "type"; FilterGroup.name := js "Type";
           FilterGroup.options := typeOptions |} ]
      ++ (if existsb (λ fort, JS.truthy
               (FortificationProperties.get (Fortification.properties fort) "period"))
             forts
          then [ {| FilterGroup.id := js "period"; FilterGroup.name := js "Period";
                    FilterGroup.options := periodOptions |} ]
          else [])
      ++ (if existsb (λ fort, JS.truthy
               (FortificationProperties.get (Fortification.properties fort) "chpreg"))
             forts
          then [ {| FilterGroup.id := js "region"; FilterGroup.name := js "Region";
                    FilterGroup.options := regionOptions |} ]
          else [])
    ∧ Spec.indexes (List.map Spec.typeValue forts) typeOptions
    ∧ Spec.indexes (omap Spec.periodValue forts) periodOptions
    ∧ Spec.indexes (omap Spec.regionValue forts) regionOptions.
Proof.
  eexists _, _, _. split; [|split; [|split]]; cycle 1.
  - apply (options_index "type-").
  - apply (options_index "period-").
  - apply (options_index "region-").
  - unfold generateFilters. cbn [FilterGroup.options].
    rewrite collect_typeMap, collect_periodMap, collect_regionMap. cbn [typeMap periodMap regionMap].
    rewrite (indexes_empty _ _ (options_index "period-" _)).
    rewrite (indexes_empty _ _ (options_index "region-" _)).
    unfold Spec.periodValue, Spec.regionValue.
    by rewrite !omap_nonEmpty_nil, !negb_involutive.
Qed.

End FilterIndex.

(** ** The statements at concrete inputs *)

Lemma convertOSMToGeoJSON_drops_placeholders_witness :
  GeoJSON.OSMElement.lat Scenario.castleWay = None
  ∧ Fortification.geometry (GeoJSON.toFeature Scenario.castleWay)
    = Point (JS.zero, JS.zero)
  ∧ ¬ In (GeoJSON.toFeature Scenario.castleWay)
        (GeoJSON.convertOSMToGeoJSON
           {| GeoJSON.OSMResponse.elements := [Scenario.castle; Scenario.castleWay] |}).
Proof.
  split; [reflexivity |].
  apply (proj2 (convertOSMToGeoJSON_drops_placeholders
                  {| GeoJSON.OSMResponse.elements :=
                       [Scenario.castle; Scenario.castleWay] |})
           Scenario.castleWay).
  right; left; reflexivity.
Defined.

Lemma filteredFortifications_excludes_unnamed_witness :
  Spec.unnamed Scenario.anonymous
  ∧ ¬ In Scenario.anonymous
        (MapView.filteredFortifications
           [Scenario.anonymous; Scenario.castleFeature] ∅ []).
Proof.
  assert (Spec.unnamed Scenario.anonymous) as Hun by (split; exact I).
  split; [exact Hun |].
  exact (proj1 (filteredFortifications_excludes_unnamed
                  [Scenario.anonymous; Scenario.castleFeature] ∅ [])
           Scenario.anonymous Hun).
Defined.

Lemma filteredFortifications_type_facet_witness :
  MapView.filteredFortifications [Scenario.anonymous; Scenario.castleFeature]
    {[js "type" := Some (js "castle")]} []
  = [Scenario.castleFeature]
  ∧ ∃ keeps : FortificationType → bool,
      MapView.filteredFortifications [Scenario.anonymous; Scenario.castleFeature]
        {[js "type" := Some (js "castle")]} []
      = List.filter keeps [Scenario.anonymous; Scenario.castleFeature]
      ∧ ∀ fort, keeps fort = true ↔
          Spec.named fort ∧ Spec.legacyType fort = Some (js "castle").
Proof.
  split; [vm_compute; reflexivity |].
  apply (filteredFortifications_type_facet
           [Scenario.anonymous; Scenario.castleFeature]
           {[js "type" := Some (js "castle")]} (js "castle"));
    [reflexivity | discriminate | reflexivity | reflexivity].
Defined.

(** ** Enrichment *)

Section AsyncFacts.
Import ExternalData.

Lemma bind_Normal {A B} (m : Async A) (k : A → Async B) s b s' :
  bind m k s = (Normal b, s') →
  ∃ a s1, m s = (Normal a, s1) ∧ k a s1 = (Normal b, s').
Proof.
  unfold bind. destruct (m s) as [[a|e] s1]; [eauto | done].
Qed.

Lemma bind_run {A B} (m : Async A) (k : A → Async B) s :
  bind m k s = match m s with
               | (Normal a, s') => k a s'
               | (Throw e, s') => (Throw e, s')
               end.
Proof. reflexivity. Qed.

Lemma touchesOnly_ret {A} r (a : A) : Spec.touchesOnly r (ret a).
Proof. by intros s c s' [= _ <-]. Qed.

Lemma touchesOnly_throw {A} r e : Spec.touchesOnly r (@throw A e).
Proof. by intros s c s' [= _ <-]. Qed.

Lemma touchesOnly_bind {A B} r (m : Async A) (k : A → Async B) :
  Spec.touchesOnly r m → (∀ a, Spec.touchesOnly r (k a)) →
  Spec.touchesOnly r (bind m k).
Proof.
  intros Hm Hk s c s' Hrun r' Hr'. unfold bind in Hrun.
  destruct (m s) as [[a|e] s1] eqn:E.
  - rewrite (Hk a _ _ _ Hrun r' Hr'). eauto.
  - injection Hrun as _ <-. eauto.
Qed.

Lemma touchesOnly_tryCatch {A} r (m : Async A) (h : Error → Async A) :
  Spec.touchesOnly r m → (∀ e, Spec.touchesOnly r (h e)) →
  Spec.touchesOnly r (tryCatch m h).
Proof.
  intros Hm Hh s c s' Hrun r' Hr'. unfold tryCatch in Hrun.
  destruct (m s) as [[a|e] s1] eqn:E.
  - injection Hrun as _ <-. eauto.
  - rewrite (Hh e _ _ _ Hrun r' Hr'). eauto.
Qed.

Lemma touchesOnly_read r r0 : Spec.touchesOnly r (read r0).
Proof. by intros s c s' [= _ <-]. Qed.

Lemma touchesOnly_write r f : Spec.touchesOnly r (write r f).
Proof. intros s c s' [= _ <-] r' Hr'. simpl. by rewrite lookup_insert_ne. Qed.

Lemma touchesOnly_modify r f : Spec.touchesOnly r (modify r f).
Proof.
  intros s c s' Hrun r' Hr'. unfold modify in Hrun.
  destruct (f (deref s r)); injection Hrun as _ <-; [|done].
  simpl. by rewrite lookup_insert_ne.
Qed.

Lemma touchesOnly_encodeURIComponent r text :
  Spec.touchesOnly r (encodeURIComponent text).
Proof.
  unfold encodeURIComponent.
  destruct (JS.encodeURIComponent text); [apply touchesOnly_ret | apply touchesOnly_throw].
Qed.

Lemma touchesOnly_newDate world r : Spec.touchesOnly r (newDate world).
Proof. by intros s c s' [= _ <-]. Qed.

Lemma touchesOnly_fetch {A} world r net url :
  Spec.touchesOnly r (@fetch world A net url).
Proof.
  intros s c s' Hrun. unfold fetch in Hrun.
  by destruct (net _ _ _); injection Hrun as _ <-.
Qed.

Lemma touchesOnly_json {A} r (response : Response.t A) :
  Spec.touchesOnly r (json response).
Proof.
  unfold json.
  destruct (Response.body response); [apply touchesOnly_ret | apply touchesOnly_throw].
Qed.

Lemma mapAsync_frame {A B} r (f : A → Async B) (l : list A) :
  (∀ a, Spec.touchesOnly r (f a)) →
  ∀ s cs s', mapAsync f l s = (cs, s') →
    ∀ r', r' ≠ r → heap s' !! r' = heap s !! r'.
Proof.
  intros Hf. induction l as [|a l IH]; intros s cs s' Hrun r' Hr'; simpl in Hrun.
  - by injection Hrun as _ <-.
  - destruct (f a s) as [c s1] eqn:E1. destruct (mapAsync f l s1) as [cs' s2] eqn:E2.
    injection Hrun as _ <-. rewrite (IH _ _ _ E2 r' Hr').
    exact (Hf a s c s1 E1 r' Hr').
Qed.

Lemma touchesOnly_Promise_all {A B} r (f : A → Async B) (l : list A) :
  (∀ a, Spec.touchesOnly r (f a)) → Spec.touchesOnly r (Promise_all f l).
Proof.
  intros Hf s c s' Hrun. unfold Promise_all in Hrun.
  destruct (mapAsync f l s) as [cs s1] eqn:E. injection Hrun as _ <-.
  by eapply mapAsync_frame.
Qed.

Lemma resolves_tryCatch {A} (m : Async A) (h : Error → Async A) :
  (∀ e, Spec.resolves (h e)) → Spec.resolves (tryCatch m h).
Proof.
  intros Hh s. unfold tryCatch. destruct (m s) as [[a|e] s1]; [eauto |]. apply Hh.
Qed.

Lemma resolves_ret {A} (a : A) : Spec.resolves (ret a).
Proof. intros s. by eexists _, _. Qed.

End AsyncFacts.

Create HintDb frame.
#[local] Hint Resolve touchesOnly_ret touchesOnly_throw touchesOnly_read
  touchesOnly_write touchesOnly_modify touchesOnly_encodeURIComponent touchesOnly_newDate
  touchesOnly_fetch touchesOnly_json : frame.

(** One step of a frame argument: split a sequence, a [try], a parallel
    map or a case distinction, or close a leaf with a known fact. *)
Ltac frame_step :=
  first
    [ solve [auto with frame]
    | progress cbv zeta
    | apply touchesOnly_bind; [| intros ?]
    | apply touchesOnly_tryCatch; [| intros ?]
    | apply touchesOnly_Promise_all; intros ?
    | match goal with
      | |- Spec.touchesOnly _ (match ?x with _ => _ end) => destruct x
      | |- Spec.touchesOnly _ (if ?b then _ else _) => destruct b
      end ].

Ltac frame := repeat frame_step.

Section EnrichmentFacts.
Context `{!JS.Runtime} (world : ExternalData.World).
Import ExternalData.

Lemma fetchWikipediaData_resolves title : Spec.resolves (fetchWikipediaData world title).
Proof. apply resolves_tryCatch. intros _. apply resolves_ret. Qed.

Lemma fetchWikidataData_resolves wikidataId :
  Spec.resolves (fetchWikidataData world wikidataId).
Proof. apply resolves_tryCatch. intros _. apply resolves_ret. Qed.

Lemma fetchWikipediaImages_resolves title :
  Spec.resolves (fetchWikipediaImages world title).
Proof. apply resolves_tryCatch. intros _. apply resolves_ret. Qed.

Lemma fetchGoogleImages_resolves searchTerm :
  Spec.resolves (ExternalDataWithImages.fetchGoogleImages world searchTerm).
Proof. apply resolves_tryCatch. intros _. apply resolves_ret. Qed.

Lemma touchesOnly_fetchWikipediaData r title :
  Spec.touchesOnly r (fetchWikipediaData world title).
Proof. unfold fetchWikipediaData. frame. Qed.

Lemma touchesOnly_fetchWikidataData r wikidataId :
  Spec.touchesOnly r (fetchWikidataData world wikidataId).
Proof. unfold fetchWikidataData. frame. Qed.

Lemma touchesOnly_imageUrlOf r title : Spec.touchesOnly r (imageUrlOf world title).
Proof. unfold imageUrlOf. frame. Qed.

Lemma touchesOnly_fetchWikipediaImages r title :
  Spec.touchesOnly r (fetchWikipediaImages world title).
Proof.
  pose proof (touchesOnly_imageUrlOf r).
  unfold fetchWikipediaImages. frame.
Qed.

Lemma touchesOnly_processWikidata r : Spec.touchesOnly r (processWikidata world r).
Proof.
  pose proof (touchesOnly_fetchWikidataData r).
  unfold processWikidata. frame.
Qed.

Lemma touchesOnly_addWikipediaLink r wikipedia title :
  Spec.touchesOnly r (addWikipediaLink r wikipedia title).
Proof. unfold addWikipediaLink. frame. Qed.

Lemma touchesOnly_processWikipedia r : Spec.touchesOnly r (processWikipedia world r).
Proof.
  pose proof (touchesOnly_fetchWikipediaData r).
  pose proof (touchesOnly_fetchWikipediaImages r).
  pose proof (touchesOnly_addWikipediaLink r).
  unfold processWikipedia. frame.
Qed.

Lemma touchesOnly_fetchedRecently r : Spec.touchesOnly r (fetchedRecently world r).
Proof. unfold fetchedRecently. frame. Qed.

Lemma touchesOnly_stampLastFetched r : Spec.touchesOnly r (stampLastFetched world r).
Proof. unfold stampLastFetched. frame. Qed.

Lemma touchesOnly_enrichFortification_try fort :
  Spec.touchesOnly (Fortification.properties fort) (enrichFortification_try world fort).
Proof.
  pose proof (touchesOnly_fetchedRecently (Fortification.properties fort)).
  pose proof (touchesOnly_processWikidata (Fortification.properties fort)).
  pose proof (touchesOnly_processWikipedia (Fortification.properties fort)).
  pose proof (touchesOnly_stampLastFetched (Fortification.properties fort)).
  unfold enrichFortification_try. frame.
Qed.

Lemma touchesOnly_commonsImageOf r title :
  Spec.touchesOnly r (ExternalDataWithImages.commonsImageOf world title).
Proof. unfold ExternalDataWithImages.commonsImageOf. frame. Qed.

Lemma touchesOnly_searchWikimediaCommons r searchTerm :
  Spec.touchesOnly r (ExternalDataWithImages.searchWikimediaCommons world searchTerm).
Proof.
  pose proof (touchesOnly_commonsImageOf r).
  unfold ExternalDataWithImages.searchWikimediaCommons. frame.
Qed.

Lemma touchesOnly_fetchGoogleImages r searchTerm :
  Spec.touchesOnly r (ExternalDataWithImages.fetchGoogleImages world searchTerm).
Proof.
  pose proof (touchesOnly_searchWikimediaCommons r).
  unfold ExternalDataWithImages.fetchGoogleImages. frame.
Qed.

Lemma touchesOnly_processImages fort :
  Spec.touchesOnly (Fortification.properties fort)
    (ExternalDataWithImages.processImages world fort).
Proof.
  pose proof (touchesOnly_fetchGoogleImages (Fortification.properties fort)).
  unfold ExternalDataWithImages.processImages. frame.
Qed.

Lemma touchesOnly_processWikipedia_images r :
  Spec.touchesOnly r (ExternalDataWithImages.processWikipedia world r).
Proof.
  pose proof (touchesOnly_fetchWikipediaData r).
  pose proof (touchesOnly_fetchWikipediaImages r).
  pose proof (touchesOnly_addWikipediaLink r).
  unfold ExternalDataWithImages.processWikipedia. frame.
Qed.

Lemma touchesOnly_enrichFortification_try_images fort :
  Spec.touchesOnly (Fortification.properties fort)
    (ExternalDataWithImages.enrichFortification_try world fort).
Proof.
  pose proof (touchesOnly_fetchedRecently (Fortification.properties fort)).
  pose proof (touchesOnly_processImages fort).
  pose proof (touchesOnly_processWikidata (Fortification.properties fort)).
  pose proof (touchesOnly_processWikipedia_images (Fortification.properties fort)).
  pose proof (touchesOnly_stampLastFetched (Fortification.properties fort)).
  unfold ExternalDataWithImages.enrichFortification_try. frame.
Qed.

(** *** The freshness test and the stamp, run on a state *)

Lemma spread_eq (fort : Fortification.t ref) : spread fort = fort.
Proof. by destruct fort. Qed.

Lemma fetchedRecently_run r s :
  fetchedRecently world r s
  = (Normal (Spec.fetchedWithinADay (deref s r) (clock world (dates s))),
     match FortificationProperties.get (deref s r) "lastFetched" with
     | Some (_ :: _) => afterClock s
     | _ => s
     end).
Proof.
  unfold fetchedRecently, Spec.fetchedWithinADay, bind, read; simpl.
  by destruct (FortificationProperties.get (deref s r) "lastFetched") as [[|c l]|].
Qed.

Lemma fetchedWithinADay_true p now :
  Spec.fetchedWithinADay p now = true →
  ∃ c l, FortificationProperties.get p "lastFetched" = Some (c :: l).
Proof.
  unfold Spec.fetchedWithinADay.
  destruct (FortificationProperties.get p "lastFetched") as [[|c l]|]; [done | eauto | done].
Qed.

Lemma stampLastFetched_run r s :
  stampLastFetched world r s
  = (Normal tt,
     {| heap := <[r := FortificationProperties.set (deref s r) "lastFetched"
                          (JS.toISOString (clock world (dates s)))]> (heap s);
        requests := requests s;
        dates := S (dates s) |}).
Proof. reflexivity. Qed.

Lemma stamped_lastFetched {A} (steps : Async A) r (fort : Fortification.t ref)
  s enriched s' :
  (let* _ := steps in
   let* _ := stampLastFetched world r in
   ret fort) s = (Normal enriched, s') →
  enriched = fort
  ∧ FortificationProperties.get (deref s' r) "lastFetched"
    = Some (JS.toISOString (clock world (pred (dates s')))).
Proof.
  intros (a & s1 & _ & Hrest)%bind_Normal.
  apply bind_Normal in Hrest as ([] & s2 & Hstamp & Hret).
  rewrite stampLastFetched_run in Hstamp. unfold ret in Hret. simplify_eq.
  split; [done |].
  unfold deref, FortificationProperties.get. cbn [heap dates pred].
  rewrite lookup_insert_eq. simpl. by rewrite lookup_insert_eq.
Qed.

Lemma setDate_previousDay_fixed_offset (offset now : Z) :
  (∀ t isUTC, JS.localTZA t isUTC = offset) →
  JS.setDate_previousDay now = (now - 24 * 3600000)%Z.
Proof.
  intros Hoffset. unfold JS.setDate_previousDay, JS.UTC, JS.LocalTime, JS.msPerDay.
  rewrite !Hoffset. lia.
Qed.

End EnrichmentFacts.

Section EnrichmentClaims.
Context `{!JS.Runtime} (world : ExternalData.World).
Import ExternalData.

Lemma enrichFortification_try_fresh (fort : Fortification.t ref) (s : State) :
  Spec.fetchedWithinADay (deref s (Fortification.properties fort))
    (clock world (dates s)) = true →
  enrichFortification_try world fort s = (Normal fort, afterClock s)
  ∧ ExternalDataWithImages.enrichFortification_try world fort s
    = (Normal fort, afterClock s).
Proof.
  intros Hfresh.
  destruct (fetchedWithinADay_true _ _ Hfresh) as (c & l & Hget).
  unfold enrichFortification_try, ExternalDataWithImages.enrichFortification_try.
  split; rewrite bind_run, fetchedRecently_run, Hfresh, Hget, spread_eq; reflexivity.
Qed.

Lemma enrichFortification_try_stale (fort : Fortification.t ref) (s : State) :
  Spec.fetchedWithinADay (deref s (Fortification.properties fort))
    (clock world (dates s)) = false →
  let r := Fortification.properties fort in
  let checked := (fetchedRecently world r s).2 in
  enrichFortification_try world fort s
  = (let* _ := processWikidata world r in
     let* _ := processWikipedia world r in
     let* _ := stampLastFetched world r in
     ret fort) checked
  ∧ ExternalDataWithImages.enrichFortification_try world fort s
    = (let* _ := ExternalDataWithImages.processImages world fort in
       let* _ := processWikidata world r in
       let* _ := ExternalDataWithImages.processWikipedia world r in
       let* _ := stampLastFetched world r in
       ret fort) checked.
Proof.
  intros Hstale r checked. subst r checked.
  unfold enrichFortification_try, ExternalDataWithImages.enrichFortification_try.
  split; rewrite bind_run, fetchedRecently_run, Hstale, spread_eq; reflexivity.
Qed.

Lemma enrichFortification_try_stamps (fort : Fortification.t ref) s enriched s' :
  Spec.fetchedWithinADay (deref s (Fortification.properties fort))
    (clock world (dates s)) = false →
  enrichFortification_try world fort s = (Normal enriched, s')
  ∨ ExternalDataWithImages.enrichFortification_try world fort s = (Normal enriched, s') →
  enriched = fort
  ∧ FortificationProperties.get (deref s' (Fortification.properties fort)) "lastFetched"
    = Some (JS.toISOString (clock world (pred (dates s')))).
Proof.
  intros Hstale.
  destruct (enrichFortification_try_stale fort s Hstale) as [Hrun Hrun'].
  intros [Hnormal | Hnormal].
  - rewrite Hrun in Hnormal.
    apply bind_Normal in Hnormal as (? & s1 & _ & Hnormal).
    by apply stamped_lastFetched in Hnormal.
  - rewrite Hrun' in Hnormal.
    apply bind_Normal in Hnormal as (? & s1 & _ & Hnormal).
    apply bind_Normal in Hnormal as (? & s2 & _ & Hnormal).
    by apply stamped_lastFetched in Hnormal.
Qed.

Lemma enrichFortification_try_returns (fort : Fortification.t ref) s enriched s' :
  enrichFortification_try world fort s = (Normal enriched, s')
  ∨ ExternalDataWithImages.enrichFortification_try world fort s = (Normal enriched, s') →
  enriched = fort.
Proof.
  destruct (Spec.fetchedWithinADay (deref s (Fortification.properties fort))
              (clock world (dates s))) eqn:E.
  - destruct (enrichFortification_try_fresh fort s E) as [-> ->].
    by intros [[= <- _] | [= <- _]].
  - intros Hnormal. by apply (enrichFortification_try_stamps fort s enriched s' E).
Qed.

(** C8, amended. When lastFetched is non-empty and parses to a time later
    than the same local wall-clock time on the previous calendar day (24
    hours before the clock reading wherever the offset of local time is
    constant), enrichFortification returns the feature unchanged, requests
    nothing and writes nothing. Otherwise the lookup blocks run, and a run
    that completes normally returns the copy with lastFetched overwritten by
    the time read at the end. *)
Theorem enrichFortification_freshness (fort : Fortification.t ref) (s : State) :
  let r := Fortification.properties fort in
  let now := clock world (dates s) in
  (Spec.fetchedWithinADay (deref s r) now = true →
     enrichFortification world fort s = (fort, afterClock s)
     ∧ ExternalDataWithImages.enrichFortification world fort s = (fort, afterClock s))
  ∧ (Spec.fetchedWithinADay (deref s r) now = false →
       let checked := (fetchedRecently world r s).2 in
       enrichFortification_try world fort s
       = (let* _ := processWikidata world r in
          let* _ := processWikipedia world r in
          let* _ := stampLastFetched world r in
          ret fort) checked
       ∧ ExternalDataWithImages.enrichFortification_try world fort s
         = (let* _ := ExternalDataWithImages.processImages world fort in
            let* _ := processWikidata world r in
            let* _ := ExternalDataWithImages.processWikipedia world r in
            let* _ := stampLastFetched world r in
            ret fort) checked
       ∧ ∀ enriched s',
           enrichFortification_try world fort s = (Normal enriched, s')
           ∨ ExternalDataWithImages.enrichFortification_try world fort s
             = (Normal enriched, s') →
           enriched = fort
           ∧ FortificationProperties.get (deref s' r) "lastFetched"
             = Some (JS.toISOString (clock world (pred (dates s')))))
  ∧ (∀ offset, (∀ t isUTC, JS.localTZA t isUTC = offset) →
       Spec.fetchedWithinADay (deref s r) now = true ↔
       ∃ lastFetched t,
         FortificationProperties.get (deref s r) "lastFetched" = Some lastFetched
         ∧ lastFetched ≠ []
         ∧ JS.dateParse lastFetched = Some t
         ∧ (now - t < 24 * 3600000)%Z).
Proof.
  intros r now. split; [|split].
  - intros Hfresh. unfold enrichFortification, ExternalDataWithImages.enrichFortification.
    destruct (enrichFortification_try_fresh fort s Hfresh) as [-> ->]. done.
  - intros Hstale checked.
    destruct (enrichFortification_try_stale fort s Hstale) as [Hrun Hrun'].
    split; [exact Hrun | split; [exact Hrun' |]].
    intros enriched s'. by apply enrichFortification_try_stamps.
  - intros offset Hoffset. unfold Spec.fetchedWithinADay.
    rewrite (setDate_previousDay_fixed_offset offset now Hoffset).
    destruct (FortificationProperties.get (deref s r) "lastFetched") as [[|c l]|].
    + split; [done | by intros (? & ? & [= <-] & ? & _)].
    + unfold JS.dateGt. destruct (JS.dateParse (c :: l)) as [t|] eqn:Hparse.
      * rewrite Z.ltb_lt. split.
        -- intros ?. exists (c :: l), t. split; [done |]. split; [done |].
           split; [done | lia].
        -- intros (? & t' & [= <-] & _ & Hparse' & ?).
           rewrite Hparse in Hparse'. injection Hparse' as <-. lia.
      * split; [done |]. intros (? & t' & [= <-] & _ & Hparse' & _).
        by rewrite Hparse in Hparse'.
    + split; [done | by intros (? & ? & [=] & _)].
Qed.

End EnrichmentClaims.

(** C10. The feature that enrichFortification returns holds the very
    reference to the property bag that the input feature holds, and no other
    bag of the heap is written; so, after a run in which every lookup
    answers, period, constructionStyle, description, imageUrls,
    externalLinks and lastFetched are all read through the input feature. *)
Theorem enrichFortification_shares_properties :
  (∀ (runtime : JS.Runtime) (world : ExternalData.World)
     (fort : Fortification.t ExternalData.ref) (s : ExternalData.State),
     (Fortification.properties (ExternalData.enrichFortification world fort s).1
      = Fortification.properties fort
      ∧ ∀ r, r ≠ Fortification.properties fort →
          ExternalData.heap (ExternalData.enrichFortification world fort s).2 !! r
          = ExternalData.heap s !! r)
     ∧ (Fortification.properties
          (ExternalDataWithImages.enrichFortification world fort s).1
        = Fortification.properties fort
        ∧ ∀ r, r ≠ Fortification.properties fort →
            ExternalData.heap
              (ExternalDataWithImages.enrichFortification world fort s).2 !! r
            = ExternalData.heap s !! r))
  ∧ (let before := Scenario.stateWith Scenario.referenced in
     let after :=
       (ExternalData.enrichFortification Scenario.online Scenario.fort before).2 in
     let original := ExternalData.deref before (Fortification.properties Scenario.fort) in
     let seen := ExternalData.deref after (Fortification.properties Scenario.fort) in
     FortificationProperties.fields original = Scenario.referenced
     ∧ FortificationProperties.imageUrls original = None
     ∧ FortificationProperties.externalLinks original = None
     ∧ FortificationProperties.get seen "period" = Some (js "Medieval")
     ∧ FortificationProperties.get seen "constructionStyle" = Some (js "Gothic")
     ∧ FortificationProperties.get seen "description" = Some (js "A fort.")
     ∧ FortificationProperties.imageUrls seen
       = Some [js "https://img.example/thumb.jpg"; js "https://img.example/full.jpg"]
     ∧ FortificationProperties.externalLinks seen
       = Some [ {| ExternalLink.title := js "Wikipedia";
                   ExternalLink.url := js "https://fr.wikipedia.org/wiki/Fort%20X" |} ]
     ∧ FortificationProperties.get seen "lastFetched"
       = Some (js "2026-03-29T12:00:00.000Z")).
Proof.
  split.
  - intros runtime world fort s.
    unfold ExternalData.enrichFortification, ExternalDataWithImages.enrichFortification.
    split.
    + destruct (ExternalData.enrichFortification_try world fort s)
        as [[enriched|e] s'] eqn:E; simpl.
      * split; [by rewrite (enrichFortification_try_returns world fort s enriched s') by eauto |].
        exact (touchesOnly_enrichFortification_try world fort s _ s' E).
      * split; [done |].
        exact (touchesOnly_enrichFortification_try world fort s _ s' E).
    + destruct (ExternalDataWithImages.enrichFortification_try world fort s)
        as [[enriched|e] s'] eqn:E; simpl.
      * split; [by rewrite (enrichFortification_try_returns world fort s enriched s') by eauto |].
        exact (touchesOnly_enrichFortification_try_images world fort s _ s' E).
      * split; [done |].
        exact (touchesOnly_enrichFortification_try_images world fort s _ s' E).
  - repeat split; vm_compute; reflexivity.
Qed.

Lemma enrichFortification_shares_properties_witness :
  (2 : ExternalData.ref)%positive ≠ Fortification.properties Scenario.fort
  ∧ ExternalData.heap
      (ExternalData.enrichFortification Scenario.online Scenario.fort
         (Scenario.stateWith Scenario.referenced)).2 !! 2%positive
    = ExternalData.heap (Scenario.stateWith Scenario.referenced) !! 2%positive.
Proof.
  assert ((2 : ExternalData.ref)%positive ≠ Fortification.properties Scenario.fort)
    as Hne by discriminate.
  split; [exact Hne |].
  exact (proj2 (proj1 (proj1 enrichFortification_shares_properties
                         Reference.utc Scenario.online Scenario.fort
                         (Scenario.stateWith Scenario.referenced)))
           2%positive Hne).
Defined.

(** C9, at the failing input. The Wikipedia reference of the feature has a
    title that encodeURIComponent rejects; the Wikidata lookup has answered
    before. The [try] block throws, the [catch] block returns [fort], and the
    bag that [fort] refers to already carries the period and the style (and,
    in the revision with the image search, the preset images), without a
    lastFetched. *)
Theorem enrichFortification_catch_returns_written_bag :
  let before := Scenario.stateWith Scenario.malformedTitle in
  let r := Fortification.properties Scenario.fort in
  (let run := ExternalData.enrichFortification_try Scenario.wikidataOnly Scenario.fort before in
   let result := ExternalData.enrichFortification Scenario.wikidataOnly Scenario.fort before in
   run.1 = ExternalData.Throw ExternalData.URIError
   ∧ result.1 = Scenario.fort
   ∧ FortificationProperties.get (ExternalData.deref before r) "period" = None
   ∧ FortificationProperties.get (ExternalData.deref result.2 r) "period"
     = Some (js "Medieval")
   ∧ FortificationProperties.get (ExternalData.deref result.2 r) "constructionStyle"
     = Some (js "Gothic")
   ∧ FortificationProperties.get (ExternalData.deref result.2 r) "lastFetched" = None)
  ∧ (let run := ExternalDataWithImages.enrichFortification_try
                  Scenario.wikidataOnly Scenario.fort before in
     let result := ExternalDataWithImages.enrichFortification
                     Scenario.wikidataOnly Scenario.fort before in
     run.1 = ExternalData.Throw ExternalData.URIError
     ∧ result.1 = Scenario.fort
     ∧ FortificationProperties.imageUrls (ExternalData.deref before r) = None
     ∧ FortificationProperties.imageUrls (ExternalData.deref result.2 r)
       = Some ExternalDataWithImages.fallbackImages
     ∧ FortificationProperties.get (ExternalData.deref result.2 r) "imageSource"
       = Some (js "google")
     ∧ FortificationProperties.get (ExternalData.deref result.2 r) "period"
       = Some (js "Medieval")
     ∧ FortificationProperties.get (ExternalData.deref result.2 r) "lastFetched" = None).
Proof. repeat split; vm_compute; reflexivity. Qed.

(** A run in which every lookup fails still completes normally: the feature
    comes back with the link to the article and the stamp. *)
Lemma enrichFortification_offline :
  let before := Scenario.stateWith Scenario.referenced in
  let run := ExternalData.enrichFortification_try Scenario.offline Scenario.fort before in
  run.1 = ExternalData.Normal Scenario.fort
  ∧ FortificationProperties.get
      (ExternalData.deref run.2 (Fortification.properties Scenario.fort)) "lastFetched"
    = Some (js "2026-03-29T12:00:00.000Z")
  ∧ FortificationProperties.get
      (ExternalData.deref run.2 (Fortification.properties Scenario.fort)) "period" = None
  ∧ length (ExternalData.requests run.2) = 3%nat.
Proof. repeat split; vm_compute; reflexivity. Qed.

(** C8, as worded. In the Europe/Paris zone, at noon UTC of 29 March 2026
    (the day of the change to summer time), a feature enriched 23 hours and
    a half earlier is looked up again and its lastFetched is overwritten. *)
Lemma freshness_wording_fails :
  let before := Scenario.stateWith Scenario.enrichedYesterday in
  let r := Fortification.properties Scenario.fort in
  let result :=
    @ExternalData.enrichFortification Reference.paris Scenario.wikidataOnly
      Scenario.fort before in
  let result' :=
    @ExternalDataWithImages.enrichFortification Reference.paris Scenario.wikidataOnly
      Scenario.fort before in
  FortificationProperties.get (ExternalData.deref before r) "lastFetched"
  = Some (js "2026-03-28T12:30:00.000Z")
  ∧ @JS.dateParse Reference.paris (js "2026-03-28T12:30:00.000Z") = Some 1774701000000%Z
  ∧ ExternalData.clock Scenario.wikidataOnly 0 = Scenario.noon
  ∧ Spec.within24Hours Scenario.noon 1774701000000
  ∧ ExternalData.requests result.2
    = [ js "https://www.wikidata.org/wiki/Special:EntityData/Q1.json";
        js "https://en.wikipedia.org/api/rest_v1/page/summary/Fort%20X";
        js "https://en.wikipedia.org/w/api.php?action=query&titles=Fort%20X&prop=images&format=json&origin=*" ]
  ∧ FortificationProperties.get (ExternalData.deref result.2 r) "lastFetched"
    = Some (js "2026-03-29T12:00:00.000Z")
  ∧ length (ExternalData.requests result'.2) = 4%nat
  ∧ FortificationProperties.get (ExternalData.deref result'.2 r) "lastFetched"
    = Some (js "2026-03-29T12:00:00.000Z").
Proof.
  repeat split; try (vm_compute; reflexivity); unfold Scenario.noon; lia.
Qed.

Lemma enrichFortification_freshness_witness :
  let before := Scenario.stateWith Scenario.enrichedYesterday in
  Spec.fetchedWithinADay
    (ExternalData.deref before (Fortification.properties Scenario.fort))
    (ExternalData.clock Scenario.online (ExternalData.dates before)) = true
  ∧ ExternalData.enrichFortification Scenario.online Scenario.fort before
    = (Scenario.fort, ExternalData.afterClock before).
Proof.
  assert (Spec.fetchedWithinADay
            (ExternalData.deref (Scenario.stateWith Scenario.enrichedYesterday)
               (Fortification.properties Scenario.fort))
            (ExternalData.clock Scenario.online
               (ExternalData.dates (Scenario.stateWith Scenario.enrichedYesterday)))
          = true) as Hfresh by (vm_compute; reflexivity).
  split; [exact Hfresh |].
  exact (proj1 (proj1 (enrichFortification_freshness Scenario.online Scenario.fort
                         (Scenario.stateWith Scenario.enrichedYesterday)) Hfresh)).
Defined.

(* ===================================================================== *)
(** * Further properties of the code *)
(* ===================================================================== *)

(** ** The normalizer, element by element *)

Lemma get_set_eq (p : FortificationProperties.t) (key : string) (value : jsstring) :
  FortificationProperties.get (FortificationProperties.set p key value) key = Some value.
Proof. unfold FortificationProperties.get; simpl. apply lookup_insert_eq. Qed.

Lemma fields_set_ne (p : FortificationProperties.t) (key : string) (value key' : jsstring) :
  js key ≠ key' →
  FortificationProperties.fields (FortificationProperties.set p key value) !! key'
  = FortificationProperties.fields p !! key'.
Proof. intros Hne. simpl. by apply lookup_insert_ne. Qed.

Section NormalizerElements.
Context `{!JS.Runtime}.
Import GeoJSON.

Lemma hasValidGeometry_toFeature (element : OSMElement.t) :
  hasValidGeometry (toFeature element) = Behaviour.isLocatedNode element.
Proof.
  unfold hasValidGeometry, toFeature, Behaviour.isLocatedNode; simpl.
  destruct (JS.eqb _ _); simpl; [|done].
  destruct (OSMElement.lat element) as [[]|], (OSMElement.lon element) as [[]|]; done.
Qed.

(** The bag of the feature of an element, key by key, before the display
    type is looked at: the tags, with '@id' set. *)
Lemma toFeature_fields (element : OSMElement.t) (key : jsstring) :
  key ≠ js "@id" → key ≠ js "display_type" →
  FortificationProperties.fields (Fortification.properties (toFeature element)) !! key
  = default ∅ (OSMElement.tags element) !! key.
Proof.
  intros Hid Hdisplay. unfold toFeature; simpl.
  repeat match goal with
         | |- context [match ?x with _ => _ end] => destruct x
         end;
    rewrite ?fields_set_ne by done; reflexivity.
Qed.

Lemma toFeature_id (element : OSMElement.t) :
  FortificationProperties.get (Fortification.properties (toFeature element)) "@id"
  = Some (OSMElement.type element ++ js "/" ++ JS.numberToString (OSMElement.id element)).
Proof.
  unfold toFeature, FortificationProperties.get; simpl.
  repeat match goal with
         | |- context [match ?x with _ => _ end] => destruct x
         end;
    rewrite ?fields_set_ne by done; apply lookup_insert_eq.
Qed.

End NormalizerElements.

Lemma typeMapping_displayName (key displayName : jsstring) :
  In (key, displayName) GeoJSON.typeMapping → JS.truthy (Some displayName) = true.
Proof.
  unfold GeoJSON.typeMapping. simpl In. intros Hin.
  repeat (destruct Hin as [Hin | Hin]; [by inversion Hin |]). done.
Qed.

Lemma get_set_ne (p : FortificationProperties.t) (key key' : string) (value : jsstring) :
  js key ≠ js key' →
  FortificationProperties.get (FortificationProperties.set p key value) key'
  = FortificationProperties.get p key'.
Proof. intros Hne. unfold FortificationProperties.get. by apply fields_set_ne. Qed.

Section NormalizerDisplayType.
Context `{!JS.Runtime}.
Import GeoJSON.

(** The display type of the feature of an element, read off the three
    steps that assign it. *)
Lemma toFeature_display_type (element : OSMElement.t) :
  let tags := default ∅ (OSMElement.tags element) in
  FortificationProperties.get (Fortification.properties (toFeature element)) "display_type"
  = match tags !! js "historic" with
    | Some (c :: s) =>
        match find (λ '(key, _), JS.includes (JS.toLowerCase (c :: s)) key) typeMapping with
        | Some (_, displayName) => Some displayName
        | None => Some (JS.orElse (tags !! js "display_type") (c :: s))
        end
    | _ =>
        if JS.truthy (tags !! js "display_type") then tags !! js "display_type"
        else match tags !! js "military" with
             | Some (c :: s) =>
                 if JS.eqb (JS.toLowerCase (c :: s)) (js "bunker") then Some (js "Bunker")
                 else if JS.eqb (JS.toLowerCase (c :: s)) (js "fortress")
                      then Some (js "Fortress")
                      else tags !! js "display_type"
             | _ => tags !! js "display_type"
             end
    end.
Proof.
  intros tags. unfold toFeature. cbn [Fortification.properties]. fold tags.
  set (p0 := FortificationProperties.set (FortificationProperties.ofTags tags) "@id" _).
  assert (Hp0 : FortificationProperties.get p0 "display_type" = tags !! js "display_type").
  { unfold p0. by rewrite get_set_ne. }
  destruct (tags !! js "historic") as [[|c s]|] eqn:Hhistoric.
  - rewrite Hp0. destruct (tags !! js "display_type") as [[|c' s']|] eqn:Hd; cbn [negb JS.truthy JS.orElse].
    + destruct (tags !! js "military") as [[|c s]|]; [done | | done]. cbn [negb JS.truthy JS.orElse].
      destruct (JS.eqb _ (js "bunker")); [by rewrite get_set_eq |].
      destruct (JS.eqb _ (js "fortress")); [by rewrite get_set_eq | done].
    + by destruct (tags !! js "military") as [[|c s]|].
    + destruct (tags !! js "military") as [[|c s]|]; [done | | done]. cbn [negb JS.truthy JS.orElse].
      destruct (JS.eqb _ (js "bunker")); [by rewrite get_set_eq |].
      destruct (JS.eqb _ (js "fortress")); [by rewrite get_set_eq | done].
  - destruct (find _ typeMapping) as [[key displayName]|] eqn:Hfind.
    + apply find_some in Hfind as [Hin _]. apply typeMapping_displayName in Hin.
      rewrite get_set_eq, Hin. cbn [negb JS.truthy JS.orElse].
      destruct (tags !! js "military") as [[|c' s']|]; rewrite ?get_set_eq, ?Hin;
        cbn [negb JS.truthy JS.orElse]; rewrite ?get_set_eq; done.
    + rewrite Hp0.
      destruct (tags !! js "display_type") as [[|c' s']|] eqn:Hd; cbn [negb JS.truthy JS.orElse];
        destruct (tags !! js "military") as [[|c'' s'']|];
        rewrite ?get_set_eq, ?Hp0, ?Hd; cbn [negb JS.truthy JS.orElse]; rewrite ?get_set_eq, ?Hp0, ?Hd; done.
  - rewrite Hp0. destruct (tags !! js "display_type") as [[|c' s']|] eqn:Hd; cbn [negb JS.truthy JS.orElse].
    + destruct (tags !! js "military") as [[|c s]|]; [done | | done]. cbn [negb JS.truthy JS.orElse].
      destruct (JS.eqb _ (js "bunker")); [by rewrite get_set_eq |].
      destruct (JS.eqb _ (js "fortress")); [by rewrite get_set_eq | done].
    + by destruct (tags !! js "military") as [[|c s]|].
    + destruct (tags !! js "military") as [[|c s]|]; [done | | done]. cbn [negb JS.truthy JS.orElse].
      destruct (JS.eqb _ (js "bunker")); [by rewrite get_set_eq |].
      destruct (JS.eqb _ (js "fortress")); [by rewrite get_set_eq | done].
Qed.

End NormalizerDisplayType.

Lemma startsWith_app (s p suffix : jsstring) :
  JS.startsWith s (p ++ suffix) = true → JS.startsWith s p = true.
Proof.
  revert s. induction p as [|a p IH]; intros [|b s]; simpl; try done.
  intros [-> Hrest]%andb_prop. simpl. eauto.
Qed.

Lemma includes_app (s p suffix : jsstring) :
  JS.includes s (p ++ suffix) = true → JS.includes s p = true.
Proof.
  induction s as [|b s IH].
  - by intros [-> _]%includes_in_nil%app_eq_nil.
  - change (JS.startsWith (b :: s) (p ++ suffix) || JS.includes s (p ++ suffix) = true
            → JS.startsWith (b :: s) p || JS.includes s p = true).
    intros [Hstart | Hrest]%orb_prop.
    + by rewrite (startsWith_app _ _ _ Hstart).
    + rewrite (IH Hrest). apply orb_true_r.
Qed.

Section NormalizerProperties.
Context `{!JS.Runtime}.
Import GeoJSON.

(** The two filters of the normalizer as one test on the elements. *)
Lemma convertOSMToGeoJSON_filter (osmData : OSMResponse.t) :
  convertOSMToGeoJSON osmData
  = List.map toFeature
      (List.filter (λ element, isFortification element && Behaviour.isLocatedNode element)
         (OSMResponse.elements osmData)).
Proof.
  unfold convertOSMToGeoJSON. rewrite filter_map_filter. f_equal.
  apply filter_ext. intros element. by rewrite hasValidGeometry_toFeature.
Qed.

(** X1. The normalizer outputs, in the order of the input, the features of
    the elements that pass the tag filter and are nodes with a latitude and
    a longitude that are present, non-zero and not NaN, nothing else; the
    point of each feature is the longitude, then the latitude of its
    element. *)
Theorem convertOSMToGeoJSON_located_nodes (osmData : OSMResponse.t) :
  let located :=
    List.filter (λ element, isFortification element && Behaviour.isLocatedNode element)
      (OSMResponse.elements osmData) in
  convertOSMToGeoJSON osmData = List.map toFeature located
  ∧ List.map Fortification.geometry (convertOSMToGeoJSON osmData)
    = List.map (λ element,
        Point (default JS.zero (OSMElement.lon element),
               default JS.zero (OSMElement.lat element))) located.
Proof.
  cbv zeta. rewrite convertOSMToGeoJSON_filter. split; [done |].
  rewrite List.map_map. apply map_ext_in. intros element [_ Hkeep]%filter_In.
  apply andb_prop in Hkeep as [_ Hlocated]. unfold Behaviour.isLocatedNode in Hlocated.
  unfold toFeature. cbn [Fortification.geometry]. rewrite Hlocated.
  apply andb_prop in Hlocated as [[_ Hlat]%andb_prop Hlon].
  by destruct (OSMElement.lon element), (OSMElement.lat element).
Qed.

(** X2. An element whose latitude or longitude is zero is dropped, whatever
    its tags and its other coordinate: a feed converts to the same features
    with it and without it. *)
Theorem convertOSMToGeoJSON_drops_zero_coordinate
  (before after : list OSMElement.t) (element : OSMElement.t) (coordinate : number) :
  OSMElement.lat element = Some coordinate ∨ OSMElement.lon element = Some coordinate →
  JS.isZero coordinate = true →
  convertOSMToGeoJSON {| OSMResponse.elements := before ++ element :: after |}
  = convertOSMToGeoJSON {| OSMResponse.elements := before ++ after |}.
Proof.
  intros Hcoordinate Hzero. rewrite !convertOSMToGeoJSON_filter. simpl.
  rewrite !List.filter_app. simpl.
  assert (Behaviour.isLocatedNode element = false) as ->; [|by rewrite andb_false_r].
  unfold Behaviour.isLocatedNode.
  destruct coordinate; try discriminate.
  destruct Hcoordinate as [-> | ->]; simpl;
    [apply andb_false_intro1, andb_false_r | apply andb_false_r].
Qed.

(** X3. The feature of an element carries every tag of the element under
    its own key, except that '@id' is always the element's type and number
    and that 'display_type' is assigned by the normalizer; it is a Feature
    whose id is the element's number, with no image list and no link list. *)
Theorem toFeature_keeps_tags (element : OSMElement.t) :
  let feature := toFeature element in
  let properties := Fortification.properties feature in
  Fortification.type feature = js "Feature"
  ∧ Fortification.id feature = Some (JS.numberToString (OSMElement.id element))
  ∧ FortificationProperties.get properties "@id"
    = Some (OSMElement.type element ++ js "/" ++ JS.numberToString (OSMElement.id element))
  ∧ FortificationProperties.imageUrls properties = None
  ∧ FortificationProperties.externalLinks properties = None
  ∧ ∀ key, key ≠ js "@id" → key ≠ js "display_type" →
      FortificationProperties.fields properties !! key
      = default ∅ (OSMElement.tags element) !! key.
Proof.
  cbv zeta. split_and!; [done | done | apply toFeature_id | | | apply toFeature_fields].
  - unfold toFeature; simpl.
    repeat match goal with
           | |- context [match ?x with _ => _ end] => destruct x
           end; reflexivity.
  - unfold toFeature; simpl.
    repeat match goal with
           | |- context [match ?x with _ => _ end] => destruct x
           end; reflexivity.
Qed.

(** X4. The feature of an element has a non-empty display type exactly when
    the element has a non-empty historic tag, or a non-empty display_type
    tag of its own, or a military tag that is "bunker" or "fortress" up to
    case. *)
Theorem toFeature_display_type_assigned (element : OSMElement.t) :
  let tags := default ∅ (OSMElement.tags element) in
  JS.truthy
    (FortificationProperties.get (Fortification.properties (toFeature element))
       "display_type")
  = JS.truthy (tags !! js "historic")
    || JS.truthy (tags !! js "display_type")
    || match tags !! js "military" with
       | Some (c :: s) =>
           existsb (JS.eqb (JS.toLowerCase (c :: s))) [js "bunker"; js "fortress"]
       | _ => false
       end.
Proof.
  intros tags. rewrite toFeature_display_type. fold tags.
  destruct (tags !! js "historic") as [[|c s]|] eqn:Hhistoric; cbn [JS.truthy orb].
  - destruct (tags !! js "display_type") as [[|c s]|]; cbn [JS.truthy orb]; [|done|];
      destruct (tags !! js "military") as [[|c s]|]; try done; cbn [existsb];
      do 2 (destruct (JS.eqb _ _); [done |]); done.
  - destruct (find _ typeMapping) as [[key displayName]|] eqn:Hfind.
    + apply find_some in Hfind as [Hin _]. by apply typeMapping_displayName in Hin.
    + by destruct (tags !! js "display_type") as [[|c' s']|].
  - destruct (tags !! js "display_type") as [[|c s]|]; cbn [JS.truthy orb]; [|done|];
      destruct (tags !! js "military") as [[|c s]|]; try done; cbn [existsb];
      do 2 (destruct (JS.eqb _ _); [done |]); done.
Qed.

(** X5. The first matching entry of the type table wins: a historic tag
    that contains "fort" followed by anything ("fort", "fortress",
    "fortification") up to case is displayed as "Castle" when it also
    contains "castle" and as "Fort" otherwise, so the table's entries
    "Fortress" and "Fortification" are never chosen for a historic tag. *)
Theorem toFeature_fort_shadows (element : OSMElement.t) (historic suffix : jsstring) :
  default ∅ (OSMElement.tags element) !! js "historic" = Some historic →
  JS.includes (JS.toLowerCase historic) (js "fort" ++ suffix) = true →
  FortificationProperties.get (Fortification.properties (toFeature element)) "display_type"
  = Some (if JS.includes (JS.toLowerCase historic) (js "castle")
          then js "Castle" else js "Fort").
Proof.
  intros Hhistoric Hfort. rewrite toFeature_display_type. cbv zeta. rewrite Hhistoric.
  destruct historic as [|c s].
  { rewrite JS.toLowerCase_empty in Hfort. by apply includes_in_nil in Hfort. }
  apply includes_app in Hfort.
  unfold typeMapping. cbn [find].
  destruct (JS.includes (JS.toLowerCase (c :: s)) (js "castle")); [done |].
  by rewrite Hfort.
Qed.

End NormalizerProperties.

Lemma convertOSMToGeoJSON_drops_zero_coordinate_witness :
  GeoJSON.convertOSMToGeoJSON
    {| GeoJSON.OSMResponse.elements := [Scenario.castle] ++ Scenario.equatorCastle :: [] |}
  = GeoJSON.convertOSMToGeoJSON {| GeoJSON.OSMResponse.elements := [Scenario.castle] ++ [] |}.
Proof.
  apply (convertOSMToGeoJSON_drops_zero_coordinate _ _ _ JS.zero);
    [left; reflexivity | reflexivity].
Defined.

Lemma toFeature_fort_shadows_witness :
  FortificationProperties.get
    (Fortification.properties (GeoJSON.toFeature Scenario.fortress)) "display_type"
  = Some (if JS.includes (JS.toLowerCase (js "Fortress")) (js "castle")
          then js "Castle" else js "Fort").
Proof.
  apply (toFeature_fort_shadows Scenario.fortress (js "Fortress") (js "ress"));
    vm_compute; reflexivity.
Defined.


(** ** The facet index: totals and the order of ties *)

Lemma Map_set_total (m : list (jsstring * nat)) (key : jsstring) (value : nat) :
  (list_sum (List.map snd (GeoJSON.Map_set m key value))
   + default 0 (GeoJSON.Map_get m key)
   = list_sum (List.map snd m) + value)%nat.
Proof.
  induction m as [|[k v] m IH]; simpl; [lia |].
  destruct (JS.eqb k key); simpl; lia.
Qed.

Lemma fold_Map_increment_total (values : list jsstring) (m : list (jsstring * nat)) :
  list_sum (List.map snd (fold_left GeoJSON.Map_increment values m))
  = (list_sum (List.map snd m) + length values)%nat.
Proof.
  revert m. induction values as [|v values IH]; intros m; simpl; [lia |].
  rewrite IH. unfold GeoJSON.Map_increment.
  pose proof (Map_set_total m v (default 0 (GeoJSON.Map_get m v) + 1)). lia.
Qed.

Lemma toOptions_count (prefix : string) (m : list (jsstring * nat)) :
  List.map FilterOption.count (GeoJSON.toOptions prefix m) = List.map snd m.
Proof. unfold GeoJSON.toOptions. rewrite List.map_map. apply map_ext. by intros [? ?]. Qed.

Lemma list_sum_Permutation (l l' : list nat) :
  Permutation l l' → list_sum l = list_sum l'.
Proof. induction 1; simpl; lia. Qed.

Lemma options_total (prefix : string) (observed : list jsstring) :
  Behaviour.totalCount
    (GeoJSON.Array_sort GeoJSON.byCountDescending
       (GeoJSON.toOptions prefix (fold_left GeoJSON.Map_increment observed [])))
  = length observed.
Proof.
  unfold Behaviour.totalCount.
  rewrite (list_sum_Permutation _ _
    (Permutation_map _ (Array_sort_Permutation GeoJSON.byCountDescending _))).
  by rewrite toOptions_count, fold_Map_increment_total.
Qed.

(** The options of the three groups, as they are found by id in the result
    of [generateFilters]. *)
Lemma groupOptions_generateFilters (forts : list FortificationType) :
  Behaviour.groupOptions (js "type") (GeoJSON.generateFilters forts)
  = GeoJSON.Array_sort GeoJSON.byCountDescending
      (GeoJSON.toOptions "type-"
         (fold_left GeoJSON.Map_increment (List.map Spec.typeValue forts) []))
  ∧ Behaviour.groupOptions (js "period") (GeoJSON.generateFilters forts)
    = GeoJSON.Array_sort GeoJSON.byCountDescending
        (GeoJSON.toOptions "period-"
           (fold_left GeoJSON.Map_increment (omap Spec.periodValue forts) []))
  ∧ Behaviour.groupOptions (js "region") (GeoJSON.generateFilters forts)
    = GeoJSON.Array_sort GeoJSON.byCountDescending
        (GeoJSON.toOptions "region-"
           (fold_left GeoJSON.Map_increment (omap Spec.regionValue forts) [])).
Proof.
  unfold GeoJSON.generateFilters. cbn [FilterGroup.options].
  rewrite collect_typeMap, collect_periodMap, collect_regionMap.
  cbn [GeoJSON.typeMap GeoJSON.periodMap GeoJSON.regionMap].
  set (typeOptions := GeoJSON.Array_sort _ (GeoJSON.toOptions "type-" _)).
  set (periodOptions := GeoJSON.Array_sort _ (GeoJSON.toOptions "period-" _)).
  set (regionOptions := GeoJSON.Array_sort _ (GeoJSON.toOptions "region-" _)).
  split; [done |].
  destruct periodOptions as [|o1 l1], regionOptions as [|o2 l2]; done.
Qed.

Lemma omap_nonEmpty_length (key : string) (forts : list FortificationType) :
  length (omap (λ fort, Spec.nonEmpty
                  (FortificationProperties.get (Fortification.properties fort) key)) forts)
  = length (List.filter (λ fort, JS.truthy
              (FortificationProperties.get (Fortification.properties fort) key)) forts).
Proof.
  induction forts as [|fort forts IH]; simpl; [done |].
  destruct (FortificationProperties.get _ key) as [[|c s]|]; simpl; try done.
  by f_equal.
Qed.

(** X6. In the index built from a feature list, the counts of the "type"
    group add up to the number of features, and the counts of the "period"
    and "region" groups to the number of features that have a non-empty
    period, respectively region: every feature is counted once per group. *)
Theorem generateFilters_totals (forts : list FortificationType) :
  let groups := GeoJSON.generateFilters forts in
  Behaviour.totalCount (Behaviour.groupOptions (js "type") groups) = length forts
  ∧ Behaviour.totalCount (Behaviour.groupOptions (js "period") groups)
    = length (List.filter (λ fort, JS.truthy
                (FortificationProperties.get (Fortification.properties fort) "period"))
                forts)
  ∧ Behaviour.totalCount (Behaviour.groupOptions (js "region") groups)
    = length (List.filter (λ fort, JS.truthy
                (FortificationProperties.get (Fortification.properties fort) "chpreg"))
                forts).
Proof.
  cbv zeta.
  destruct (groupOptions_generateFilters forts) as (-> & -> & ->).
  rewrite !options_total, length_map. unfold Spec.periodValue, Spec.regionValue.
  by rewrite !omap_nonEmpty_length.
Qed.

Lemma Map_get_Some_key (m : list (jsstring * nat)) (key : jsstring) (value : nat) :
  GeoJSON.Map_get m key = Some value → In key (List.map fst m).
Proof.
  induction m as [|[k v] m IH]; simpl; [done |].
  destruct (JS.eqb k key) eqn:E; [|auto]. apply eqb_spec in E. auto.
Qed.

(** The keys of a map after counting a list of values into it: its keys,
    then the new values in the order of their first occurrence. *)
Lemma fold_Map_increment_keys (values : list jsstring) (m : list (jsstring * nat)) :
  List.map fst (fold_left GeoJSON.Map_increment values m)
  = List.map fst m
    ++ List.filter (λ w, forallb (λ k, negb (JS.eqb k w)) (List.map fst m))
         (Behaviour.firstSeen values).
Proof.
  revert m. induction values as [|v values IH]; intros m; simpl.
  { by rewrite app_nil_r. }
  rewrite IH. unfold GeoJSON.Map_increment. rewrite Map_set_keys.
  destruct (GeoJSON.Map_get m v) as [n|] eqn:Hget.
  - assert (forallb (λ k, negb (JS.eqb k v)) (List.map fst m) = false) as ->.
    { apply not_true_is_false. rewrite forallb_forall. intros Hall.
      specialize (Hall v (Map_get_Some_key _ _ _ Hget)). by rewrite eqb_refl in Hall. }
    f_equal. rewrite filter_filter. apply filter_ext_in. intros w _.
    destruct (JS.eqb w v) eqn:E; [|done]. simpl.
    apply eqb_spec in E. subst w.
    apply not_true_is_false. rewrite forallb_forall. intros Hall.
    specialize (Hall v (Map_get_Some_key _ _ _ Hget)). by rewrite eqb_refl in Hall.
  - assert (forallb (λ k, negb (JS.eqb k v)) (List.map fst m) = true) as ->.
    { apply forallb_forall. intros k Hin. apply negb_true_iff, not_true_is_false.
      intros ->%eqb_spec. by apply Map_get_None in Hget. }
    rewrite <- app_assoc. simpl. do 2 f_equal.
    rewrite filter_filter. apply filter_ext. intros w.
    rewrite forallb_app. simpl. rewrite andb_true_r.
    rewrite andb_comm. f_equal.
    unfold JS.eqb. do 2 case_bool_decide; congruence.
Qed.

(** The stable sort keeps the options of one count in their order. *)
Lemma Array_sort_insert_ties (count : nat) (a : FilterOption.t) (l : list FilterOption.t) :
  List.filter (λ o, (FilterOption.count o =? count)%nat)
    (GeoJSON.Array_sort_insert GeoJSON.byCountDescending a l)
  = List.filter (λ o, (FilterOption.count o =? count)%nat) (a :: l).
Proof.
  induction l as [|b l IH]; [done |].
  cbn [GeoJSON.Array_sort_insert].
  destruct (0 <? GeoJSON.byCountDescending a b)%Z eqn:Hcompare; [|done].
  apply Z.ltb_lt in Hcompare. unfold GeoJSON.byCountDescending in Hcompare.
  cbn [List.filter] in *. rewrite IH.
  destruct (FilterOption.count a =? count)%nat eqn:Ha; [|done].
  apply Nat.eqb_eq in Ha.
  assert ((FilterOption.count b =? count)%nat = false) as ->; [|done].
  apply Nat.eqb_neq. lia.
Qed.

Lemma Array_sort_ties (count : nat) (l : list FilterOption.t) :
  List.filter (λ o, (FilterOption.count o =? count)%nat)
    (GeoJSON.Array_sort GeoJSON.byCountDescending l)
  = List.filter (λ o, (FilterOption.count o =? count)%nat) l.
Proof.
  induction l as [|a l IH]; [done |].
  unfold GeoJSON.Array_sort in *. cbn [foldr].
  rewrite Array_sort_insert_ties. cbn [List.filter]. by rewrite IH.
Qed.

Lemma options_ties (prefix : string) (observed : list jsstring) :
  Behaviour.tiesInFirstSeenOrder observed
    (GeoJSON.Array_sort GeoJSON.byCountDescending
       (GeoJSON.toOptions prefix (fold_left GeoJSON.Map_increment observed []))).
Proof.
  intros count. rewrite Array_sort_ties.
  pose proof (fold_Map_increment_keys observed []) as Hkeys. simpl in Hkeys.
  assert (List.filter (λ _ : jsstring, true) (Behaviour.firstSeen observed)
          = Behaviour.firstSeen observed) as Hall.
  { clear. induction (Behaviour.firstSeen observed); simpl; congruence. }
  rewrite Hall in Hkeys. rewrite <- Hkeys. clear Hkeys Hall.
  assert (∀ key value, In (key, value) (fold_left GeoJSON.Map_increment observed [])
            → value = Spec.occurrences key observed) as Hcounted.
  { intros key value Hin.
    apply Map_get_In in Hin; [|apply fold_Map_increment_NoDup; constructor].
    rewrite fold_Map_increment in Hin. simpl in Hin.
    destruct (Spec.occurrences key observed); [done | by injection Hin]. }
  induction (fold_left GeoJSON.Map_increment observed []) as [|[key value] m IH];
    [done |].
  simpl. rewrite <- (Hcounted key value) by (by left).
  destruct (value =? count)%nat; simpl; rewrite IH; auto; intros; apply Hcounted; by right.
Qed.

(** X7. In every group of the index, options with the same count come in
    the order in which their values first occur in the feature list: the
    counting map keeps insertion order and the sort is stable. *)
Theorem generateFilters_ties_first_seen (forts : list FortificationType) :
  let groups := GeoJSON.generateFilters forts in
  Behaviour.tiesInFirstSeenOrder (List.map Spec.typeValue forts)
    (Behaviour.groupOptions (js "type") groups)
  ∧ Behaviour.tiesInFirstSeenOrder (omap Spec.periodValue forts)
      (Behaviour.groupOptions (js "period") groups)
  ∧ Behaviour.tiesInFirstSeenOrder (omap Spec.regionValue forts)
      (Behaviour.groupOptions (js "region") groups).
Proof.
  cbv zeta.
  destruct (groupOptions_generateFilters forts) as (-> & -> & ->).
  split_and!; apply options_ties.
Qed.

(** ** The facets of the map view and of the sidebar *)

Section MapFacets.
Context `{!JS.Runtime}.
Import MapView.

(** The visible set of the map is one filter by five tests; the shortcut
    for the state without search term and filters agrees with it. *)
Lemma filteredFortifications_conjunction (fortifications : list FortificationType)
  (activeFilters : gmap jsstring (option jsstring)) (searchTerm : jsstring) :
  filteredFortifications fortifications activeFilters searchTerm
  = List.filter (λ fort,
      isNamed fort && passesSearch searchTerm fort && passesType activeFilters fort
      && passesPeriod activeFilters fort && passesRegion activeFilters fort)
      fortifications.
Proof.
  unfold filteredFortifications.
  destruct (negb (JS.truthy (Some searchTerm)) && (size activeFilters =? 0)%nat) eqn:E.
  - apply andb_prop in E as [Hterm Hsize].
    destruct searchTerm; [|discriminate].
    apply Nat.eqb_eq, map_size_empty_iff in Hsize. subst activeFilters.
    apply filter_ext. intros fort.
    unfold passesType, passesPeriod, passesRegion, activeFilter.
    rewrite !lookup_empty. simpl. by rewrite !andb_true_r.
  - apply filter_ext. intros fort.
    by destruct (isNamed fort), (passesSearch searchTerm fort),
      (passesType activeFilters fort), (passesPeriod activeFilters fort),
      (passesRegion activeFilters fort).
Qed.

(** Two filter states with the same non-empty selections for the three
    facets show the same features. *)
Lemma filteredFortifications_agree (fortifications : list FortificationType)
  (activeFilters activeFilters' : gmap jsstring (option jsstring))
  (searchTerm : jsstring) :
  (∀ key, In key ["type"; "period"; "region"]%string →
     JS.orElse (activeFilter activeFilters key) []
     = JS.orElse (activeFilter activeFilters' key) []) →
  filteredFortifications fortifications activeFilters searchTerm
  = filteredFortifications fortifications activeFilters' searchTerm.
Proof.
  intros Hagree. rewrite !filteredFortifications_conjunction.
  apply filter_ext. intros fort.
  assert (passesType activeFilters fort = passesType activeFilters' fort) as ->.
  { unfold passesType. specialize (Hagree "type"%string ltac:(simpl; tauto)).
    destruct (activeFilter activeFilters "type") as [[|? ?]|],
      (activeFilter activeFilters' "type") as [[|? ?]|];
      simpl in Hagree; try done; by simplify_eq. }
  assert (passesPeriod activeFilters fort = passesPeriod activeFilters' fort) as ->.
  { unfold passesPeriod. specialize (Hagree "period"%string ltac:(simpl; tauto)).
    destruct (activeFilter activeFilters "period") as [[|? ?]|],
      (activeFilter activeFilters' "period") as [[|? ?]|];
      simpl in Hagree; try done; by simplify_eq. }
  assert (passesRegion activeFilters fort = passesRegion activeFilters' fort) as ->.
  { unfold passesRegion. specialize (Hagree "region"%string ltac:(simpl; tauto)).
    destruct (activeFilter activeFilters "region") as [[|? ?]|],
      (activeFilter activeFilters' "region") as [[|? ?]|];
      simpl in Hagree; try done; by simplify_eq. }
  done.
Qed.

(** X8. A selection in a group other than "type", "period" and "region"
    changes nothing on the map: the visible set is the same with it and
    without it, for every search term and every other selection. *)
Theorem filteredFortifications_ignores_unknown_group
  (fortifications : list FortificationType)
  (activeFilters : gmap jsstring (option jsstring)) (searchTerm : jsstring)
  (groupId : jsstring) (value : option jsstring) :
  groupId ≠ js "type" → groupId ≠ js "period" → groupId ≠ js "region" →
  filteredFortifications fortifications (<[groupId := value]> activeFilters) searchTerm
  = filteredFortifications fortifications activeFilters searchTerm.
Proof.
  intros Htype Hperiod Hregion. apply filteredFortifications_agree.
  intros key Hkey. unfold activeFilter.
  rewrite lookup_insert_ne; [done |].
  simpl in Hkey. destruct Hkey as [<- | [<- | [<- | []]]]; congruence.
Qed.

(** X9. A group whose selection is null or the empty string filters
    nothing: the map shows what it shows when the group is absent, and a
    deselection made through the sidebar, which removes the key, has the
    same effect. *)
Theorem filteredFortifications_empty_selection
  (fortifications : list FortificationType)
  (activeFilters : gmap jsstring (option jsstring)) (searchTerm : jsstring)
  (groupId : jsstring) :
  let shown filters := filteredFortifications fortifications filters searchTerm in
  shown (<[groupId := None]> activeFilters) = shown (delete groupId activeFilters)
  ∧ shown (<[groupId := Some []]> activeFilters) = shown (delete groupId activeFilters)
  ∧ shown (Sidebar.handleFilterChange activeFilters groupId None)
    = shown (delete groupId activeFilters).
Proof.
  cbv zeta. split_and!; apply filteredFortifications_agree; intros key _;
    unfold activeFilter, Sidebar.handleFilterChange;
    (destruct (decide (groupId = js key)) as [-> | Hne];
     [ rewrite ?lookup_delete_eq, ?lookup_insert_eq; done
     | rewrite ?delete_insert_eq, ?lookup_delete_ne, ?lookup_insert_ne by done; done ]).
Qed.

End MapFacets.

Lemma filteredFortifications_ignores_unknown_group_witness :
  MapView.filteredFortifications [Scenario.named (js "Fort X")]
    (<[js "style" := Some (js "Gothic")]> ∅) []
  = MapView.filteredFortifications [Scenario.named (js "Fort X")] ∅ [].
Proof.
  apply (filteredFortifications_ignores_unknown_group
           [Scenario.named (js "Fort X")] ∅ [] (js "style") (Some (js "Gothic")));
    vm_compute; discriminate.
Defined.

(** X10. What the sidebar hands over after a change of one group: the
    group holds the selected value, or is absent after a deselection, every
    other group is as before, and selecting a value and then deselecting it
    leaves the filters without the group. *)
Theorem handleFilterChange_lookup
  (activeFilters : gmap jsstring (option jsstring)) (groupId : jsstring)
  (value : option jsstring) :
  (∀ key, Sidebar.handleFilterChange activeFilters groupId value !! key
          = if decide (key = groupId)
            then match value with Some v => Some (Some v) | None => None end
            else activeFilters !! key)
  ∧ (∀ selected,
       Sidebar.handleFilterChange
         (Sidebar.handleFilterChange activeFilters groupId (Some selected)) groupId None
       = delete groupId activeFilters).
Proof.
  split.
  - intros key. unfold Sidebar.handleFilterChange.
    destruct (decide (key = groupId)) as [-> | Hne], value as [v|];
      rewrite ?delete_insert_eq, ?lookup_delete_eq, ?lookup_insert_eq,
        ?lookup_delete_ne, ?lookup_insert_ne by done; done.
  - intros selected. unfold Sidebar.handleFilterChange.
    by rewrite insert_insert_eq, delete_insert_eq.
Qed.

(** ** The list of the sidebar against the map *)

Section SidebarList.
Context `{!JS.Runtime}.
Variable localeCompare : jsstring → jsstring → Z.
Import MapView.

Lemma fold_applyFacet (entries : list (jsstring * option jsstring))
  (filtered : list FortificationType) :
  fold_left Sidebar.applyFacet entries filtered
  = List.filter (λ fort, forallb (Behaviour.entryPasses fort) entries) filtered.
Proof.
  revert filtered. induction entries as [|[key value] entries IH]; intros filtered.
  - simpl. induction filtered; simpl; congruence.
  - cbn [fold_left]. rewrite IH. unfold Sidebar.applyFacet.
    destruct value as [[|c v]|]; cbn [forallb Behaviour.entryPasses]; try done.
    by rewrite filter_filter.
Qed.

(** The successive filters of the list commute: the order in which the
    entries of the active filters are visited does not matter. *)
Lemma fold_applyFacet_Permutation (entries entries' : list (jsstring * option jsstring))
  (filtered : list FortificationType) :
  Permutation entries entries' →
  fold_left Sidebar.applyFacet entries filtered
  = fold_left Sidebar.applyFacet entries' filtered.
Proof.
  intros Hperm. rewrite !fold_applyFacet. apply filter_ext. intros fort.
  apply eq_true_iff_eq. rewrite !forallb_forall.
  split; intros Hall entry Hin; apply Hall;
    [symmetry in Hperm |]; by eapply Permutation_in.
Qed.

Lemma entries_pass (activeFilters : gmap jsstring (option jsstring))
  (fort : FortificationType) :
  forallb (Behaviour.entryPasses fort) (map_to_list activeFilters)
  = passesType activeFilters fort && passesRegion activeFilters fort.
Proof.
  apply eq_true_iff_eq. rewrite forallb_forall, andb_true_iff. split.
  - intros Hall. split.
    + unfold passesType, activeFilter.
      destruct (activeFilters !! js "type") as [[[|c v]|]|] eqn:Hlookup; try done.
      apply elem_of_map_to_list, list_elem_of_In in Hlookup.
      by apply Hall in Hlookup.
    + unfold passesRegion, activeFilter.
      destruct (activeFilters !! js "region") as [[[|c v]|]|] eqn:Hlookup; try done.
      apply elem_of_map_to_list, list_elem_of_In in Hlookup.
      by apply Hall in Hlookup.
  - intros [Htype Hregion] [key value] Hin.
    apply list_elem_of_In, elem_of_map_to_list in Hin.
    destruct value as [[|c v]|]; try done.
    unfold Behaviour.entryPasses, Sidebar.matchesFacet.
    destruct (JS.eqb key (js "type")) eqn:Etype.
    { apply eqb_spec in Etype. subst key.
      unfold passesType, activeFilter in Htype. by rewrite Hin in Htype. }
    destruct (JS.eqb key (js "region")) eqn:Eregion; [|done].
    apply eqb_spec in Eregion. subst key.
    unfold passesRegion, activeFilter in Hregion. by rewrite Hin in Hregion.
Qed.

(** X11. The list of the sidebar shows, sorted by name, exactly what the
    map shows for the same search term and the same filters with the
    "period" group taken out: the list applies the name filter, the search
    and the "type" and "region" facets as the map does, and ignores every
    other group, the period included. *)
Theorem sidebar_list_is_map_without_period (fortifications : list FortificationType)
  (activeFilters : gmap jsstring (option jsstring)) (searchTerm : jsstring) :
  Sidebar.filteredFortifications localeCompare fortifications activeFilters searchTerm
  = GeoJSON.Array_sort (λ a b, localeCompare (nameOf a) (nameOf b))
      (filteredFortifications fortifications (delete (js "period") activeFilters)
         searchTerm).
Proof.
  unfold Sidebar.filteredFortifications. cbv zeta. f_equal.
  rewrite filteredFortifications_conjunction, fold_applyFacet.
  assert (match searchTerm with
          | [] => List.filter isNamed fortifications
          | _ :: _ =>
              List.filter (Sidebar.matchesSearch searchTerm)
                (List.filter isNamed fortifications)
          end
          = List.filter (λ fort, isNamed fort && passesSearch searchTerm fort)
              fortifications) as ->.
  { destruct searchTerm as [|c term].
    - apply filter_ext. intros fort. by rewrite andb_true_r.
    - rewrite filter_filter. apply filter_ext. intros fort. f_equal.
      unfold Sidebar.matchesSearch, passesSearch.
      by destruct (JS.includes _ _), (JS.includes _ _). }
  rewrite filter_filter. apply filter_ext. intros fort.
  rewrite entries_pass.
  assert (passesPeriod (delete (js "period") activeFilters) fort = true) as ->.
  { unfold passesPeriod, activeFilter. by rewrite lookup_delete_eq. }
  assert (passesType (delete (js "period") activeFilters) fort
          = passesType activeFilters fort) as ->.
  { unfold passesType, activeFilter. by rewrite lookup_delete_ne. }
  assert (passesRegion (delete (js "period") activeFilters) fort
          = passesRegion activeFilters fort) as ->.
  { unfold passesRegion, activeFilter. by rewrite lookup_delete_ne. }
  by rewrite andb_true_r, !andb_assoc.
Qed.

End SidebarList.

(** ** From the feed to the map and to the index *)

Section FeedToView.
Context `{!JS.Runtime}.
Import GeoJSON.

Lemma toFeature_get (element : OSMElement.t) (key : string) :
  js key ≠ js "@id" → js key ≠ js "display_type" →
  FortificationProperties.get (Fortification.properties (toFeature element)) key
  = Behaviour.tagsOf element !! js key.
Proof. intros. unfold FortificationProperties.get. by apply toFeature_fields. Qed.

Lemma isNamed_toFeature (element : OSMElement.t) :
  MapView.isNamed (toFeature element) = Behaviour.hasNameTag element.
Proof.
  unfold MapView.isNamed, MapView.nameOf, Behaviour.hasNameTag. cbv zeta.
  by rewrite !toFeature_get.
Qed.

Lemma typeValue_toFeature (element : OSMElement.t) :
  Spec.typeValue (toFeature element) = Behaviour.typeTag element.
Proof.
  unfold Spec.typeValue, Behaviour.typeTag. cbv zeta.
  by rewrite !toFeature_get.
Qed.

(** X12. What the map shows of an Overpass feed when nothing is searched or
    selected: the features of the elements that pass the tag filter, are
    located nodes and carry a name or chpdeno tag that is not blank, in the
    order of the feed. *)
Theorem map_of_feed (osmData : OSMResponse.t) :
  MapView.filteredFortifications (convertOSMToGeoJSON osmData) ∅ []
  = List.map toFeature
      (List.filter (λ element,
         isFortification element && Behaviour.isLocatedNode element
         && Behaviour.hasNameTag element)
         (OSMResponse.elements osmData)).
Proof.
  rewrite filteredFortifications_conjunction, convertOSMToGeoJSON_filter.
  induction (OSMResponse.elements osmData) as [|element elements IH]; [done |].
  cbn [List.filter].
  destruct (isFortification element && Behaviour.isLocatedNode element);
    cbn [andb List.map List.filter]; [|done].
  rewrite IH, isNamed_toFeature.
  unfold MapView.passesType, MapView.passesPeriod, MapView.passesRegion,
    MapView.activeFilter, MapView.passesSearch.
  rewrite !lookup_empty. cbn [andb]. rewrite !andb_true_r.
  by destruct (Behaviour.hasNameTag element).
Qed.

(** X13. The "type" group of the index of an Overpass feed counts the
    chptico tag, or else the historic tag, of the elements that are kept,
    as written in the feed, and "Unknown" for an element kept for its
    military or defence tag alone; the display type that the normalizer
    assigns is not what is counted. *)
Theorem index_of_feed (osmData : OSMResponse.t) :
  Spec.indexes
    (List.map Behaviour.typeTag
       (List.filter (λ element, isFortification element && Behaviour.isLocatedNode element)
          (OSMResponse.elements osmData)))
    (Behaviour.groupOptions (js "type")
       (generateFilters (convertOSMToGeoJSON osmData))).
Proof.
  destruct (groupOptions_generateFilters (convertOSMToGeoJSON osmData)) as (-> & _).
  rewrite convertOSMToGeoJSON_filter, List.map_map.
  rewrite (map_ext _ _ typeValue_toFeature).
  apply (options_index "type-").
Qed.

End FeedToView.

(** ** The hook: loading the feed and enriching one feature *)

Section HookProperties.
Context `{!JS.Runtime} (world : ExternalData.World).
Import UseGeoJSON.

Lemma readable_stored (forts : list FortificationType) :
  readable (List.map stored forts) = Some forts.
Proof.
  induction forts as [|fort forts IH]; [done |].
  simpl. rewrite IH. by destruct fort.
Qed.

(** X14. After the loader has run, on whatever the request settled to, the
    hook is no longer loading and its enrichment flag is as before. Either
    it reports no error, every feature it holds has properties and its
    filters are the index of these features; or it reports an error and
    keeps the filters it had, and then it holds the features it had, unless
    the feed was a feature collection with a feature without properties:
    that collection is stored, beside the old filters, because the features
    are stored before the index is built. *)
Theorem loadGeoJSON_outcome (typeErrorMessage : jsstring) (response : FeedResponse)
  (hook : Hook.t (option FortificationProperties.t)) :
  let hook' := loadGeoJSON typeErrorMessage response hook in
  Hook.loading hook' = false
  ∧ Hook.isDataEnriched hook' = Hook.isDataEnriched hook
  ∧ match Hook.error hook' with
    | None =>
        ∃ typed, readable (Hook.fortifications hook') = Some typed
                 ∧ Hook.filters hook' = GeoJSON.generateFilters typed
    | Some _ =>
        Hook.filters hook' = Hook.filters hook
        ∧ (Hook.fortifications hook' = Hook.fortifications hook
           ∨ readable (Hook.fortifications hook') = None
             ∧ ∃ status statusText data,
                 response = Answered true status statusText (Parsed data)
                 ∧ Feed.type data = Some (js "FeatureCollection")
                 ∧ Feed.features data = Some (Hook.fortifications hook'))
    end.
Proof.
  cbv zeta. unfold loadGeoJSON, readFeed.
  destruct response as [message | ok status statusText body]; simpl;
    [split_and!; [done | done | done | by left] |].
  destruct ok; simpl; [| split_and!; [done | done | done | by left]].
  destruct body as [message | data]; simpl;
    [split_and!; [done | done | done | by left] |].
  destruct data as [type features elements]. simpl.
  case_bool_decide as Htype.
  - destruct features as [features|].
    + unfold store. destruct (readable features) as [typed|] eqn:Hreadable; simpl.
      * split_and!; [done | done |]. by exists typed.
      * split_and!; [done | done | done |]. right. split; [done |].
        by eexists _, _, _.
    + destruct elements as [elements|]; simpl.
      * unfold store. rewrite readable_stored. simpl.
        split_and!; [done | done |]. eexists. split; [apply readable_stored | done].
      * split_and!; [done | done | done | by left].
  - destruct features as [features|], elements as [elements|]; simpl;
      try (split_and!; [done | done | done | by left]);
      unfold store; rewrite readable_stored; simpl;
      (split_and!; [done | done |]; eexists; split; [apply readable_stored | done]).
Qed.





End HookProperties.

(** A feature collection with a feature without properties: the loader
    reports the TypeError, and holds the collection beside the filters it
    had. *)
Lemma loadGeoJSON_stores_before_indexing :
  let hook := UseGeoJSON.loadGeoJSON (js "TypeError") Scenario.brokenCollection
                Scenario.initialHook in
  UseGeoJSON.Hook.error hook = Some (js "TypeError")
  ∧ length (UseGeoJSON.Hook.fortifications hook) = 1%nat
  ∧ UseGeoJSON.Hook.filters hook = []
  ∧ UseGeoJSON.Hook.loading hook = false.
Proof. cbv zeta. repeat split. Qed.

(** ** The requests of an enrichment *)

Section RequestFacts.
Import ExternalData.
Context (allowed : jsstring → bool).

Lemma emits_weaken {A} (n n' : nat) (m : Async A) :
  Behaviour.emits n allowed m → (n ≤ n')%nat → Behaviour.emits n' allowed m.
Proof.
  intros Hm Hle s c s' Hrun. destruct (Hm s c s' Hrun) as (sent & ? & ? & ?).
  exists sent. split_and!; [done | lia | done].
Qed.

Lemma emits_silent {A} (m : Async A) :
  (∀ s c s', m s = (c, s') → requests s' = requests s) → Behaviour.emits 0 allowed m.
Proof.
  intros Hm s c s' Hrun. exists []. rewrite app_nil_r. split_and!; eauto.
Qed.

Lemma emits_ret {A} (a : A) : Behaviour.emits 0 allowed (ret a).
Proof. apply emits_silent. by intros s c s' [= _ <-]. Qed.

Lemma emits_throw {A} e : Behaviour.emits 0 allowed (@throw A e).
Proof. apply emits_silent. by intros s c s' [= _ <-]. Qed.

Lemma emits_read r : Behaviour.emits 0 allowed (read r).
Proof. apply emits_silent. by intros s c s' [= _ <-]. Qed.

Lemma emits_write r f : Behaviour.emits 0 allowed (write r f).
Proof. apply emits_silent. by intros s c s' [= _ <-]. Qed.

Lemma emits_modify r f : Behaviour.emits 0 allowed (modify r f).
Proof.
  apply emits_silent. intros s c s' Hrun. unfold modify in Hrun.
  by destruct (f (deref s r)); injection Hrun as _ <-.
Qed.

Lemma emits_encodeURIComponent text : Behaviour.emits 0 allowed (encodeURIComponent text).
Proof.
  unfold encodeURIComponent.
  destruct (JS.encodeURIComponent text); [apply emits_ret | apply emits_throw].
Qed.

Lemma emits_newDate world : Behaviour.emits 0 allowed (newDate world).
Proof. apply emits_silent. by intros s c s' [= _ <-]. Qed.

Lemma emits_json {A} (response : Response.t A) : Behaviour.emits 0 allowed (json response).
Proof.
  unfold json. destruct (Response.body response); [apply emits_ret | apply emits_throw].
Qed.

Lemma emits_fetch {A} world net url :
  allowed url = true → Behaviour.emits 1 allowed (@fetch world A net url).
Proof.
  intros Hurl s c s' Hrun. unfold fetch in Hrun. exists [url].
  destruct (net _ _ _); injection Hrun as _ <-; simpl; by rewrite Hurl.
Qed.

Lemma emits_bind {A B} (n c : nat) (m : Async A) (k : A → Async B) :
  Behaviour.emits c allowed m → (c ≤ n)%nat →
  (∀ a, Behaviour.emits (n - c) allowed (k a)) →
  Behaviour.emits n allowed (bind m k).
Proof.
  intros Hm Hle Hk s c' s' Hrun. unfold bind in Hrun.
  destruct (m s) as [[a|e] s1] eqn:E.
  - destruct (Hm _ _ _ E) as (sent1 & Hs1 & Hn1 & Ha1).
    destruct (Hk a _ _ _ Hrun) as (sent2 & Hs2 & Hn2 & Ha2).
    exists (sent1 ++ sent2). rewrite Hs2, Hs1, <- app_assoc, length_app, forallb_app.
    split_and!; [done | lia | by rewrite Ha1, Ha2].
  - injection Hrun as _ <-. destruct (Hm _ _ _ E) as (sent1 & Hs1 & Hn1 & Ha1).
    exists sent1. split_and!; [done | lia | done].
Qed.

Lemma emits_bind_assoc {A B C} (n : nat) (m : Async A) (k : A → Async B)
  (k' : B → Async C) :
  Behaviour.emits n allowed (bind m (λ a, bind (k a) k')) →
  Behaviour.emits n allowed (bind (bind m k) k').
Proof.
  intros Hm s c s' Hrun. apply (Hm s c s'). rewrite <- Hrun. unfold bind.
  by destruct (m s) as [[a|e] s1].
Qed.

Lemma emits_tryCatch {A} (n : nat) (m : Async A) (h : Error → Async A) :
  Behaviour.emits n allowed m → (∀ e, Behaviour.emits 0 allowed (h e)) →
  Behaviour.emits n allowed (tryCatch m h).
Proof.
  intros Hm Hh s c' s' Hrun. unfold tryCatch in Hrun.
  destruct (m s) as [[a|e] s1] eqn:E.
  - injection Hrun as _ <-. eauto.
  - destruct (Hm _ _ _ E) as (sent1 & Hs1 & Hn1 & Ha1).
    destruct (Hh e _ _ _ Hrun) as (sent2 & Hs2 & Hn2 & Ha2).
    exists (sent1 ++ sent2). rewrite Hs2, Hs1, <- app_assoc, length_app, forallb_app.
    split_and!; [done | lia | by rewrite Ha1, Ha2].
Qed.

Lemma mapAsync_emits {A B} (k : nat) (f : A → Async B) (l : list A) :
  (∀ a, Behaviour.emits k allowed (f a)) →
  ∀ s cs s', mapAsync f l s = (cs, s') →
    ∃ sent, requests s' = requests s ++ sent
            ∧ (length sent ≤ length l * k)%nat
            ∧ forallb allowed sent = true.
Proof.
  intros Hf. induction l as [|a l IH]; intros s cs s' Hrun; simpl in Hrun.
  - injection Hrun as _ <-. exists []. by rewrite app_nil_r.
  - destruct (f a s) as [c s1] eqn:E1. destruct (mapAsync f l s1) as [cs' s2] eqn:E2.
    injection Hrun as _ <-.
    destruct (Hf a _ _ _ E1) as (sent1 & Hs1 & Hn1 & Ha1).
    destruct (IH _ _ _ E2) as (sent2 & Hs2 & Hn2 & Ha2).
    exists (sent1 ++ sent2). rewrite Hs2, Hs1, <- app_assoc, length_app, forallb_app.
    split_and!; [done | simpl; lia | by rewrite Ha1, Ha2].
Qed.

Lemma emits_Promise_all {A B} (n k : nat) (f : A → Async B) (l : list A) :
  (∀ a, Behaviour.emits k allowed (f a)) → (length l * k ≤ n)%nat →
  Behaviour.emits n allowed (Promise_all f l).
Proof.
  intros Hf Hle s c s' Hrun. unfold Promise_all in Hrun.
  destruct (mapAsync f l s) as [cs s1] eqn:E. injection Hrun as _ <-.
  destruct (mapAsync_emits k f l Hf _ _ _ E) as (sent & ? & ? & ?).
  exists sent. split_and!; [done | lia | done].
Qed.

End RequestFacts.

Create HintDb emits.
#[local] Hint Resolve emits_ret emits_throw emits_read emits_write emits_modify
  emits_encodeURIComponent emits_newDate emits_json : emits.

(** One step of a request count: a known computation within the budget, a
    case distinction, also at the head of a sequence, a nested sequence
    flattened, a sequence that hands the rest of the budget on, or a [try]
    whose handler requests nothing. *)
Ltac emits_step :=
  first
    [ progress cbv zeta
    | solve [ eapply emits_weaken; [ solve [eauto with emits] | lia ] ]
    | match goal with
      | |- Behaviour.emits _ _ (match ?x with _ => _ end) => destruct x
      | |- Behaviour.emits _ _ (if ?b then _ else _) => destruct b
      | |- Behaviour.emits _ _ (ExternalData.bind (match ?x with _ => _ end) _) =>
          destruct x
      | |- Behaviour.emits _ _ (ExternalData.bind (if ?b then _ else _) _) =>
          destruct b
      end
    | lazymatch goal with
      | |- Behaviour.emits _ _ (ExternalData.bind (ExternalData.bind _ _) _) =>
          apply emits_bind_assoc
      | |- Behaviour.emits _ _ (ExternalData.bind _ _) =>
          eapply emits_bind;
            [ solve [eauto with emits] | lia | intros ?; cbn [Nat.sub] ]
      | |- Behaviour.emits _ _ (ExternalData.tryCatch _ _) =>
          apply emits_tryCatch; [| intros ?]
      end ].

Ltac emits := repeat emits_step.

Lemma startsWith_prefix (p s : jsstring) : JS.startsWith (p ++ s) p = true.
Proof. induction p as [|a p IH]; simpl; [apply startsWith_nil |]. by rewrite N.eqb_refl. Qed.

Lemma wikiHost_wikidata (rest : jsstring) :
  Behaviour.wikiHost (js "https://www.wikidata.org/wiki/Special:EntityData/" ++ rest)
  = true.
Proof. unfold Behaviour.wikiHost. by rewrite startsWith_prefix. Qed.

Lemma wikiHost_summary (rest : jsstring) :
  Behaviour.wikiHost (js "https://en.wikipedia.org/api/rest_v1/page/summary/" ++ rest)
  = true.
Proof. reflexivity. Qed.

Lemma wikiHost_query (rest : jsstring) :
  Behaviour.wikiHost (js "https://en.wikipedia.org/w/api.php?action=query&titles=" ++ rest)
  = true.
Proof. reflexivity. Qed.

#[local] Hint Extern 1 (Behaviour.emits _ _ (ExternalData.fetch _ _ _)) =>
  apply emits_fetch;
  match goal with
  | H : ∀ url, Behaviour.wikiHost url = true → _ |- _ =>
      apply H;
      lazymatch goal with
      | |- context [js "https://www.wikidata.org/wiki/Special:EntityData/"] =>
          apply wikiHost_wikidata
      | |- context [js "https://en.wikipedia.org/api/rest_v1/page/summary/"] =>
          apply wikiHost_summary
      | |- context [js "https://en.wikipedia.org/w/api.php?action=query&titles="] =>
          apply wikiHost_query
      end
  end : emits.

Section EnrichmentRequests.
Context `{!JS.Runtime} (world : ExternalData.World).
Context (allowed : jsstring → bool).
Hypothesis wikiAllowed : ∀ url, Behaviour.wikiHost url = true → allowed url = true.
Import ExternalData.

Lemma emits_fetchWikipediaData title :
  Behaviour.emits 1 allowed (fetchWikipediaData world title).
Proof. unfold fetchWikipediaData. emits. Qed.

Lemma emits_fetchWikidataData wikidataId :
  Behaviour.emits 1 allowed (fetchWikidataData world wikidataId).
Proof. unfold fetchWikidataData. emits. Qed.

Lemma emits_imageUrlOf title : Behaviour.emits 1 allowed (imageUrlOf world title).
Proof. unfold imageUrlOf. emits. Qed.

Lemma emits_fetchWikipediaImages title :
  Behaviour.emits 6 allowed (fetchWikipediaImages world title).
Proof.
  unfold fetchWikipediaImages. emits.
  eapply emits_bind; [| | intros ?; emits].
  - apply (emits_Promise_all allowed 5 1); [apply emits_imageUrlOf |].
    rewrite length_take. lia.
  - lia.
Qed.

#[local] Hint Resolve emits_fetchWikipediaData emits_fetchWikidataData
  emits_fetchWikipediaImages : emits.

Lemma emits_processWikidata r : Behaviour.emits 1 allowed (processWikidata world r).
Proof. unfold processWikidata. emits. Qed.

Lemma emits_addWikipediaLink r wikipedia title :
  Behaviour.emits 0 allowed (addWikipediaLink r wikipedia title).
Proof. unfold addWikipediaLink. emits. Qed.

#[local] Hint Resolve emits_processWikidata emits_addWikipediaLink : emits.

Lemma emits_processWikipedia r : Behaviour.emits 7 allowed (processWikipedia world r).
Proof. unfold processWikipedia. emits. Qed.

Lemma emits_fetchedRecently r : Behaviour.emits 0 allowed (fetchedRecently world r).
Proof. unfold fetchedRecently. emits. Qed.

Lemma emits_stampLastFetched r : Behaviour.emits 0 allowed (stampLastFetched world r).
Proof. unfold stampLastFetched. emits. Qed.

#[local] Hint Resolve emits_processWikipedia emits_fetchedRecently
  emits_stampLastFetched : emits.

Lemma emits_enrichFortification_try fort :
  Behaviour.emits 8 allowed (enrichFortification_try world fort).
Proof. unfold enrichFortification_try. emits. Qed.

End EnrichmentRequests.

Lemma wikiOrCommonsHost_wiki (url : jsstring) :
  Behaviour.wikiHost url = true → Behaviour.wikiOrCommonsHost url = true.
Proof. unfold Behaviour.wikiOrCommonsHost. by intros ->. Qed.

Lemma wikiOrCommonsHost_info (rest : jsstring) :
  Behaviour.wikiOrCommonsHost
    (js "https://commons.wikimedia.org/w/api.php?action=query&titles=File:" ++ rest)
  = true.
Proof. reflexivity. Qed.

Lemma wikiOrCommonsHost_search (rest : jsstring) :
  Behaviour.wikiOrCommonsHost
    (js "https://commons.wikimedia.org/w/api.php?action=query&list=search&srsearch="
     ++ rest)
  = true.
Proof. reflexivity. Qed.

#[local] Hint Resolve wikiOrCommonsHost_wiki emits_fetchWikipediaData
  emits_fetchWikidataData emits_fetchWikipediaImages emits_processWikidata
  emits_addWikipediaLink emits_fetchedRecently emits_stampLastFetched : emits.

#[local] Hint Extern 1
  (Behaviour.emits _ Behaviour.wikiOrCommonsHost (ExternalData.fetch _ _ _)) =>
  apply emits_fetch;
  lazymatch goal with
  | |- context [js "https://commons.wikimedia.org/w/api.php?action=query&titles=File:"] =>
      apply wikiOrCommonsHost_info
  | |- context [js "https://commons.wikimedia.org/w/api.php?action=query&list=search&srsearch="] =>
      apply wikiOrCommonsHost_search
  end : emits.

Section EnrichmentRequestsWithImages.
Context `{!JS.Runtime} (world : ExternalData.World).
Import ExternalData ExternalDataWithImages.

Lemma emits_commonsImageOf title :
  Behaviour.emits 1 Behaviour.wikiOrCommonsHost (commonsImageOf world title).
Proof. unfold commonsImageOf. emits. Qed.

Lemma emits_searchWikimediaCommons searchTerm :
  Behaviour.emits 6 Behaviour.wikiOrCommonsHost (searchWikimediaCommons world searchTerm).
Proof.
  unfold searchWikimediaCommons. emits.
  eapply emits_bind; [| | intros ?; emits].
  - apply (emits_Promise_all _ 5 1); [apply emits_commonsImageOf |].
    rewrite length_take. lia.
  - lia.
Qed.

#[local] Hint Resolve emits_searchWikimediaCommons : emits.

Lemma emits_fetchGoogleImages searchTerm :
  Behaviour.emits 6 Behaviour.wikiOrCommonsHost (fetchGoogleImages world searchTerm).
Proof. unfold fetchGoogleImages. emits. Qed.

#[local] Hint Resolve emits_fetchGoogleImages : emits.

Lemma emits_processImages fort :
  Behaviour.emits 6 Behaviour.wikiOrCommonsHost (processImages world fort).
Proof. unfold processImages. emits. Qed.

Lemma emits_processWikipedia_images r :
  Behaviour.emits 7 Behaviour.wikiOrCommonsHost
    (ExternalDataWithImages.processWikipedia world r).
Proof. unfold ExternalDataWithImages.processWikipedia. emits. Qed.

#[local] Hint Resolve emits_processImages emits_processWikipedia_images : emits.

Lemma emits_enrichFortification_try_images fort :
  Behaviour.emits 14 Behaviour.wikiOrCommonsHost
    (ExternalDataWithImages.enrichFortification_try world fort).
Proof. unfold ExternalDataWithImages.enrichFortification_try. emits. Qed.

(** X16. An enrichment sends at most 8 requests, all of them to the entity
    data of wikidata.org or to en.wikipedia.org; in the revision with the
    image search it sends at most 14, to these and to the API of
    commons.wikimedia.org. Requests already logged stay in the log. *)
Theorem enrichFortification_requests (fort : Fortification.t ref) (s : State) :
  (∃ sent,
     requests (ExternalData.enrichFortification world fort s).2 = requests s ++ sent
     ∧ (length sent ≤ 8)%nat
     ∧ forallb Behaviour.wikiHost sent = true)
  ∧ (∃ sent,
       requests (ExternalDataWithImages.enrichFortification world fort s).2
       = requests s ++ sent
       ∧ (length sent ≤ 14)%nat
       ∧ forallb Behaviour.wikiOrCommonsHost sent = true).
Proof.
  split.
  - unfold ExternalData.enrichFortification.
    destruct (ExternalData.enrichFortification_try world fort s) as [[enriched|e] s'] eqn:E;
      simpl; by eapply (emits_enrichFortification_try world Behaviour.wikiHost).
  - unfold ExternalDataWithImages.enrichFortification.
    destruct (ExternalDataWithImages.enrichFortification_try world fort s)
      as [[enriched|e] s'] eqn:E;
      simpl; by eapply emits_enrichFortification_try_images.
Qed.

End EnrichmentRequestsWithImages.

(** ** What an enrichment does to the bag of its feature *)

Section EvolutionFacts.
Import ExternalData.
Context (R : FortificationProperties.t → FortificationProperties.t → Prop).
Hypothesis R_refl : ∀ p, R p p.
Hypothesis R_trans : ∀ p1 p2 p3, R p1 p2 → R p2 p3 → R p1 p3.

Lemma evolves_still {A} r (m : Async A) :
  (∀ s c s', m s = (c, s') → heap s' = heap s) → Behaviour.evolves R r m.
Proof.
  intros Hm s c s' Hrun. unfold deref. by rewrite (Hm _ _ _ Hrun).
Qed.

Lemma evolves_ret {A} r (a : A) : Behaviour.evolves R r (ret a).
Proof. apply evolves_still. by intros s c s' [= _ <-]. Qed.

Lemma evolves_throw {A} r e : Behaviour.evolves R r (@throw A e).
Proof. apply evolves_still. by intros s c s' [= _ <-]. Qed.

Lemma evolves_read r r0 : Behaviour.evolves R r (read r0).
Proof. apply evolves_still. by intros s c s' [= _ <-]. Qed.

Lemma evolves_encodeURIComponent r text :
  Behaviour.evolves R r (encodeURIComponent text).
Proof.
  unfold encodeURIComponent.
  destruct (JS.encodeURIComponent text); [apply evolves_ret | apply evolves_throw].
Qed.

Lemma evolves_newDate world r : Behaviour.evolves R r (newDate world).
Proof. apply evolves_still. by intros s c s' [= _ <-]. Qed.

Lemma evolves_fetch {A} world r net url :
  Behaviour.evolves R r (@fetch world A net url).
Proof.
  apply evolves_still. intros s c s' Hrun. unfold fetch in Hrun.
  by destruct (net _ _ _); injection Hrun as _ <-.
Qed.

Lemma evolves_json {A} r (response : Response.t A) :
  Behaviour.evolves R r (json response).
Proof.
  unfold json. destruct (Response.body response); [apply evolves_ret | apply evolves_throw].
Qed.

Lemma evolves_write r f : (∀ p, R p (f p)) → Behaviour.evolves R r (write r f).
Proof.
  intros Hf s c s' [= _ <-]. unfold deref at 2. simpl.
  rewrite lookup_insert_eq. apply Hf.
Qed.

Lemma evolves_modify r f :
  (∀ p p', f p = Some p' → R p p') → Behaviour.evolves R r (modify r f).
Proof.
  intros Hf s c s' Hrun. unfold modify in Hrun.
  destruct (f (deref s r)) as [p'|] eqn:E; injection Hrun as _ <-; [|apply R_refl].
  unfold deref at 2. simpl. rewrite lookup_insert_eq. by apply Hf.
Qed.

Lemma evolves_bind {A B} r (m : Async A) (k : A → Async B) :
  Behaviour.evolves R r m → (∀ a, Behaviour.evolves R r (k a)) →
  Behaviour.evolves R r (bind m k).
Proof.
  intros Hm Hk s c s' Hrun. unfold bind in Hrun.
  destruct (m s) as [[a|e] s1] eqn:E.
  - eapply R_trans; [exact (Hm _ _ _ E) | exact (Hk a _ _ _ Hrun)].
  - injection Hrun as _ <-. exact (Hm _ _ _ E).
Qed.

Lemma evolves_tryCatch {A} r (m : Async A) (h : Error → Async A) :
  Behaviour.evolves R r m → (∀ e, Behaviour.evolves R r (h e)) →
  Behaviour.evolves R r (tryCatch m h).
Proof.
  intros Hm Hh s c s' Hrun. unfold tryCatch in Hrun.
  destruct (m s) as [[a|e] s1] eqn:E.
  - injection Hrun as _ <-. exact (Hm _ _ _ E).
  - eapply R_trans; [exact (Hm _ _ _ E) | exact (Hh e _ _ _ Hrun)].
Qed.

Lemma evolves_Promise_all {A B} r (f : A → Async B) (l : list A) :
  (∀ a, Behaviour.evolves R r (f a)) → Behaviour.evolves R r (Promise_all f l).
Proof.
  intros Hf s c s' Hrun. unfold Promise_all in Hrun.
  destruct (mapAsync f l s) as [cs s1] eqn:E. injection Hrun as _ <-.
  clear c. revert s cs s1 E.
  induction l as [|a l IH]; intros s cs s1 E; simpl in E.
  - injection E as _ <-. apply R_refl.
  - destruct (f a s) as [c s2] eqn:E1. destruct (mapAsync f l s2) as [cs' s3] eqn:E2.
    injection E as _ <-.
    eapply R_trans; [exact (Hf a _ _ _ E1) | exact (IH _ _ _ E2)].
Qed.

End EvolutionFacts.

Lemma keepsFields_refl p : Behaviour.keepsFields p p.
Proof. by intros key _. Qed.

Lemma keepsFields_trans p1 p2 p3 :
  Behaviour.keepsFields p1 p2 → Behaviour.keepsFields p2 p3 → Behaviour.keepsFields p1 p3.
Proof. intros H12 H23 key Hkey. by rewrite H23, H12. Qed.

Lemma keepsFields_set_imageUrls p q urls :
  Behaviour.keepsFields p q →
  Behaviour.keepsFields p (FortificationProperties.set_imageUrls q urls).
Proof.
  intros Hq key Hkey. simpl. rewrite lookup_delete_ne; [by apply Hq |].
  intros <-. apply Hkey. vm_compute. tauto.
Qed.

Lemma keepsFields_set_externalLinks p q links :
  Behaviour.keepsFields p q →
  Behaviour.keepsFields p (FortificationProperties.set_externalLinks q links).
Proof.
  intros Hq key Hkey. simpl. rewrite lookup_delete_ne; [by apply Hq |].
  intros <-. apply Hkey. vm_compute. tauto.
Qed.

(** A push that does not raise TypeError appends to the list that the key
    held, or to a new one. *)
Lemma pushImageUrls_Some urls p p' :
  ExternalData.pushImageUrls urls p = Some p' →
  p' = FortificationProperties.set_imageUrls p
         (default [] (FortificationProperties.imageUrls p) ++ urls).
Proof.
  unfold ExternalData.pushImageUrls.
  destruct (FortificationProperties.imageUrls p); [by intros [= <-] |].
  destruct (JS.truthy _); [done | by intros [= <-]].
Qed.

Lemma pushExternalLink_Some link p p' :
  ExternalData.pushExternalLink link p = Some p' →
  p' = FortificationProperties.set_externalLinks p
         (default [] (FortificationProperties.externalLinks p) ++ [link]).
Proof.
  unfold ExternalData.pushExternalLink.
  destruct (FortificationProperties.externalLinks p); [by intros [= <-] |].
  destruct (JS.truthy _); [done | by intros [= <-]].
Qed.

Lemma keepsFields_set p q (key : string) value :
  existsb (JS.eqb (js key)) Behaviour.enrichmentKeys = true →
  Behaviour.keepsFields p q →
  Behaviour.keepsFields p (FortificationProperties.set q key value).
Proof.
  intros Hkey Hq key' Hkey'. rewrite fields_set_ne; [by apply Hq |].
  intros <-. apply Hkey'. apply existsb_exists in Hkey as (k & Hin & ->%eqb_spec). done.
Qed.

Lemma onlyAppends_refl p : Behaviour.onlyAppends p p.
Proof. split; exists []; by rewrite app_nil_r. Qed.

Lemma onlyAppends_trans p1 p2 p3 :
  Behaviour.onlyAppends p1 p2 → Behaviour.onlyAppends p2 p3 → Behaviour.onlyAppends p1 p3.
Proof.
  intros [[i12 Hi12] [l12 Hl12]] [[i23 Hi23] [l23 Hl23]]. split.
  - exists (i12 ++ i23). by rewrite Hi23, Hi12, app_assoc.
  - exists (l12 ++ l23). by rewrite Hl23, Hl12, app_assoc.
Qed.

Lemma onlyAppends_set p (key : string) value :
  Behaviour.onlyAppends p (FortificationProperties.set p key value).
Proof. split; exists []; by rewrite app_nil_r. Qed.

Lemma onlyAppends_pushImageUrls p urls :
  Behaviour.onlyAppends p
    (FortificationProperties.set_imageUrls p
       (default [] (FortificationProperties.imageUrls p) ++ urls)).
Proof. split; [by exists urls | exists []; by rewrite app_nil_r]. Qed.

Lemma onlyAppends_pushExternalLink p link :
  Behaviour.onlyAppends p
    (FortificationProperties.set_externalLinks p
       (default [] (FortificationProperties.externalLinks p) ++ [link])).
Proof. split; [exists []; by rewrite app_nil_r | by eexists]. Qed.

Lemma extends_refl p : Behaviour.extends p p.
Proof. split; [apply keepsFields_refl | apply onlyAppends_refl]. Qed.

Lemma extends_trans p1 p2 p3 :
  Behaviour.extends p1 p2 → Behaviour.extends p2 p3 → Behaviour.extends p1 p3.
Proof.
  intros [] []. split; [by eapply keepsFields_trans | by eapply onlyAppends_trans].
Qed.

Lemma keepsImages_refl p : Behaviour.keepsImages p p.
Proof. by intros ?. Qed.

Lemma keepsImages_trans p1 p2 p3 :
  Behaviour.keepsImages p1 p2 → Behaviour.keepsImages p2 p3 → Behaviour.keepsImages p1 p3.
Proof. unfold Behaviour.keepsImages. auto. Qed.

Lemma extends_keepsImages p p' : Behaviour.extends p p' → Behaviour.keepsImages p p'.
Proof.
  intros [_ [[more Himages] _]] (url & urls & Hp). rewrite Hp in Himages.
  unfold Behaviour.hasImages. destruct (FortificationProperties.imageUrls p') as [[|u l]|];
    simpl in Himages; try done. eauto.
Qed.

Lemma hasImages_push p present url :
  Behaviour.hasImages (FortificationProperties.set_imageUrls p (present ++ [url])).
Proof. unfold Behaviour.hasImages. simpl. destruct present; simpl; eauto. Qed.

Lemma hasImages_set_imageUrls p images :
  (0 <? length images)%nat = true →
  Behaviour.hasImages (FortificationProperties.set_imageUrls p images).
Proof. destruct images; [done |]. unfold Behaviour.hasImages. simpl. eauto. Qed.

Lemma hasImages_set p (key : string) value :
  Behaviour.hasImages p → Behaviour.hasImages (FortificationProperties.set p key value).
Proof. done. Qed.

Create HintDb evolves.
#[local] Hint Resolve evolves_ret evolves_throw evolves_read
  evolves_encodeURIComponent evolves_newDate evolves_fetch evolves_json
  keepsFields_refl extends_refl : evolves.

#[local] Hint Extern 1 (Behaviour.keepsFields _ _) =>
  repeat first [ apply keepsFields_set; [reflexivity |]
               | apply keepsFields_set_imageUrls
               | apply keepsFields_set_externalLinks ];
  apply keepsFields_refl : evolves.

#[local] Hint Extern 1 (Behaviour.onlyAppends _ _) =>
  first [ apply onlyAppends_set | apply onlyAppends_pushImageUrls
        | apply onlyAppends_pushExternalLink ] : evolves.

#[local] Hint Extern 1 (Behaviour.extends _ _) => split : evolves.

#[local] Hint Resolve keepsImages_refl hasImages_push hasImages_set_imageUrls
  hasImages_set : evolves.

#[local] Hint Extern 1 (Behaviour.keepsImages _ _) => intros ? : evolves.

(** The relation at hand is a preorder. *)
Ltac evolves_order :=
  first [ exact keepsFields_refl | exact keepsFields_trans
        | exact extends_refl | exact extends_trans
        | exact keepsImages_refl | exact keepsImages_trans ].

(** One step of an argument on the bag of the feature: a known fact, a
    write, or a push that went through, whose effect is within the
    relation, a sequence, a [try], a parallel map or a case distinction. *)
Ltac evolves_step :=
  first
    [ solve [auto with evolves]
    | progress cbv zeta
    | lazymatch goal with
      | |- Behaviour.evolves _ _ (ExternalData.write _ _) =>
          apply evolves_write; intros ?; solve [auto with evolves]
      | |- Behaviour.evolves _ _ (ExternalData.modify _ _) =>
          apply evolves_modify; [evolves_order |];
          let H := fresh in
          intros ? ? H;
          first [ apply pushImageUrls_Some in H
                | apply pushExternalLink_Some in H
                | apply fmap_Some in H as (? & H%pushImageUrls_Some & ->) ];
          subst; solve [auto with evolves]
      | |- Behaviour.evolves _ _ (ExternalData.bind _ _) =>
          apply evolves_bind; [evolves_order | | intros ?]
      | |- Behaviour.evolves _ _ (ExternalData.tryCatch _ _) =>
          apply evolves_tryCatch; [evolves_order | | intros ?]
      | |- Behaviour.evolves _ _ (ExternalData.Promise_all _ _) =>
          apply evolves_Promise_all; [evolves_order | evolves_order | intros ?]
      | |- Behaviour.evolves _ _ (match ?x with _ => _ end) => destruct x eqn:?
      end ].

Ltac evolves := repeat evolves_step.

Section EnrichmentEvolution.
Context `{!JS.Runtime} (world : ExternalData.World).
Import ExternalData.

Lemma extends_fetchWikipediaData r title :
  Behaviour.evolves Behaviour.extends r (fetchWikipediaData world title).
Proof. unfold fetchWikipediaData. evolves. Qed.

Lemma extends_fetchWikidataData r wikidataId :
  Behaviour.evolves Behaviour.extends r (fetchWikidataData world wikidataId).
Proof. unfold fetchWikidataData. evolves. Qed.

Lemma extends_imageUrlOf r title :
  Behaviour.evolves Behaviour.extends r (imageUrlOf world title).
Proof. unfold imageUrlOf. evolves. Qed.

#[local] Hint Resolve extends_imageUrlOf : evolves.

Lemma extends_fetchWikipediaImages r title :
  Behaviour.evolves Behaviour.extends r (fetchWikipediaImages world title).
Proof. unfold fetchWikipediaImages. evolves. Qed.

#[local] Hint Resolve extends_fetchWikipediaData extends_fetchWikidataData
  extends_fetchWikipediaImages : evolves.

Lemma extends_processWikidata r :
  Behaviour.evolves Behaviour.extends r (processWikidata world r).
Proof. unfold processWikidata. evolves. Qed.

Lemma extends_addWikipediaLink r wikipedia title :
  Behaviour.evolves Behaviour.extends r (addWikipediaLink r wikipedia title).
Proof. unfold addWikipediaLink. evolves. Qed.

#[local] Hint Resolve extends_processWikidata extends_addWikipediaLink : evolves.

Lemma extends_processWikipedia r :
  Behaviour.evolves Behaviour.extends r (processWikipedia world r).
Proof. unfold processWikipedia. evolves. Qed.

Lemma extends_fetchedRecently r :
  Behaviour.evolves Behaviour.extends r (fetchedRecently world r).
Proof. unfold fetchedRecently. evolves. Qed.

Lemma extends_stampLastFetched r :
  Behaviour.evolves Behaviour.extends r (stampLastFetched world r).
Proof. unfold stampLastFetched. evolves. Qed.

#[local] Hint Resolve extends_processWikipedia extends_fetchedRecently
  extends_stampLastFetched : evolves.

Lemma extends_enrichFortification_try fort :
  Behaviour.evolves Behaviour.extends (Fortification.properties fort)
    (enrichFortification_try world fort).
Proof. unfold enrichFortification_try. evolves. Qed.

End EnrichmentEvolution.

Lemma evolves_weaken {A} (R R' : FortificationProperties.t → FortificationProperties.t → Prop)
  r (m : ExternalData.Async A) :
  (∀ p p', R p p' → R' p p') → Behaviour.evolves R r m → Behaviour.evolves R' r m.
Proof. intros Himpl Hm s c s' Hrun. apply Himpl. by eapply Hm. Qed.

Lemma extends_keepsFields p p' : Behaviour.extends p p' → Behaviour.keepsFields p p'.
Proof. by intros []. Qed.

#[local] Hint Resolve extends_fetchWikipediaData extends_fetchWikidataData
  extends_fetchWikipediaImages extends_processWikidata extends_addWikipediaLink
  extends_fetchedRecently extends_stampLastFetched : evolves.

#[local] Hint Extern 5 (Behaviour.evolves Behaviour.keepsFields _ _) =>
  apply (evolves_weaken Behaviour.extends); [exact extends_keepsFields |] : evolves.

Section EnrichmentEvolutionWithImages.
Context `{!JS.Runtime} (world : ExternalData.World).
Import ExternalData ExternalDataWithImages.

Lemma keepsFields_commonsImageOf r title :
  Behaviour.evolves Behaviour.keepsFields r (commonsImageOf world title).
Proof. unfold commonsImageOf. evolves. Qed.

#[local] Hint Resolve keepsFields_commonsImageOf : evolves.

Lemma keepsFields_searchWikimediaCommons r searchTerm :
  Behaviour.evolves Behaviour.keepsFields r (searchWikimediaCommons world searchTerm).
Proof. unfold searchWikimediaCommons. evolves. Qed.

#[local] Hint Resolve keepsFields_searchWikimediaCommons : evolves.

Lemma keepsFields_fetchGoogleImages r searchTerm :
  Behaviour.evolves Behaviour.keepsFields r (fetchGoogleImages world searchTerm).
Proof. unfold fetchGoogleImages. evolves. Qed.

#[local] Hint Resolve keepsFields_fetchGoogleImages : evolves.

Lemma keepsFields_processImages fort :
  Behaviour.evolves Behaviour.keepsFields (Fortification.properties fort)
    (processImages world fort).
Proof. unfold processImages. evolves. Qed.

Lemma keepsFields_processWikipedia_images r :
  Behaviour.evolves Behaviour.keepsFields r
    (ExternalDataWithImages.processWikipedia world r).
Proof. unfold ExternalDataWithImages.processWikipedia. evolves. Qed.

#[local] Hint Resolve keepsFields_processImages keepsFields_processWikipedia_images
  : evolves.

Lemma keepsFields_enrichFortification_try_images fort :
  Behaviour.evolves Behaviour.keepsFields (Fortification.properties fort)
    (ExternalDataWithImages.enrichFortification_try world fort).
Proof. unfold ExternalDataWithImages.enrichFortification_try. evolves. Qed.

(** X17. Enrichment leaves every string-valued property of the feature as
    it was, except those under the keys period, constructionStyle,
    description, lastFetched and imageSource, which it writes, and imageUrls
    and externalLinks, where a list replaces a string that a tag of that
    name had put there; in both revisions, whether it completes or is cut
    short by an exception. In the revision without the image search the
    image list and the link list of the feature are only appended to. *)
Theorem enrichFortification_preserves (fort : Fortification.t ref) (s : State) :
  let r := Fortification.properties fort in
  Behaviour.extends (deref s r)
    (deref (ExternalData.enrichFortification world fort s).2 r)
  ∧ Behaviour.keepsFields (deref s r)
      (deref (ExternalDataWithImages.enrichFortification world fort s).2 r).
Proof.
  cbv zeta. split.
  - unfold ExternalData.enrichFortification.
    destruct (ExternalData.enrichFortification_try world fort s) as [[enriched|e] s'] eqn:E;
      simpl; by eapply extends_enrichFortification_try.
  - unfold ExternalDataWithImages.enrichFortification.
    destruct (ExternalDataWithImages.enrichFortification_try world fort s)
      as [[enriched|e] s'] eqn:E;
      simpl; by eapply keepsFields_enrichFortification_try_images.
Qed.

End EnrichmentEvolutionWithImages.

(** A tag named imageUrls, a string. The revision with the image search
    overwrites it with the list of images. In the revision without it, the
    [push] of the thumbnail raises TypeError after the period, the style
    and the description were written: the feature comes back from the
    [catch] block with the string in place and without a stamp. *)
Lemma enrichFortification_string_imageUrls :
  let r := Fortification.properties Scenario.fort in
  let before := Scenario.stringImageUrlsState in
  let searched :=
    (ExternalDataWithImages.enrichFortification Scenario.offline Scenario.fort before).2 in
  let run := ExternalData.enrichFortification_try Scenario.online Scenario.fort before in
  FortificationProperties.get (ExternalData.deref before r) "imageUrls"
  = Some (js "photo.jpg")
  ∧ FortificationProperties.get (ExternalData.deref searched r) "imageUrls" = None
  ∧ FortificationProperties.imageUrls (ExternalData.deref searched r)
    = Some ExternalDataWithImages.fallbackImages
  ∧ run.1 = ExternalData.Throw ExternalData.TypeError
  ∧ FortificationProperties.get (ExternalData.deref run.2 r) "imageUrls"
    = Some (js "photo.jpg")
  ∧ FortificationProperties.imageUrls (ExternalData.deref run.2 r) = None
  ∧ FortificationProperties.get (ExternalData.deref run.2 r) "description"
    = Some (js "A fort.")
  ∧ FortificationProperties.get (ExternalData.deref run.2 r) "lastFetched" = None.
Proof. cbv zeta. repeat split; vm_compute; reflexivity. Qed.

(** ** The image lists that the lookups return *)

Section YieldFacts.
Import ExternalData.

Lemma yields_ret {A} (P : A → Prop) (a : A) : P a → Behaviour.yields P (ret a).
Proof. by intros Ha s a' s' [= <- _]. Qed.

Lemma yields_throw {A} (P : A → Prop) e : Behaviour.yields P (@throw A e).
Proof. by intros s a s' [=]. Qed.

Lemma yields_bind {A B} (P : B → Prop) (m : Async A) (k : A → Async B) :
  (∀ a, Behaviour.yields P (k a)) → Behaviour.yields P (bind m k).
Proof.
  intros Hk s b s' Hrun. apply bind_Normal in Hrun as (a & s1 & _ & Hrun).
  by eapply Hk.
Qed.

Lemma yields_bind_with {A B} (Q : A → Prop) (P : B → Prop) (m : Async A)
  (k : A → Async B) :
  Behaviour.yields Q m → (∀ a, Q a → Behaviour.yields P (k a)) →
  Behaviour.yields P (bind m k).
Proof.
  intros Hm Hk s b s' Hrun. apply bind_Normal in Hrun as (a & s1 & Ha & Hrun).
  eapply Hk; [by eapply Hm | done].
Qed.

Lemma yields_tryCatch {A} (P : A → Prop) (m : Async A) (h : Error → Async A) :
  Behaviour.yields P m → (∀ e, Behaviour.yields P (h e)) →
  Behaviour.yields P (tryCatch m h).
Proof.
  intros Hm Hh s a s' Hrun. unfold tryCatch in Hrun.
  destruct (m s) as [[a'|e] s1] eqn:E.
  - injection Hrun as <- _. by eapply Hm.
  - by eapply Hh.
Qed.

Lemma yields_tryCatch_resolves {A} (P : A → Prop) (m : Async A) (h : Error → Async A) :
  Spec.resolves m → Behaviour.yields P m → Behaviour.yields P (tryCatch m h).
Proof.
  intros Hres Hm s a s' Hrun. unfold tryCatch in Hrun.
  destruct (Hres s) as (a' & s1 & E). rewrite E in Hrun.
  injection Hrun as <- _. by eapply Hm.
Qed.

Lemma resolves_bind {A B} (m : Async A) (k : A → Async B) :
  Spec.resolves m → (∀ a, Spec.resolves (k a)) → Spec.resolves (bind m k).
Proof.
  intros Hm Hk s. destruct (Hm s) as (a & s1 & E).
  destruct (Hk a s1) as (b & s2 & E'). exists b, s2. unfold bind. by rewrite E.
Qed.

Lemma awaitAll_Normal {B} (P : B → Prop) (cs : list (Completion B)) (bs : list B) :
  Forall (λ c, match c with Normal b => P b | Throw _ => True end) cs →
  awaitAll cs = Normal bs → length bs = length cs ∧ Forall P bs.
Proof.
  revert bs. induction cs as [|[b|e] cs IH]; intros bs Hcs Hall; simpl in Hall.
  - by injection Hall as <-.
  - destruct (awaitAll cs) as [bs'|] eqn:E; [|done]. injection Hall as <-.
    apply Forall_cons in Hcs as [Hb Hcs]. destruct (IH bs' Hcs eq_refl) as [Hlen Hbs].
    split; [simpl; by rewrite Hlen | by constructor].
  - done.
Qed.

Lemma mapAsync_length {A B} (P : B → Prop) (f : A → Async B) (l : list A) :
  (∀ a, Behaviour.yields P (f a)) →
  ∀ s cs s', mapAsync f l s = (cs, s') →
    length cs = length l
    ∧ Forall (λ c, match c with Normal b => P b | Throw _ => True end) cs.
Proof.
  intros Hf. induction l as [|a l IH]; intros s cs s' Hrun; simpl in Hrun.
  - by injection Hrun as <- _.
  - destruct (f a s) as [c s1] eqn:E1. destruct (mapAsync f l s1) as [cs' s2] eqn:E2.
    injection Hrun as <- _. destruct (IH _ _ _ E2) as [Hlen Hcs].
    split; [simpl; by rewrite Hlen |]. constructor; [|done].
    destruct c as [b|e]; [by eapply Hf | done].
Qed.

Lemma yields_Promise_all {A B} (P : B → Prop) (f : A → Async B) (l : list A) :
  (∀ a, Behaviour.yields P (f a)) →
  Behaviour.yields (λ bs, length bs = length l ∧ Forall P bs) (Promise_all f l).
Proof.
  intros Hf s bs s' Hrun. unfold Promise_all in Hrun.
  destruct (mapAsync f l s) as [cs s1] eqn:E. injection Hrun as Hall _.
  destruct (mapAsync_length P f l Hf _ _ _ E) as [Hlen Hcs].
  destruct (awaitAll_Normal P cs bs Hcs Hall) as [Hlen' Hbs].
  split; [congruence | done].
Qed.

(** The URLs kept of the results of at most five lookups. *)
Lemma fewUrls_omap (found : list (option jsstring)) (titles : list jsstring) :
  length found = length (take 5 titles) →
  Forall (λ url, match url with Some u => u ≠ [] | None => True end) found →
  Behaviour.fewUrls (omap id found).
Proof.
  intros Hlen Hfound. rewrite length_take in Hlen. split.
  - assert (length (omap id found) ≤ length found)%nat as Hle; [|lia].
    clear. induction found as [|[u|] found IH]; simpl; [lia | |];
      change (list_omap _ _ id found) with (omap id found); lia.
  - clear Hlen. induction Hfound as [|[u|] found Hu Hfound IH]; simpl; auto.
Qed.

End YieldFacts.

Lemma fewUrls_nil : Behaviour.fewUrls [].
Proof. split; [simpl; lia | constructor]. Qed.


Section ImageLists.
Context `{!JS.Runtime} (world : ExternalData.World).
Import ExternalData ExternalDataWithImages.

Lemma yields_imageUrlOf title :
  Behaviour.yields (λ url, match url with Some u => u ≠ [] | None => True end)
    (imageUrlOf world title).
Proof.
  unfold imageUrlOf. repeat (apply yields_bind; intros ?).
  destruct (firstImageUrl _) as [[|c u]|]; by apply yields_ret.
Qed.

Lemma yields_fetchWikipediaImages title :
  Behaviour.yields Behaviour.fewUrls (fetchWikipediaImages world title).
Proof.
  unfold fetchWikipediaImages.
  apply yields_tryCatch; [| intros _; apply yields_ret, fewUrls_nil].
  apply yields_bind; intros encoded. cbv zeta. apply yields_bind; intros response.
  destruct (negb _); [apply yields_throw |].
  apply yields_bind; intros data.
  destruct (imagesOf data) as [images|]; [| apply yields_ret, fewUrls_nil].
  destruct (_ =? 0)%nat; [apply yields_ret, fewUrls_nil |].
  eapply yields_bind_with; [apply yields_Promise_all, yields_imageUrlOf |].
  intros found [Hlen Hfound]. apply yields_ret. by eapply fewUrls_omap.
Qed.

(** X18. In a run in which every request settles, by a response or by a
    rejection, no exception leaves the image lookup of a Wikipedia page, and
    it returns at most five URLs, none of them empty. *)
Theorem fetchWikipediaImages_few (title : jsstring) (s : State) :
  ∃ urls s',
    fetchWikipediaImages world title s = (Normal urls, s') ∧ Behaviour.fewUrls urls.
Proof.
  destruct (fetchWikipediaImages_resolves world title s) as (urls & s' & Hrun).
  exists urls, s'. split; [done |]. by eapply yields_fetchWikipediaImages.
Qed.







End ImageLists.

(** ** The images of the revision with the image search *)

#[local] Hint Extern 5 (Behaviour.evolves Behaviour.keepsImages _ _) =>
  apply (evolves_weaken Behaviour.extends); [exact extends_keepsImages |] : evolves.

Section ImagesAlways.
Context `{!JS.Runtime} (world : ExternalData.World).
Import ExternalData ExternalDataWithImages.


Lemma keepsImages_processWikipedia_images r :
  Behaviour.evolves Behaviour.keepsImages r
    (ExternalDataWithImages.processWikipedia world r).
Proof. unfold ExternalDataWithImages.processWikipedia. evolves. Qed.

#[local] Hint Resolve keepsImages_processWikipedia_images : evolves.



End ImagesAlways.


(** ** An enrichment is not repeated while its stamp is fresh *)

Lemma toISOString_nonempty (t : Z) : JS.toISOString t ≠ [].
Proof.
  unfold JS.toISOString. destruct (JS.civilFromDays _) as [[y m] d].
  cbv zeta. intros [_ Hrest]%app_eq_nil. discriminate Hrest.
Qed.

Section NotRepeated.
Context `{!JS.Runtime} (world : ExternalData.World).
Import ExternalData.

(** X21. After an enrichment that was not skipped and completed, in either
    revision, a further enrichment of the feature is skipped as long as the
    stamp, read back by the date parser, is later than the same wall-clock
    time of the previous day: it returns the feature, sends no request and
    leaves every bag as it is; only the clock was read. *)
Theorem enrichFortification_not_repeated (fort : Fortification.t ref)
  (s s1 : State) (enriched : Fortification.t ref) :
  Spec.fetchedWithinADay (deref s (Fortification.properties fort))
    (clock world (dates s)) = false →
  enrichFortification_try world fort s = (Normal enriched, s1)
  ∨ ExternalDataWithImages.enrichFortification_try world fort s = (Normal enriched, s1) →
  JS.dateGt (JS.dateParse (JS.toISOString (clock world (pred (dates s1)))))
    (JS.setDate_previousDay (clock world (dates s1))) = true →
  ExternalData.enrichFortification world fort s1 = (fort, afterClock s1)
  ∧ ExternalDataWithImages.enrichFortification world fort s1 = (fort, afterClock s1).
Proof.
  intros Hstale Hrun Hfresh.
  destruct (enrichFortification_try_stamps world fort s enriched s1 Hstale Hrun)
    as [_ Hstamp].
  assert (Spec.fetchedWithinADay (deref s1 (Fortification.properties fort))
            (clock world (dates s1)) = true) as Hrecent.
  { unfold Spec.fetchedWithinADay. rewrite Hstamp.
    pose proof (toISOString_nonempty (clock world (pred (dates s1)))) as Hne.
    by destruct (JS.toISOString _). }
  destruct (enrichFortification_try_fresh world fort s1 Hrecent) as [Hnamed Himages].
  unfold ExternalData.enrichFortification, ExternalDataWithImages.enrichFortification.
  by rewrite Hnamed, Himages.
Qed.

End NotRepeated.

Lemma enrichFortification_not_repeated_witness :
  ExternalData.enrichFortification Scenario.online Scenario.fort Scenario.enrichedState
  = (Scenario.fort, ExternalData.afterClock Scenario.enrichedState)
  ∧ ExternalDataWithImages.enrichFortification Scenario.online Scenario.fort
      Scenario.enrichedState
    = (Scenario.fort, ExternalData.afterClock Scenario.enrichedState).
Proof.
  apply (enrichFortification_not_repeated Scenario.online Scenario.fort
           Scenario.referencedState _ Scenario.fort).
  - vm_compute. reflexivity.
  - left. vm_compute. reflexivity.
  - vm_compute. reflexivity.
Defined.

(** ** A feature without references *)

Section WithoutReferences.
Context `{!JS.Runtime} (world : ExternalData.World).
Import ExternalData.

Lemma processWikidata_skip r s :
  JS.truthy (FortificationProperties.get (deref s r) "wikidata") = false →
  processWikidata world r s = (Normal tt, s).
Proof.
  intros Hnone. unfold processWikidata, bind, read.
  by destruct (FortificationProperties.get (deref s r) "wikidata") as [[|c i]|].
Qed.

Lemma processWikipedia_skip r s :
  JS.truthy (FortificationProperties.get (deref s r) "wikipedia") = false →
  processWikipedia world r s = (Normal tt, s).
Proof.
  intros Hnone. unfold processWikipedia, bind, read.
  by destruct (FortificationProperties.get (deref s r) "wikipedia") as [[|c w]|].
Qed.

(** X22. A feature with neither a Wikidata nor a Wikipedia reference, when
    it is not skipped for freshness, is enriched without any request: the
    feature is returned and the only change to its bag is the stamp of the
    time at which the enrichment ended. *)
Theorem enrichFortification_without_references (fort : Fortification.t ref) (s : State) :
  let r := Fortification.properties fort in
  let result := ExternalData.enrichFortification world fort s in
  JS.truthy (FortificationProperties.get (deref s r) "wikidata") = false →
  JS.truthy (FortificationProperties.get (deref s r) "wikipedia") = false →
  Spec.fetchedWithinADay (deref s r) (clock world (dates s)) = false →
  result.1 = fort
  ∧ requests result.2 = requests s
  ∧ deref result.2 r
    = FortificationProperties.set (deref s r) "lastFetched"
        (JS.toISOString (clock world (pred (dates result.2)))).
Proof.
  cbv zeta. intros Hwikidata Hwikipedia Hstale.
  unfold ExternalData.enrichFortification.
  destruct (enrichFortification_try_stale world fort s Hstale) as [-> _].
  rewrite fetchedRecently_run. cbn [snd].
  set (checked := match FortificationProperties.get _ "lastFetched" with
                  | Some (_ :: _) => afterClock s
                  | _ => s
                  end).
  assert (heap checked = heap s ∧ requests checked = requests s) as [Hheap Hrequests].
  { unfold checked. by destruct (FortificationProperties.get _ "lastFetched") as [[|c l]|]. }
  assert (deref checked (Fortification.properties fort)
          = deref s (Fortification.properties fort)) as Hderef.
  { unfold deref. by rewrite Hheap. }
  rewrite bind_run, processWikidata_skip by (by rewrite Hderef).
  rewrite bind_run, processWikipedia_skip by (by rewrite Hderef).
  rewrite bind_run, stampLastFetched_run. cbn [fst snd ret requests dates pred].
  split_and!; [done | done |].
  unfold deref at 1. cbn [heap]. rewrite lookup_insert_eq. cbn [default].
  by rewrite Hderef.
Qed.

End WithoutReferences.

Lemma enrichFortification_without_references_witness :
  (ExternalData.enrichFortification Scenario.online Scenario.fort
     Scenario.unreferencedState).1 = Scenario.fort
  ∧ ExternalData.requests
      (ExternalData.enrichFortification Scenario.online Scenario.fort
         Scenario.unreferencedState).2
    = ExternalData.requests Scenario.unreferencedState
  ∧ ExternalData.deref
      (ExternalData.enrichFortification Scenario.online Scenario.fort
         Scenario.unreferencedState).2 (Fortification.properties Scenario.fort)
    = FortificationProperties.set
        (ExternalData.deref Scenario.unreferencedState
           (Fortification.properties Scenario.fort)) "lastFetched"
        (JS.toISOString
           (ExternalData.clock Scenario.online
              (pred (ExternalData.dates
                       (ExternalData.enrichFortification Scenario.online Scenario.fort
                          Scenario.unreferencedState).2)))).
Proof.
  apply (enrichFortification_without_references Scenario.online Scenario.fort
           Scenario.unreferencedState); vm_compute; reflexivity.
Defined.

(** ** The order of the sidebar's list *)

Section SortedList.
Context {A : Type} (compare : A → A → Z).
Hypothesis compare_total : ∀ a b, (0 < compare a b)%Z → (compare b a ≤ 0)%Z.
Hypothesis compare_trans :
  ∀ a b c, (compare a b ≤ 0)%Z → (compare b c ≤ 0)%Z → (compare a c ≤ 0)%Z.

Lemma Array_sort_insert_ordered (a : A) (l : list A) :
  StronglySorted (λ x y, (compare x y ≤ 0)%Z) l →
  StronglySorted (λ x y, (compare x y ≤ 0)%Z) (GeoJSON.Array_sort_insert compare a l).
Proof.
  induction 1 as [|b l Hl IH Hb]; simpl; [repeat constructor |].
  destruct (Z.ltb_spec 0 (compare a b)) as [Hafter | Hbefore].
  - constructor; [done |].
    eapply Permutation_Forall; [symmetry; apply Array_sort_insert_Permutation |].
    constructor; [by apply compare_total | done].
  - constructor; [by constructor |].
    constructor; [done |].
    eapply Forall_impl; [exact Hb |]. intros c Hc. by eapply compare_trans.
Qed.

Lemma Array_sort_ordered (l : list A) :
  StronglySorted (λ x y, (compare x y ≤ 0)%Z) (GeoJSON.Array_sort compare l).
Proof.
  induction l as [|a l IH]; simpl; [constructor |].
  by apply Array_sort_insert_ordered.
Qed.

End SortedList.

Section SidebarOrder.
Context `{!JS.Runtime}.

(** X23. When the comparison of names is a total preorder, the list of the
    sidebar is in name order: no feature comes before one that sorts
    before it. *)
Theorem sidebar_list_sorted (localeCompare : jsstring → jsstring → Z)
  (fortifications : list FortificationType)
  (activeFilters : gmap jsstring (option jsstring)) (searchTerm : jsstring) :
  (∀ a b, (0 < localeCompare a b)%Z → (localeCompare b a ≤ 0)%Z) →
  (∀ a b c, (localeCompare a b ≤ 0)%Z → (localeCompare b c ≤ 0)%Z →
            (localeCompare a c ≤ 0)%Z) →
  StronglySorted (Behaviour.inNameOrder localeCompare)
    (Sidebar.filteredFortifications localeCompare fortifications activeFilters
       searchTerm).
Proof.
  intros Htotal Htrans. unfold Sidebar.filteredFortifications. cbv zeta.
  apply (Array_sort_ordered
           (λ a b, localeCompare (MapView.nameOf a) (MapView.nameOf b))); eauto.
Qed.

End SidebarOrder.

Lemma sidebar_list_sorted_witness :
  StronglySorted (Behaviour.inNameOrder Scenario.lengthCompare)
    (Sidebar.filteredFortifications Scenario.lengthCompare
       [Scenario.named (js "Fort X"); Scenario.named (js "Ab")] ∅ []).
Proof.
  apply (sidebar_list_sorted Scenario.lengthCompare
           [Scenario.named (js "Fort X"); Scenario.named (js "Ab")] ∅ []);
    unfold Scenario.lengthCompare; intros; lia.
Defined.
